(** * gitnot: a shallow embedding of [gitnot.py] and its specification

    The development follows the layout of the script: string helpers of
    the Python runtime that the script relies on, the diff report
    formatter, ignore rules, the content hasher, the version counter and
    finally the [init], [update] and [status] commands over an explicit
    model of the [.gitnot] store. *)

From Stdlib Require Import ZArith Ascii String List Bool Lia SpecFloat.
From stdpp Require Import base gmap strings list.

Local Open Scope string_scope.
Local Open Scope Z_scope.

(** ** Exceptions

    Python code raises; the embedding returns a [result].  Only the
    exception classes the script distinguishes are kept.  [OutOfFuel] is
    not a Python exception: it marks a loop model that was given too few
    iterations. *)

Inductive exn : Set :=
| ValueError
| IndexError
| KeyError
| OSError
| OutOfFuel.

Inductive result (A : Type) : Type :=
| Ok (a : A)
| Raise (e : exn).

Arguments Ok {A} a.
Arguments Raise {A} e.

Definition bind {A B : Type} (m : result A) (k : A -> result B) : result B :=
  match m with
  | Ok a => k a
  | Raise e => Raise e
  end.

Notation "'do' x <- m ; k" := (bind m (fun x => k))
  (at level 10, x name, m at level 100, k at level 200).

(** ** Python [str] helpers

    A [str] is modelled as a [string] whose characters stand for the code
    points below 256. *)

Module Str.

(** [str.isspace] on one character, for code points below 256:
    TAB..CR, FS..US, SPACE, NEL and NBSP. *)
Definition isspace (c : ascii) : bool :=
  let n := nat_of_ascii c in
  ((9 <=? n) && (n <=? 13) || (28 <=? n) && (n <=? 32)
   || (n =? 133) || (n =? 160))%nat.

Definition isdigit (c : ascii) : bool :=
  let n := nat_of_ascii c in ((48 <=? n) && (n <=? 57))%nat.

Definition digit_val (c : ascii) : Z := Z.of_nat (nat_of_ascii c) - 48.

(** [str.lower] on one character: A..Z and the upper-case letters of
    the Latin-1 block. *)
Definition lower (c : ascii) : ascii :=
  let n := nat_of_ascii c in
  if ((65 <=? n) && (n <=? 90)
      || (192 <=? n) && (n <=? 222) && negb (n =? 215))%nat
  then ascii_of_nat (n + 32) else c.

Fixpoint lowercase (s : string) : string :=
  match s with
  | EmptyString => EmptyString
  | String c s' => String (lower c) (lowercase s')
  end.

(** [s.startswith(p)] *)
Fixpoint startswith (p s : string) : bool :=
  match p with
  | EmptyString => true
  | String a p' =>
      match s with
      | EmptyString => false
      | String b s' => Ascii.eqb a b && startswith p' s'
      end
  end.

(** [s.endswith(p)] *)
Definition endswith (p s : string) : bool :=
  (String.length p <=? String.length s)%nat
  && String.eqb (substring (String.length s - String.length p) (String.length p) s) p.

(** [s[1:]] *)
Definition tail (s : string) : string :=
  match s with
  | EmptyString => EmptyString
  | String _ s' => s'
  end.

(** [s[:-2]] *)
Definition drop_last2 (s : string) : string :=
  substring 0 (String.length s - 2) s.

(** [c in s] for a one-character [c] *)
Fixpoint contains (c : ascii) (s : string) : bool :=
  match s with
  | EmptyString => false
  | String b s' => Ascii.eqb c b || contains c s'
  end.

(** [all(p(c) for c in s)] *)
Fixpoint all (p : ascii -> bool) (s : string) : bool :=
  match s with
  | EmptyString => true
  | String c s' => p c && all p s'
  end.


(** [s.rstrip()] *)
Fixpoint rstrip (s : string) : string :=
  match s with
  | EmptyString => EmptyString
  | String c s' =>
      match rstrip s' with
      | EmptyString => if isspace c then EmptyString else String c EmptyString
      | r => String c r
      end
  end.

(** [s.lstrip()] *)
Fixpoint lstrip (s : string) : string :=
  match s with
  | EmptyString => EmptyString
  | String c s' => if isspace c then lstrip s' else s
  end.

(** [s.strip()] *)
Definition strip (s : string) : string := rstrip (lstrip s).

(** [s.split()]: split on runs of whitespace, no empty fields.
    [cur] is the field being read. *)
Fixpoint split_ws_from (cur : string) (s : string) : list string :=
  match s with
  | EmptyString => if String.eqb cur "" then [] else [cur]
  | String c s' =>
      if isspace c
      then (if String.eqb cur "" then split_ws_from "" s'
            else cur :: split_ws_from "" s')
      else split_ws_from (cur +:+ String c "") s'
  end.

Definition split_ws (s : string) : list string := split_ws_from "" s.

(** [s.split(sep)] for a one-character separator: empty fields are
    kept, the result is never empty. *)
Fixpoint split_on_from (sep : ascii) (cur : string) (s : string) : list string :=
  match s with
  | EmptyString => [cur]
  | String c s' =>
      if Ascii.eqb c sep then cur :: split_on_from sep "" s'
      else split_on_from sep (cur +:+ String c "") s'
  end.

Definition split_on (sep : ascii) (s : string) : list string :=
  split_on_from sep "" s.

(** [sep.join(l)] *)
Fixpoint join (sep : string) (l : list string) : string :=
  match l with
  | [] => ""
  | [x] => x
  | x :: rest => x +:+ sep +:+ join sep rest
  end.

(** [l[i]] *)
Definition index {A : Type} (l : list A) (i : nat) : result A :=
  match nth_error l i with
  | Some x => Ok x
  | None => Raise IndexError
  end.

(** The digit part of an integer literal as [int()] reads it: decimal
    digits, single underscores allowed between two digits. *)
Inductive digit_state : Set := AtStart | AfterDigit | AfterUnderscore.

Fixpoint read_digits (st : digit_state) (acc : Z) (s : string) : option Z :=
  match s with
  | EmptyString =>
      match st with
      | AfterDigit => Some acc
      | _ => None
      end
  | String c s' =>
      if isdigit c then read_digits AfterDigit (10 * acc + digit_val c) s'
      else if Ascii.eqb c "_"
           then match st with
                | AfterDigit => read_digits AfterUnderscore acc s'
                | _ => None
                end
           else None
  end.

(** [int(s)]: surrounding whitespace is dropped, one optional sign,
    then the digit part; anything else raises [ValueError].  (The
    interpreter's cap on the number of digits is not modelled.) *)
Definition int (s : string) : result Z :=
  let t := strip s in
  let '(neg, body) :=
    match t with
    | String "-" r => (true, r)
    | String "+" r => (false, r)
    | _ => (false, t)
    end in
  match read_digits AtStart 0 body with
  | Some n => Ok (if neg then - n else n)
  | None => Raise ValueError
  end.

(** Decimal digits of a natural number, most significant first, put in
    front of [acc].  [fuel] bounds the number of digits. *)
Fixpoint digits_of (fuel : nat) (n : N) (acc : string) : string :=
  let acc' := String (ascii_of_N (48 + n mod 10)) acc in
  match fuel with
  | O => acc'
  | S fuel' =>
      if (n / 10 =? 0)%N then acc' else digits_of fuel' (n / 10)%N acc'
  end.

Definition of_N (n : N) : string := digits_of (N.to_nat (N.log2 n)) n "".

(** [str(z)] for an [int] *)
Definition of_Z (z : Z) : string :=
  if z <? 0 then "-" +:+ of_N (Z.to_N (- z)) else of_N (Z.to_N z).

End Str.

(** ** The diff report formatter ([format_diff_as_markdown]) *)

Module Diff.

Import Str.

Definition nl : string := String "010"%char "".

(** The four locals of [format_diff_as_markdown] that the loop
    updates: the [add] and [remove] lists and both line counters. *)
Record report : Type := mkReport {
  add : list string;
  remove : list string;
  old_ln : Z;
  new_ln : Z
}.

Definition start : report := mkReport [] [] 0 0.

Definition set_counters (o n : Z) (st : report) : report :=
  mkReport (add st) (remove st) o n.

(** [int(parts[k].split(',')[0][1:])] *)
Definition parse_start (parts : list string) (k : nat) : result Z :=
  do p <- index parts k;
  do f <- index (split_on "," p) 0;
  int (tail f).

(** The branch for a line that starts with [@@]. *)
Definition hunk_header (line : string) (st : report) : result report :=
  let parts := split_ws line in
  if (3 <=? length parts)%nat then
    match (do o <- parse_start parts 1;
           do n <- parse_start parts 2;
           Ok (o, n)) with
    | Ok (o, n) => Ok (set_counters o n st)
    | Raise ValueError | Raise IndexError => Ok (set_counters 0 0 st)
    | Raise e => Raise e
    end
  else Ok st.

(** The condition of the look-ahead, once [diff_lines[i + 1]] is known. *)
Definition same_but_trailing_space (line next : string) : bool :=
  startswith "+" next && String.eqb (rstrip (tail line)) (rstrip (tail next)).

(** "Skip both lines, just advance counters" *)
Definition advance_both (st : report) : report :=
  mkReport (add st) (remove st) (old_ln st + 1) (new_ln st + 1).

Definition entry (ln : Z) (line : string) : string :=
  "L" +:+ of_Z ln +:+ ": " +:+ rstrip (tail line).

(** The final [if]/[elif]/[else] of the loop body. *)
Definition single_line (line : string) (st : report) : report :=
  if startswith "-" line && negb (startswith "---" line) then
    mkReport (add st) (remove st ++ [entry (old_ln st) line]) (old_ln st + 1) (new_ln st)
  else if startswith "+" line && negb (startswith "+++" line) then
    mkReport (add st ++ [entry (new_ln st) line]) (remove st) (old_ln st) (new_ln st + 1)
  else if negb (startswith "\" line) then advance_both st
  else st.

(** The [while i < len(diff_lines)] loop; one unit of [fuel] per
    iteration. *)
Fixpoint loop (fuel : nat) (diff_lines : list string) (i : nat) (st : report)
  : result report :=
  if (i <? length diff_lines)%nat then
    match fuel with
    | O => Raise OutOfFuel
    | S fuel' =>
        do line <- index diff_lines i;
        if startswith "@@" line then
          do st' <- hunk_header line st;
          loop fuel' diff_lines (i + 1) st'
        else
          do pair <-
            (if startswith "-" line && (i + 1 <? length diff_lines)%nat then
               do next <- index diff_lines (i + 1);
               Ok (same_but_trailing_space line next)
             else Ok false);
          if pair then loop fuel' diff_lines (i + 2) (advance_both st)
          else loop fuel' diff_lines (i + 1) (single_line line st)
    end
  else Ok st.

(** The sections of the report, in the order the function emits them. *)
Definition render (st : report) : string :=
  join nl
    ((match add st with
      | [] => []
      | _ => "### ➕ Added" :: add st ++ [""]
      end)
     ++
     (match remove st with
      | [] => []
      | _ => "### ➖ Removed" :: remove st ++ [""]
      end)).

Definition run (diff_lines : list string) : result report :=
  loop (length diff_lines) diff_lines 0 start.

Definition format_diff_as_markdown (diff_lines : list string) : result string :=
  do st <- run diff_lines;
  Ok (render st).

(** *** A structurally recursive twin of the loop

    [walk] consumes the list front to back; [loop_walk] below shows
    that the indexed loop computes exactly this. *)

Definition hunk_counters (line : string) (st : report) : report :=
  let parts := split_ws line in
  if (3 <=? length parts)%nat then
    match parse_start parts 1, parse_start parts 2 with
    | Ok o, Ok n => set_counters o n st
    | _, _ => set_counters 0 0 st
    end
  else st.

Fixpoint walk (lines : list string) (st : report) : report :=
  match lines with
  | [] => st
  | line :: rest =>
      if startswith "@@" line then walk rest (hunk_counters line st)
      else
        match rest with
        | next :: rest' =>
            if startswith "-" line && same_but_trailing_space line next
            then walk rest' (advance_both st)
            else walk rest (single_line line st)
        | [] => walk rest (single_line line st)
        end
  end.



(** The lines [difflib.unified_diff(["a\n","b\n"], ["a\n","b\r\n"],
    fromfile='before', tofile='after', lineterm='')] yields. *)
Definition diff_crlf_only : list string :=
  [ "--- before";
    "+++ after";
    "@@ -1,2 +1,2 @@";
    " a" +:+ nl;
    "-b" +:+ nl;
    "+b" +:+ String "013"%char nl ].

(** The same for old [["x\n"]] and new [["y\n"]]. *)
Definition diff_x_y : list string :=
  [ "--- before";
    "+++ after";
    "@@ -1 +1 @@";
    "-x" +:+ nl;
    "+y" +:+ nl ].

End Diff.

(** ** Ignore rules ([should_ignore_file]) *)

Module Ignore.

Import Str.

(** A relative [pathlib.Path] is kept as its [parts]. *)
Definition path : Type := list string.

(** [Path(...).name] *)
Definition name (p : path) : string := List.last p "".

(** [str(path)] *)
Definition to_str (p : path) : string := join "/" p.

(** [Path(s)] for the string of a relative path: empty components
    and single dots are dropped. *)
Definition of_str (s : string) : path :=
  List.filter (fun part => negb (String.eqb part "") && negb (String.eqb part "."))
    (split_on "/" s).

Section Rules.

(** [PurePath.match] belongs to [pathlib], not to the script. *)
Variable path_match : path -> string -> bool.

Fixpoint should_ignore_file (file_path : path) (ignore_patterns : list string) : bool :=
  match ignore_patterns with
  | [] => false
  | pattern :: rest =>
      if endswith "/*" pattern then
        let dir_pattern := drop_last2 pattern in
        if existsb (fun part => String.eqb part dir_pattern) file_path then true
        else should_ignore_file file_path rest
      else if contains "*" pattern || contains "?" pattern then
        if path_match file_path pattern then true
        else should_ignore_file file_path rest
      else
        if String.eqb (name file_path) pattern then true
        else should_ignore_file file_path rest
  end.

End Rules.

(** *** An instance of [PurePath.match]

    Relative POSIX paths, patterns without bracket expressions:
    [fnmatchcase] per component, components compared from the right. *)

Fixpoint fnmatchcase (pat s : string) : bool :=
  match pat with
  | EmptyString => String.eqb s ""
  | String "*" pat' =>
      (fix star (t : string) : bool :=
         fnmatchcase pat' t
         || match t with
            | EmptyString => false
            | String _ t' => star t'
            end) s
  | String "?" pat' =>
      match s with
      | EmptyString => false
      | String _ s' => fnmatchcase pat' s'
      end
  | String c pat' =>
      match s with
      | EmptyString => false
      | String d s' => Ascii.eqb c d && fnmatchcase pat' s'
      end
  end.

Fixpoint match_from_right (rparts rpats : list string) : bool :=
  match rpats with
  | [] => true
  | pat :: rpats' =>
      match rparts with
      | [] => false
      | part :: rparts' => fnmatchcase pat part && match_from_right rparts' rpats'
      end
  end.

Definition posix_match (p : path) (pattern : string) : bool :=
  if startswith "/" pattern then false
  else match_from_right (rev p) (rev (of_str pattern)).

End Ignore.

(** ** SHA-1 ([hashlib.sha1]) *)

Module Sha1.

Definition w32 (x : Z) : Z := x mod 2 ^ 32.

Definition rotl (n x : Z) : Z :=
  w32 (Z.lor (Z.shiftl x n) (Z.shiftr x (32 - n))).

Definition byte_val (b : Byte.byte) : Z := Z.of_N (Byte.to_N b).

(** Message padding: a [0x80] byte, zero bytes up to 56 modulo 64,
    then the bit length as a 64-bit big-endian number. *)
Definition be_bytes (count : nat) (x : Z) : list Z :=
  List.map (fun i => Z.shiftr x (8 * Z.of_nat (count - 1 - i)) mod 256) (seq 0 count).

Definition pad (msg : list Z) : list Z :=
  let len := Z.of_nat (length msg) in
  let zeros := Z.to_nat ((55 - len) mod 64) in
  msg ++ 128 :: repeat 0 zeros ++ be_bytes 8 (w32 (8 * len / 2 ^ 32) * 2 ^ 32 + w32 (8 * len)).

Fixpoint be_words (fuel : nat) (bytes : list Z) : list Z :=
  match fuel with
  | O => []
  | S fuel' =>
      match bytes with
      | a :: b :: c :: d :: rest =>
          (((a * 256 + b) * 256 + c) * 256 + d) :: be_words fuel' rest
      | _ => []
      end
  end.

(** The message schedule, newest word first. *)
Fixpoint schedule (steps : nat) (w : list Z) : list Z :=
  match steps with
  | O => w
  | S steps' =>
      let x := Z.lxor (Z.lxor (nth 2 w 0) (nth 7 w 0))
                      (Z.lxor (nth 13 w 0) (nth 15 w 0)) in
      schedule steps' (rotl 1 x :: w)
  end.

Definition state : Type := Z * Z * Z * Z * Z.

Definition round (t : nat) (wt : Z) (s : state) : state :=
  let '(a, b, c, d, e) := s in
  let '(f, k) :=
    if (t <? 20)%nat then
      (Z.lor (Z.land b c) (Z.land (Z.lxor b (2 ^ 32 - 1)) d), 1518500249)
    else if (t <? 40)%nat then
      (Z.lxor (Z.lxor b c) d, 1859775393)
    else if (t <? 60)%nat then
      (Z.lor (Z.lor (Z.land b c) (Z.land b d)) (Z.land c d), 2400959708)
    else
      (Z.lxor (Z.lxor b c) d, 3395469782) in
  (w32 (rotl 5 a + f + e + k + wt), a, rotl 30 b, c, d).

Fixpoint rounds (t : nat) (ws : list Z) (s : state) : state :=
  match ws with
  | [] => s
  | wt :: ws' => rounds (S t) ws' (round t wt s)
  end.

Definition compress (h : state) (block : list Z) : state :=
  let ws := rev (schedule 64 (rev (be_words 16 block))) in
  let '(h0, h1, h2, h3, h4) := h in
  let '(a, b, c, d, e) := rounds 0 ws h in
  (w32 (h0 + a), w32 (h1 + b), w32 (h2 + c), w32 (h3 + d), w32 (h4 + e)).

Fixpoint blocks (fuel : nat) (h : state) (bytes : list Z) : state :=
  match fuel with
  | O => h
  | S fuel' =>
      match bytes with
      | [] => h
      | _ => blocks fuel' (compress h (firstn 64 bytes)) (skipn 64 bytes)
      end
  end.

Definition init : state :=
  (1732584193, 4023233417, 2562383102, 271733878, 3285377520).

Definition digest (msg : list Byte.byte) : state :=
  let padded := pad (List.map byte_val msg) in
  blocks (length padded) init padded.

Definition hex_digit (x : Z) : ascii :=
  if x <? 10 then ascii_of_N (Z.to_N (48 + x)) else ascii_of_N (Z.to_N (87 + x)).

Fixpoint hex (digits : nat) (x : Z) : string :=
  match digits with
  | O => ""
  | S digits' =>
      String (hex_digit (Z.shiftr x (4 * Z.of_nat digits') mod 16)) (hex digits' x)
  end.

(** [hashlib.sha1(msg).hexdigest()] *)
Definition hexdigest (msg : list Byte.byte) : string :=
  let '(h0, h1, h2, h3, h4) := digest msg in
  hex 8 h0 +:+ hex 8 h1 +:+ hex 8 h2 +:+ hex 8 h3 +:+ hex 8 h4.

End Sha1.

(** ** Python [float]: IEEE 754 binary64

    Values are [spec_float]s and the operations are those of the
    standard library's executable specification at precision 53. *)

Module Float.

Import Str.

Definition prec : Z := 53.
Definition emax : Z := 1024.

Definition float : Type := spec_float.

Definition add : float -> float -> float := SFadd prec emax.
Definition sub : float -> float -> float := SFsub prec emax.

(** The float nearest to [m * 10 ^ k], ties to even, as a correctly
    rounded decimal conversion gives it. *)
Definition of_decimal (neg : bool) (m k : Z) : float :=
  match m with
  | Z0 => S754_zero neg
  | Zpos p =>
      if 0 <=? k then binary_round prec emax neg (Z.to_pos (m * 10 ^ k)) 0
      else SFdiv prec emax (S754_finite neg p 0)
                           (S754_finite false (Z.to_pos (10 ^ (- k))) 0)
  | Zneg _ => S754_nan
  end.

(** The literals [0.0] and [0.1]. *)
Definition zero : float := S754_zero false.
Definition tenth : float := of_decimal false 1 (-1).

(** A run of digits with single underscores between digits: the value
    read, the number of digits, and what is left. *)
Fixpoint scan_digits (acc cnt : Z) (s : string) : Z * Z * string :=
  match s with
  | EmptyString => (acc, cnt, s)
  | String c s' =>
      if isdigit c then scan_digits (10 * acc + digit_val c) (cnt + 1) s'
      else if Ascii.eqb c "_" && (0 <? cnt) then
        match s' with
        | String d _ => if isdigit d then scan_digits acc cnt s' else (acc, cnt, s)
        | EmptyString => (acc, cnt, s)
        end
      else (acc, cnt, s)
  end.

Definition split_sign (s : string) : bool * string :=
  match s with
  | String "-" r => (true, r)
  | String "+" r => (false, r)
  | _ => (false, s)
  end.

(** [float(s)] for a [str] *)
Definition of_str (s : string) : result float :=
  let '(neg, body) := split_sign (strip s) in
  let low := lowercase body in
  if String.eqb low "inf" || String.eqb low "infinity" then Ok (S754_infinity neg)
  else if String.eqb low "nan" then Ok S754_nan
  else
    let '(ip, ni, r1) := scan_digits 0 0 body in
    let '(fp, nf, r2) :=
      match r1 with
      | String "." r => scan_digits ip 0 r
      | _ => (ip, 0, r1)
      end in
    if ni + nf =? 0 then Raise ValueError
    else
      match r2 with
      | EmptyString => Ok (of_decimal neg fp (- nf))
      | String c r =>
          if Ascii.eqb (lower c) "e" then
            let '(eneg, ebody) := split_sign r in
            let '(ex, ne, r3) := scan_digits 0 0 ebody in
            if (ne =? 0) || negb (String.eqb r3 "") then Raise ValueError
            else Ok (of_decimal neg fp ((if eneg then - ex else ex) - nf))
          else Raise ValueError
      end.

(** [a / b] rounded to the nearest integer, ties to the even one
    ([0 < b], [0 <= a]). *)
Definition div_half_even (a b : Z) : Z :=
  let q := a / b in
  let r := a mod b in
  if 2 * r <? b then q
  else if b <? 2 * r then q + 1
  else if Z.even q then q else q + 1.

(** The number of tenths [f"{x:.1f}"] prints for a finite [x] of
    mantissa [m] and exponent [e]. *)
Definition tenths (m : positive) (e : Z) : Z :=
  if 0 <=? e then Zpos m * 10 * 2 ^ e
  else div_half_even (Zpos m * 10) (2 ^ (- e)).

(** [f"{x:.1f}"] *)
Definition format_1f (x : float) : string :=
  match x with
  | S754_nan => "nan"
  | S754_infinity s => if s then "-inf" else "inf"
  | S754_zero s => if s then "-0.0" else "0.0"
  | S754_finite s m e =>
      let t := tenths m e in
      (if s then "-" else "") +:+ of_Z (t / 10) +:+ "." +:+ of_Z (t mod 10)
  end.

End Float.

(** ** The world the script runs in *)

Module OS.

Definition bytes : Type := list Byte.byte.

(** The system calls of the script that may fail with [OSError].
    Paths under [.gitnot] are named by the tracked path they belong
    to. *)
Inductive op : Type :=
| OpenForHash (file_path : string)
| ReadForHash (file_path : string) (k : nat)
| WriteVersion (text : string)
| MakeDirs (path : string)
| OpenChangelog (rel_path : string) (attempt : nat)
| WriteChangelogBody (rel_path : string) (attempt : nat)
| ReadForDiff (rel_path : string)
| MoveToDeleted (rel_path : string)
| MakeTemp
| CopyToTemp (rel_path : string)
| RemoveSnapshot
| MoveTemp
| RemoveTemp
| SaveJson (path : string)
| CopyToSnapshot (rel_path : string).

(** What the environment decides: which calls fail, which files a
    failing [rmtree] leaves behind, and the wall clock. *)
Record env : Type := mkEnv {
  fails : op -> bool;
  survives : string -> bool;
  timestamp : string
}.

Definition calm (now : string) : env :=
  mkEnv (fun _ => false) (fun _ => true) now.

End OS.

(** ** The content hasher ([hash_file]) *)

Module Hasher.

Import Str OS.

(** [os.path.basename] *)
Definition basename (p : string) : string := List.last (split_on "/" p) "".

Definition chunk_size : nat := Z.to_nat 8192.

(** The pieces successive [f.read(8192)] calls return. *)
Fixpoint chunks (fuel : nat) (data : bytes) : list bytes :=
  match fuel with
  | O => []
  | S fuel' =>
      match data with
      | [] => []
      | _ => firstn chunk_size data :: chunks fuel' (skipn chunk_size data)
      end
  end.

Definition reads (data : bytes) : list bytes := chunks (length data) data.

(** The [for chunk in iter(lambda: f.read(8192), b"")] loop.  The
    hasher object is the message fed to it so far; [k] counts the
    calls of [read]. *)
Fixpoint feed (E : env) (file_path : string) (k : nat) (pending : list bytes)
    (hasher : bytes) : result bytes :=
  if fails E (ReadForHash file_path k) then Raise OSError
  else
    match pending with
    | [] => Ok hasher
    | chunk :: pending' => feed E file_path (S k) pending' (hasher ++ chunk)%list
    end.

Definition hash_file (E : env) (tree : gmap string bytes) (file_path : string) : string :=
  let attempt :=
    match tree !! file_path with
    | None => Raise OSError
    | Some data =>
        if fails E (OpenForHash file_path) then Raise OSError
        else feed E file_path 0 (reads data) []
    end in
  match attempt with
  | Ok message => Sha1.hexdigest message
  | Raise _ => "unreadable-" +:+ basename file_path
  end.

End Hasher.

(** ** The [.gitnot] store and the commands *)

Module Store.

Import Str OS.

(** *** Data *)

(** [config.json] once decoded: either key may be absent. *)
Record config : Type := mkConfig {
  extensions : option (list string);
  ignore_patterns : option (list string)
}.

Definition DEFAULT_CONFIG : config :=
  mkConfig
    (Some [".txt"; ".md"; ".csv"; ".log"; ".py"; ".js"; ".sh";
           ".html"; ".css"; ".c"; ".java"; ".json"; ".yaml";
           ".yml"; ".ini"; ".toml"; ".xml"; ".rtf"])
    (Some ["*.tmp"; "*.bak"]).

(** A JSON file on disk: not there, there but not decodable, or
    holding a value. *)
Inductive stored (A : Type) : Type :=
| Missing
| Corrupt
| Holds (a : A).

Arguments Missing {A}.
Arguments Corrupt {A}.
Arguments Holds {A} a.

(** The branch a path takes in the loops of [update_gitnot]. *)
Inductive change : Set := Added | Modified | Deleted.

(** What the commands print (the text of a caught exception is not
    kept). *)
Inductive message : Type :=
| NotInitialized
| WarnVersion
| WarnSave (path : string)
| WarnChangelog (rel_path : string)
| WarnMoveDeleted (rel_path : string)
| WarnChangelogDeleted (rel_path : string)
| NoChanges
| WarnSnapshot
| SnapshotMissing
| VersionBumped (version : string)
| FilesTracked (count : nat)
| Failed (e : exn)
| WarnProcess (rel_path : string)
| Initialized
| Tracking (count : nat)
| StatusNew (count : nat) (first : list string)
| StatusModified (count : nat) (first : list string)
| StatusDeleted (count : nat) (first : list string)
| StatusMore (count : nat)
| CurrentVersion (version : string).

Record world : Type := mkWorld {
  (** regular files below the root, outside [.gitnot] *)
  tree : gmap string bytes;
  (** does [.gitnot] exist *)
  gitnot_dir : bool;
  config_json : stored config;
  (** [.gitnot/snapshot], by relative path; [None] when the directory
      is missing *)
  snapshot : option (gmap string bytes);
  (** [.gitnot/deleted] *)
  deleted : gmap string bytes;
  (** [.gitnot/changelogs/<rel_path>.log], by [rel_path] *)
  changelogs : gmap string string;
  hashes_json : stored (gmap string string);
  version_txt : option string;
  (** the directory made by [mkdtemp], while it exists *)
  temp : option (gmap string bytes);
  stdout : list message;
  (** not part of the store: the branch taken for each path in the
      loops of [update_gitnot], in order *)
  journal : list (string * change)
}.

Definition GITNOT_DIR : string := ".gitnot".
Definition SNAPSHOT_DIR : string := ".gitnot/snapshot".
Definition CHANGELOG_DIR : string := ".gitnot/changelogs".
Definition DELETED_DIR : string := ".gitnot/deleted".
Definition HASHES_FILE : string := ".gitnot/hashes.json".
Definition VERSION_FILE : string := ".gitnot/version.txt".
Definition CONFIG_FILE : string := ".gitnot/config.json".

Definition set_gitnot_dir (b : bool) (w : world) : world :=
  mkWorld (tree w) b (config_json w) (snapshot w) (deleted w) (changelogs w)
    (hashes_json w) (version_txt w) (temp w) (stdout w) (journal w).
Definition set_config_json (c : stored config) (w : world) : world :=
  mkWorld (tree w) (gitnot_dir w) c (snapshot w) (deleted w) (changelogs w)
    (hashes_json w) (version_txt w) (temp w) (stdout w) (journal w).
Definition set_snapshot (s : option (gmap string bytes)) (w : world) : world :=
  mkWorld (tree w) (gitnot_dir w) (config_json w) s (deleted w) (changelogs w)
    (hashes_json w) (version_txt w) (temp w) (stdout w) (journal w).
Definition set_deleted (d : gmap string bytes) (w : world) : world :=
  mkWorld (tree w) (gitnot_dir w) (config_json w) (snapshot w) d (changelogs w)
    (hashes_json w) (version_txt w) (temp w) (stdout w) (journal w).
Definition set_changelogs (c : gmap string string) (w : world) : world :=
  mkWorld (tree w) (gitnot_dir w) (config_json w) (snapshot w) (deleted w) c
    (hashes_json w) (version_txt w) (temp w) (stdout w) (journal w).
Definition set_hashes_json (h : stored (gmap string string)) (w : world) : world :=
  mkWorld (tree w) (gitnot_dir w) (config_json w) (snapshot w) (deleted w) (changelogs w)
    h (version_txt w) (temp w) (stdout w) (journal w).
Definition set_version_txt (v : option string) (w : world) : world :=
  mkWorld (tree w) (gitnot_dir w) (config_json w) (snapshot w) (deleted w) (changelogs w)
    (hashes_json w) v (temp w) (stdout w) (journal w).
Definition set_temp (t : option (gmap string bytes)) (w : world) : world :=
  mkWorld (tree w) (gitnot_dir w) (config_json w) (snapshot w) (deleted w) (changelogs w)
    (hashes_json w) (version_txt w) t (stdout w) (journal w).
Definition set_stdout (o : list message) (w : world) : world :=
  mkWorld (tree w) (gitnot_dir w) (config_json w) (snapshot w) (deleted w) (changelogs w)
    (hashes_json w) (version_txt w) (temp w) o (journal w).
Definition set_journal (j : list (string * change)) (w : world) : world :=
  mkWorld (tree w) (gitnot_dir w) (config_json w) (snapshot w) (deleted w) (changelogs w)
    (hashes_json w) (version_txt w) (temp w) (stdout w) j.

(** *** A state monad with exceptions

    The world a computation leaves behind is kept when it raises:
    what was written before the exception stays written. *)

Definition M (A : Type) : Type := world -> result A * world.

Definition ret {A : Type} (a : A) : M A := fun w => (Ok a, w).

Definition raise {A : Type} (e : exn) : M A := fun w => (Raise e, w).

Definition mbind {A B : Type} (m : M A) (k : A -> M B) : M B :=
  fun w =>
    match m w with
    | (Ok a, w') => k a w'
    | (Raise e, w') => (Raise e, w')
    end.

Notation "'run' x <- m ; k" := (mbind m (fun x => k))
  (at level 10, x name, m at level 100, k at level 200).
Notation "'step' m ; k" := (mbind m (fun _ => k))
  (at level 10, m at level 100, k at level 200).

Definition gets {A : Type} (f : world -> A) : M A := fun w => (Ok (f w), w).

Definition modify (f : world -> world) : M unit := fun w => (Ok tt, f w).

(** [try: m  except OSError: handler] *)
Definition try_os {A : Type} (m : M A) (handler : M A) : M A :=
  fun w =>
    match m w with
    | (Raise OSError, w') => handler w'
    | r => r
    end.

Definition lift {A : Type} (r : result A) : M A := fun w => (r, w).

Definition print (msg : message) : M unit :=
  modify (fun w => set_stdout (stdout w ++ [msg]) w).

Definition note (rel_path : string) (c : change) : M unit :=
  modify (fun w => set_journal (journal w ++ [(rel_path, c)]) w).

(** A [for] loop whose body updates one local variable. *)
Fixpoint for_fold {A B : Type} (l : list A) (acc : B) (body : B -> A -> M B) : M B :=
  match l with
  | [] => ret acc
  | x :: l' => run acc' <- body acc x; for_fold l' acc' body
  end.

(** Iteration order of a [dict]. *)
Definition items {V : Type} (d : gmap string V) : list (string * V) := map_to_list d.
Definition keys {V : Type} (d : gmap string V) : list string := (map_to_list d).*1.

(** *** The delta lists of [show_status] *)

Definition new_files (old_hashes current_hashes : gmap string string) : list string :=
  List.filter (fun f => bool_decide (old_hashes !! f = None)) (keys current_hashes).

Definition changed_files (old_hashes current_hashes : gmap string string) : list string :=
  List.filter
    (fun f =>
       match old_hashes !! f with
       | Some h => negb (bool_decide (Some h = current_hashes !! f))
       | None => false
       end)
    (keys current_hashes).

Definition deleted_files (old_hashes current_hashes : gmap string string) : list string :=
  List.filter (fun f => bool_decide (current_hashes !! f = None)) (keys old_hashes).

(** The script has no list for the remaining paths; this one names
    them: present on both sides with equal digests. *)
Definition unchanged_files (old_hashes current_hashes : gmap string string) : list string :=
  List.filter
    (fun f =>
       match old_hashes !! f with
       | Some h => bool_decide (Some h = current_hashes !! f)
       | None => false
       end)
    (keys current_hashes).

(** *** The commands *)

Section Commands.

(** Library code the script calls: [PurePath.match],
    [difflib.unified_diff] (with the script's keyword arguments) and
    the decoding of a text file into its lines. *)
Variable path_match : Ignore.path -> string -> bool.
Variable unified_diff : list string -> list string -> list string.
Variable readlines : bytes -> list string.

Variable E : env.

(** [load_json]: an absent or undecodable file reads as [{}]. *)
Definition load_json {A : Type} (empty : A) (file : stored A) : A :=
  match file with
  | Holds a => a
  | Missing | Corrupt => empty
  end.

Definition load_config (w : world) : config :=
  match config_json w with
  | Missing => DEFAULT_CONFIG
  | file => load_json (mkConfig None None) file
  end.

(** The text from the last dot of [s] on, if [s] has a dot. *)
Fixpoint from_last_dot (s : string) : option string :=
  match s with
  | EmptyString => None
  | String c s' =>
      match from_last_dot s' with
      | Some r => Some r
      | None => if Ascii.eqb c "." then Some s else None
      end
  end.

(** [Path(...).suffix], from the name of the file *)
Definition suffix (name : string) : string :=
  match from_last_dot (tail name) with
  | Some r => if (String.length r =? 1)%nat then "" else r
  | None => ""
  end.

Definition get_all_text_files (w : world) : result (list string) :=
  let config := load_config w in
  match extensions config with
  | None => Raise KeyError
  | Some text_extensions =>
      let ignore := default [] (ignore_patterns config) in
      Ok (List.filter
            (fun f =>
               existsb (String.eqb (lowercase (suffix (Ignore.name (Ignore.of_str f)))))
                 text_extensions
               && negb (startswith GITNOT_DIR f)
               && negb (Ignore.should_ignore_file path_match (Ignore.of_str f) ignore))
            (keys (tree w)))
  end.

Definition current_hashes_of (w : world) (current_files : list string)
  : gmap string string :=
  list_to_map (List.map (fun f => (f, Hasher.hash_file E (tree w) f)) current_files).

(** [safe_makedirs]; at every call site the path has a directory
    part. *)
Definition safe_makedirs (path : string) : M unit :=
  if fails E (MakeDirs path) then raise OSError else ret tt.

Definition changelog_path (rel_path : string) : string :=
  CHANGELOG_DIR +:+ "/" +:+ rel_path +:+ ".log".

(** [float(f.read().strip())], with [0.0] when that raises. *)
Definition version_of_text (text : string) : Float.float :=
  match Float.of_str (strip text) with
  | Ok v => v
  | Raise _ => Float.zero
  end.

Definition read_version (w : world) : Float.float :=
  match version_txt w with
  | Some text => version_of_text text
  | None => Float.zero
  end.

Definition write_version (version : Float.float) : M unit :=
  let text := Float.format_1f version in
  if fails E (WriteVersion text) then print WarnVersion
  else modify (fun w => set_version_txt (Some text) (set_gitnot_dir true w)).

Definition bump_version : M Float.float :=
  run current <- gets read_version;
  let version := Float.add current Float.tenth in
  step write_version version;
  ret version.

Definition save_hashes (data : gmap string string) : M unit :=
  if fails E (MakeDirs HASHES_FILE) || fails E (SaveJson HASHES_FILE)
  then print (WarnSave HASHES_FILE)
  else modify (set_hashes_json (Holds data)).

Definition save_config (data : config) : M unit :=
  if fails E (MakeDirs CONFIG_FILE) || fails E (SaveJson CONFIG_FILE)
  then print (WarnSave CONFIG_FILE)
  else modify (set_config_json (Holds data)).

(** [f.write(text)] on a changelog opened for appending *)
Definition append_text (rel_path text : string) : M unit :=
  modify (fun w =>
    set_changelogs
      (<[rel_path := default "" (changelogs w !! rel_path) +:+ text]> (changelogs w)) w).

(** [with open(changelog_path, 'a') as f: f.write(first); f.write(second)],
    where [second] is computed after the first write. *)
Definition append_entry (rel_path : string) (attempt : nat)
    (first : string) (second : result string) : M unit :=
  if fails E (OpenChangelog rel_path attempt) then raise OSError
  else
    step append_text rel_path first;
    run text <- lift second;
    if fails E (WriteChangelogBody rel_path attempt) then raise OSError
    else append_text rel_path text.

Definition header (version : Float.float) : string :=
  Diff.nl +:+ "## v" +:+ Float.format_1f version +:+ " – " +:+ timestamp E +:+ Diff.nl.

(** The body of the branch for a modified file whose snapshot copy
    exists. *)
Definition log_modified (version : Float.float) (rel_path : string) (old_data : bytes)
  : M unit :=
  try_os
    (run work <- gets tree;
     run diff <-
       (if fails E (ReadForDiff rel_path) then raise OSError
        else match work !! rel_path with
             | Some new_data => ret (unified_diff (readlines old_data) (readlines new_data))
             | None => raise OSError
             end);
     step safe_makedirs (changelog_path rel_path);
     append_entry rel_path 0 (header version)
       (match diff with
        | [] => Ok ("📄 File changed (no readable diff)" +:+ Diff.nl)
        | _ => do text <- Diff.format_diff_as_markdown diff; Ok (text +:+ Diff.nl)
        end))
    (step safe_makedirs (changelog_path rel_path);
     try_os
       (append_entry rel_path 1 (header version)
          (Ok ("📄 File changed (encoding issues, diff skipped)" +:+ Diff.nl)))
       (print (WarnChangelog rel_path))).

(** The body of [for rel_path, new_hash in current_hashes.items()];
    the local it updates is [changes_made]. *)
Definition new_or_modified (old_hashes : gmap string string) (version : Float.float)
    (changes_made : bool) (item : string * string) : M bool :=
  let '(rel_path, new_hash) := item in
  match old_hashes !! rel_path with
  | None =>
      step note rel_path Added;
      step safe_makedirs (changelog_path rel_path);
      step try_os
             (append_entry rel_path 0 (header version)
                (Ok ("📄 New file added." +:+ Diff.nl)))
             (print (WarnChangelog rel_path));
      ret true
  | Some old_hash =>
      if negb (String.eqb old_hash new_hash) then
        step note rel_path Modified;
        run snap <- gets snapshot;
        step (match snap ≫= (fun files => files !! rel_path) with
              | Some old_data => log_modified version rel_path old_data
              | None => ret tt
              end);
        ret true
      else ret changes_made
  end.

(** The body of [for rel_path in old_hashes]. *)
Definition gone (current_hashes : gmap string string) (version : Float.float)
    (changes_made : bool) (rel_path : string) : M bool :=
  match current_hashes !! rel_path with
  | Some _ => ret changes_made
  | None =>
      step note rel_path Deleted;
      run snap <- gets snapshot;
      step (match snap ≫= (fun files => files !! rel_path) with
            | Some data =>
                step safe_makedirs (DELETED_DIR +:+ "/" +:+ rel_path);
                try_os
                  (if fails E (MoveToDeleted rel_path) then raise OSError
                   else modify (fun w =>
                          set_deleted (<[rel_path := data]> (deleted w))
                            (set_snapshot (delete rel_path <$> snapshot w) w)))
                  (print (WarnMoveDeleted rel_path))
            | None => ret tt
            end);
      step safe_makedirs (changelog_path rel_path);
      step try_os
             (append_entry rel_path 0 (header version)
                (Ok ("🔻 File was deleted." +:+ Diff.nl)))
             (print (WarnChangelogDeleted rel_path));
      ret true
  end.

(** [safe_makedirs(target_path); shutil.copy2(file, target_path)],
    as one call that may fail. *)
Definition copy_to_temp (rel_path : string) : M unit :=
  run work <- gets tree;
  match work !! rel_path with
  | Some data =>
      if fails E (CopyToTemp rel_path) then raise OSError
      else modify (fun w => set_temp (insert rel_path data <$> temp w) w)
  | None => raise OSError
  end.

(** "Safely replace snapshot directory", once the directory is known
    to exist. *)
Definition replace_snapshot (current_files : list string) : M unit :=
  step (if fails E MakeTemp then raise OSError else modify (set_temp (Some ∅)));
  try_os
    (step for_fold current_files tt (fun _ rel_path => copy_to_temp rel_path);
     step (if fails E RemoveSnapshot then
             step modify (fun w =>
                    set_snapshot
                      (filter (fun kv => Is_true (survives E kv.1)) <$> snapshot w) w);
             raise OSError
           else modify (set_snapshot None));
     if fails E MoveTemp then raise OSError
     else modify (fun w => set_snapshot (temp w) (set_temp None w)))
    (step print WarnSnapshot;
     run t <- gets temp;
     match t with
     | Some _ => if fails E RemoveTemp then raise OSError else modify (set_temp None)
     | None => ret tt
     end).

(** [update_gitnot] from the version bump on, once [old_hashes],
    [current_files] and [current_hashes] are known. *)
Definition record_changes (old_hashes : gmap string string) (current_files : list string)
    (current_hashes : gmap string string) : M unit :=
  run version <- bump_version;
  run changed <- for_fold (items current_hashes) false
                   (new_or_modified old_hashes version);
  run changes_made <- for_fold (keys old_hashes) changed
                        (gone current_hashes version);
  if negb changes_made then
    step write_version (Float.sub version Float.tenth);
    print NoChanges
  else
    run snap <- gets snapshot;
    match snap with
    | Some _ =>
        step replace_snapshot current_files;
        step save_hashes current_hashes;
        step print (VersionBumped (Float.format_1f version));
        print (FilesTracked (length current_files))
    | None => print SnapshotMissing
    end.

Definition update_body : M unit :=
  run initialised <- gets gitnot_dir;
  if negb initialised then print NotInitialized
  else
    run old_hashes <- gets (fun w => load_json ∅ (hashes_json w));
    run current_files <- (fun w => (get_all_text_files w, w));
    run current_hashes <- gets (fun w => current_hashes_of w current_files);
    record_changes old_hashes current_files current_hashes.

(** The outer [try] of a command: whatever escapes is printed. *)
Definition guarded (body : M unit) (w : world) : world :=
  match body w with
  | (Ok _, w') => w'
  | (Raise e, w') => set_stdout (stdout w' ++ [Failed e]) w'
  end.

Definition update_gitnot : world -> world := guarded update_body.

Definition report (label : nat -> list string -> message) (l : list string) : M unit :=
  match l with
  | [] => ret tt
  | _ =>
      step print (label (length l) (firstn 3 l));
      if (3 <? length l)%nat then print (StatusMore (length l - 3)) else ret tt
  end.

Definition status_body : M unit :=
  run old_hashes <- gets (fun w => load_json ∅ (hashes_json w));
  run current_files <- (fun w => (get_all_text_files w, w));
  run current_hashes <- gets (fun w => current_hashes_of w current_files);
  let new := new_files old_hashes current_hashes in
  let changed := changed_files old_hashes current_hashes in
  let deleted := deleted_files old_hashes current_hashes in
  match new, changed, deleted with
  | [], [], [] => print NoChanges
  | _, _, _ =>
      step report StatusNew new;
      step report StatusModified changed;
      report StatusDeleted deleted
  end.

Definition show_status (w : world) : world :=
  if negb (gitnot_dir w) then set_stdout (stdout w ++ [NotInitialized]) w
  else guarded status_body w.

(** [with open(changelog_path, 'w') as f: f.write(text)] *)
Definition write_changelog (rel_path text : string) : M unit :=
  if fails E (OpenChangelog rel_path 0) then raise OSError
  else
    step modify (fun w => set_changelogs (<[rel_path := ""]> (changelogs w)) w);
    if fails E (WriteChangelogBody rel_path 0) then raise OSError
    else modify (fun w => set_changelogs (<[rel_path := text]> (changelogs w)) w).

(** The body of [for file in files] in [init_gitnot]; the local it
    updates is [hashes]. *)
Definition seed (hashes : gmap string string) (rel_path : string)
  : M (gmap string string) :=
  step safe_makedirs (SNAPSHOT_DIR +:+ "/" +:+ rel_path);
  run copied <-
    try_os
      (run work <- gets tree;
       match work !! rel_path with
       | Some data =>
           if fails E (CopyToSnapshot rel_path) then raise OSError
           else
             step modify (fun w =>
                    set_snapshot (insert rel_path data <$> snapshot w) w);
             ret true
       | None => raise OSError
       end)
      (step print (WarnProcess rel_path); ret false);
  if copied then
    run digest <- gets (fun w => Hasher.hash_file E (tree w) rel_path);
    step try_os
           (step safe_makedirs (changelog_path rel_path);
            write_changelog rel_path
              ("# " +:+ rel_path +:+ " — original v0.1" +:+ Diff.nl))
           (print (WarnProcess rel_path));
    ret (<[rel_path := digest]> hashes)
  else ret hashes.

Definition init_body : M unit :=
  step (if fails E (MakeDirs SNAPSHOT_DIR) then raise OSError
        else modify (fun w =>
               set_gitnot_dir true (set_snapshot (Some (default ∅ (snapshot w))) w)));
  step (if fails E (MakeDirs CHANGELOG_DIR) then raise OSError else ret tt);
  step (if fails E (MakeDirs DELETED_DIR) then raise OSError else ret tt);
  step save_config DEFAULT_CONFIG;
  run files <- (fun w => (get_all_text_files w, w));
  run hashes <- for_fold files ∅ seed;
  step save_hashes hashes;
  step write_version Float.tenth;
  step print Initialized;
  print (Tracking (size hashes)).

Definition init_gitnot : world -> world := guarded init_body.

Definition show_version (w : world) : world :=
  set_stdout (stdout w ++ [CurrentVersion (Float.format_1f (read_version w))]) w.

End Commands.

End Store.

(** ** Vocabulary for the properties of the commands *)

Module Laws.

Import Store.

(** [m] moves every world to one related to it by [R], whether it
    returns or raises. *)
Definition preserves (R : world -> world -> Prop) {A : Type} (m : M A) : Prop :=
  forall w, R w (m w).2.

(** [m] never raises. *)
Definition returns {A : Type} (m : M A) : Prop :=
  forall w, exists a, (m w).1 = Ok a.

(** Whatever [m] raises is an [OSError]. *)
Definition raises_only_os {A : Type} (m : M A) : Prop :=
  forall w e, (m w).1 = Raise e -> e = OSError.

(** Every changelog of [w] is still there in [w'], with its text as a
    prefix of the new text. *)
Definition grows (w w' : world) : Prop :=
  forall rel_path text,
    changelogs w !! rel_path = Some text ->
    exists more, changelogs w' !! rel_path = Some (text +:+ more).

(** The journal entries the two loops of [update_gitnot] write for one
    item. *)
Definition first_trace (old_hashes : gmap string string) (item : string * string)
  : list (string * change) :=
  match old_hashes !! item.1 with
  | None => [(item.1, Added)]
  | Some old_hash =>
      if negb (String.eqb old_hash item.2) then [(item.1, Modified)] else []
  end.

Definition second_trace (current_hashes : gmap string string) (rel_path : string)
  : list (string * change) :=
  match current_hashes !! rel_path with
  | Some _ => []
  | None => [(rel_path, Deleted)]
  end.

(** The journal is left as it was. *)
Definition same_journal (w w' : world) : Prop := journal w' = journal w.

(** What [report] prints for one list, and what [show_status] prints
    for the three. *)
Definition report_lines (label : nat -> list string -> message) (l : list string)
  : list message :=
  match l with
  | [] => []
  | _ => label (length l) (firstn 3 l)
         :: (if (3 <? length l)%nat then [StatusMore (length l - 3)] else [])
  end.

Definition status_lines (new changed deleted : list string) : list message :=
  match new, changed, deleted with
  | [], [], [] => [NoChanges]
  | _, _, _ =>
      report_lines StatusNew new ++ report_lines StatusModified changed
      ++ report_lines StatusDeleted deleted
  end.


(** The text [write_version] writes for a version of [n] tenths. *)
Definition one_decimal (n : N) : string :=
  Str.of_N (n / 10) +:+ "." +:+ Str.of_N (n mod 10).

(** What [version.txt] holds after a bump and its rollback, from what
    it held before. *)
Definition rolled_back (text : string) : string :=
  Float.format_1f
    (Float.sub (Float.add (version_of_text text) Float.tenth) Float.tenth).

Definition round_trips (n : N) : bool :=
  String.eqb (rolled_back (one_decimal n)) (one_decimal n).

(** [p] holds for the [count] numbers from [first] on. *)
Fixpoint all_from (p : N -> bool) (first : N) (count : nat) : bool :=
  match count with
  | O => true
  | S count' => p first && all_from p (N.succ first) count'
  end.

(** The versions for which the rollback is checked by computation:
    [0.0] to [999.9]. *)
Definition checked_tenths : nat := 10000.

End Laws.

(** ** Concrete worlds used as examples *)

Module Scenarios.

Import OS Store.

(** A directory that was initialised and committed once before: the
    changelog of [a.txt] has a [v0.2] entry. *)
Definition seen_before : world :=
  mkWorld {[ "a.txt" := Byte.x68 :: Byte.x69 :: [] ]} true Missing (Some ∅) ∅
    {[ "a.txt" := "# a.txt — original v0.1" +:+ Diff.nl
                  +:+ Diff.nl +:+ "## v0.2 – 2026-01-01 10:00" +:+ Diff.nl
                  +:+ "📄 File changed (no readable diff)" +:+ Diff.nl ]}
    Missing (Some "0.2") None [] [].

Definition text (s : string) : bytes := list_byte_of_string s.

(** After a first commit of [a.txt] and [src/b.py]: [a.txt] was edited
    since, [n.md] is new and [src/b.py] is gone. *)
Definition edited : world :=
  mkWorld
    {[ "a.txt" := text "hello world"; "n.md" := text "x" ]}
    true
    (Holds DEFAULT_CONFIG)
    (Some {[ "a.txt" := text "hello"; "src/b.py" := text "x" ]})
    ∅
    {[ "a.txt" := "# a.txt — original v0.1" +:+ Diff.nl;
       "src/b.py" := "# src/b.py — original v0.1" +:+ Diff.nl ]}
    (Holds {[ "a.txt" := "aaf4c61ddcc5e8a2dabede0f3b482cd9aea9434d";
              "src/b.py" := "11f6ad8ec52a2984abaafd7c3b516503785c2072" ]})
    (Some "0.1") None [] [].


(** An environment in which copying [n.md] into the temporary
    directory fails, and one in which moving the temporary directory
    into place fails. *)
Definition copy_fails : env :=
  mkEnv (fun o => match o with
                  | CopyToTemp rel_path => String.eqb rel_path "n.md"
                  | _ => false
                  end)
        (fun _ => true) "2026-01-02 10:00".

Definition move_fails : env :=
  mkEnv (fun o => match o with
                  | MoveTemp => true
                  | _ => false
                  end)
        (fun _ => true) "2026-01-02 10:00".

(** The hash index a successful commit of [edited] writes. *)
Definition edited_hashes : gmap string string :=
  {[ "a.txt" := "2aae6c35c94fcfb415dbe95f408b9ce91ee846ed";
     "n.md" := "11f6ad8ec52a2984abaafd7c3b516503785c2072" ]}.

(** A directory in which nothing changed since the last commit, with a
    given text in [version.txt]. *)
Definition settled (version : string) : world :=
  mkWorld
    {[ "a.txt" := text "hello" ]}
    true
    (Holds DEFAULT_CONFIG)
    (Some {[ "a.txt" := text "hello" ]})
    ∅
    {[ "a.txt" := "# a.txt — original v0.1" +:+ Diff.nl ]}
    (Holds {[ "a.txt" := "aaf4c61ddcc5e8a2dabede0f3b482cd9aea9434d" ]})
    (Some version) None [] [].

End Scenarios.

(** ** The entry point, and vocabulary for what the commands do *)

Module Cli.

Import Store.

(** What the entry point prints itself: the text of [show_help] and
    the unknown-command line. *)
Inductive notice : Set := HelpText | UnknownCommand.

Section Main.

Variable path_match : Ignore.path -> string -> bool.
Variable unified_diff : list string -> list string -> list string.
Variable readlines : OS.bytes -> list string.
Variable E : OS.env.

(** The [if __name__ == "__main__"] block, for [sys.argv = argv]: the
    world the chosen command leaves and what the block printed
    itself. *)
Definition main (argv : list string) (w : world) : result (world * option notice) :=
  match argv with
  | [_] => Ok (update_gitnot path_match unified_diff readlines E w, None)
  | _ =>
      do arg <- Str.index argv 1;
      if String.eqb arg "--init" then Ok (init_gitnot path_match E w, None)
      else if String.eqb arg "--show" then Ok (show_version w, None)
      else if String.eqb arg "--status" then Ok (show_status path_match E w, None)
      else if existsb (String.eqb arg) ["--help"; "-h"] then Ok (w, Some HelpText)
      else Ok (w, Some UnknownCommand)
  end.

End Main.

End Cli.

Module Effects.

Import Store.

(** [w'] is [w] with more lines printed, and nothing else changed. *)
Definition only_prints (w w' : world) : Prop :=
  exists out, w' = set_stdout (stdout w ++ out)%list w.

(** [w'] has the output of [w] and what was printed since. *)
Definition prints_more (w w' : world) : Prop :=
  exists out, stdout w' = (stdout w ++ out)%list.

(** The part [f] of the world is as it was. *)
Definition keeps {A : Type} (f : world -> A) (w w' : world) : Prop := f w' = f w.

(** The directory [into] after the files of the list were copied into
    it from [work], one after the other. *)
Fixpoint copied (work : gmap string OS.bytes) (files : list string)
    (into : gmap string OS.bytes) : gmap string OS.bytes :=
  match files with
  | [] => into
  | rel_path :: rest =>
      copied work rest
        (match work !! rel_path with
         | Some data => <[rel_path := data]> into
         | None => into
         end)
  end.

(** What the two changelog loops of a commit have no code to write. *)
Definition outside_logs (w : world) :=
  (tree w, gitnot_dir w, config_json w, hashes_json w, version_txt w, temp w).

Definition has_snapshot (w : world) : bool :=
  match snapshot w with
  | Some _ => true
  | None => false
  end.

(** What [version.txt] holds after a bump, from what it held before,
    and the check that this is the next tenth. *)
Definition bumped (text : string) : string :=
  Float.format_1f (Float.add (version_of_text text) Float.tenth).

Definition bumps (n : N) : bool :=
  String.eqb (bumped (Laws.one_decimal n)) (Laws.one_decimal (n + 1)).

(** Reading [version.txt] and printing the version gives the text
    back. *)
Definition shows (n : N) : bool :=
  String.eqb (Float.format_1f (version_of_text (Laws.one_decimal n))) (Laws.one_decimal n).

(** The float that the text printed for [v] denotes: for a finite
    [v], the float nearest to its number of tenths over ten. *)
Definition reread (v : Float.float) : Float.float :=
  match v with
  | SpecFloat.S754_finite s m e => Float.of_decimal s (Float.tenths m e) (-1)
  | _ => v
  end.

(** Where the entries of the two lists come from. *)
Definition from_signed_line (sign triple : string) (lines : list string) (e : string) : Prop :=
  exists line k,
    In line lines /\ Str.startswith sign line = true /\ Str.startswith triple line = false
    /\ e = Diff.entry k line.

(** [m] returns a value with [P], when it returns. *)
Definition yields {A : Type} (P : A -> Prop) (m : M A) : Prop :=
  forall w a w', m w = (Ok a, w') -> P a.

End Effects.

Module Examples.

Import Store.

(** A directory that gitnot has not seen yet. *)
Definition fresh : world :=
  mkWorld
    {[ "a.txt" := Scenarios.text "hello";
       "src/b.py" := Scenarios.text "x";
       "old/c.bak" := Scenarios.text "y" ]}
    false Missing None ∅ ∅ Missing None None [] [].

(** An initialised directory whose file names try the scan: an
    upper-case extension, a name that starts like the store folder,
    a file without extension and a file the default patterns ignore. *)
Definition mixed_names : world :=
  mkWorld
    {[ "NOTES.TXT" := Scenarios.text "a";
       ".gitnotes.md" := Scenarios.text "b";
       "Makefile" := Scenarios.text "c";
       "build/out.tmp" := Scenarios.text "d" ]}
    true (Holds DEFAULT_CONFIG) (Some ∅) ∅ ∅ Missing None None [] [].

End Examples.

(** * Properties *)

Local Open Scope list_scope.

(** ** Strings *)

Module StrFacts.

Import Str.

Lemma append_cons (x : ascii) (a b : string) : String x a +:+ b = String x (a +:+ b).
Proof. reflexivity. Qed.

Lemma append_nil (b : string) : "" +:+ b = b.
Proof. reflexivity. Qed.

Lemma append_assoc (a b c : string) : (a +:+ b) +:+ c = a +:+ (b +:+ c).
Proof.
  induction a as [|x a IH]; [reflexivity|].
  rewrite !append_cons, IH. reflexivity.
Qed.

Lemma append_empty_r (a : string) : a +:+ "" = a.
Proof.
  induction a as [|x a IH]; [reflexivity|].
  rewrite append_cons, IH. reflexivity.
Qed.

Lemma all_append (p : ascii -> bool) (a b : string) :
  all p (a +:+ b) = all p a && all p b.
Proof.
  induction a as [|x a IH]; [reflexivity|].
  rewrite append_cons. cbn [all]. rewrite IH, andb_assoc. reflexivity.
Qed.

Lemma all_impl (p q : ascii -> bool) (s : string) :
  (forall c, p c = true -> q c = true) -> all p s = true -> all q s = true.
Proof.
  intros Hpq. induction s as [|c s IH]; simpl; [reflexivity|].
  intros H. apply andb_true_iff in H as [Hc Hs]. now rewrite (Hpq c Hc), IH.
Qed.

(** What a decimal digit is not. *)
Lemma isdigit_plain (c : ascii) :
  isdigit c = true ->
  isspace c = false /\ Ascii.eqb c "," = false /\ Ascii.eqb c "_" = false
  /\ Ascii.eqb c "-" = false /\ Ascii.eqb c "+" = false.
Proof.
  destruct c as [[] [] [] [] [] [] [] []]; intros H; try discriminate H;
    repeat split; reflexivity.
Qed.

Lemma digit_char (d : N) :
  (d < 10)%N ->
  isdigit (ascii_of_N (48 + d)) = true /\ digit_val (ascii_of_N (48 + d)) = Z.of_N d.
Proof.
  intros H.
  assert (Hd : (d = 0 \/ d = 1 \/ d = 2 \/ d = 3 \/ d = 4 \/ d = 5 \/ d = 6
                \/ d = 7 \/ d = 8 \/ d = 9)%N) by lia.
  repeat (destruct Hd as [-> | Hd]; [split; reflexivity | idtac]).
  subst d. split; reflexivity.
Qed.

Lemma digits_of_append (fuel : nat) :
  forall (n : N) (rest : string), digits_of fuel n rest = digits_of fuel n "" +:+ rest.
Proof.
  induction fuel as [|fuel IH]; intros n rest; cbn [digits_of]; [reflexivity|].
  destruct (n / 10 =? 0)%N; [reflexivity|].
  rewrite IH, (IH _ (String _ "")), append_assoc. reflexivity.
Qed.

Lemma digits_of_all (fuel : nat) :
  forall (n : N) (rest : string),
    all isdigit rest = true -> all isdigit (digits_of fuel n rest) = true.
Proof.
  induction fuel as [|fuel IH]; intros n rest Hrest; cbn [digits_of].
  - cbn [all]. rewrite Hrest, (proj1 (digit_char (n mod 10) ltac:(apply N.mod_lt; lia))).
    reflexivity.
  - assert (Hone : all isdigit (String (ascii_of_N (48 + n mod 10)) rest) = true).
    { cbn [all]. rewrite Hrest, (proj1 (digit_char (n mod 10) ltac:(apply N.mod_lt; lia))).
      reflexivity. }
    destruct (n / 10 =? 0)%N; [exact Hone | now apply IH].
Qed.


Lemma of_N_fuel (n : N) : (n < 10 ^ N.of_nat (S (N.to_nat (N.log2 n))))%N.
Proof.
  replace (N.of_nat (S (N.to_nat (N.log2 n)))) with (N.succ (N.log2 n)) by lia.
  destruct (N.eq_dec n 0%N) as [->|Hn]; [reflexivity|].
  apply N.lt_le_trans with (2 ^ N.succ (N.log2 n))%N.
  - apply N.log2_spec. lia.
  - apply N.pow_le_mono_l. lia.
Qed.


Lemma of_N_digits (n : N) : all isdigit (of_N n) = true.
Proof. apply digits_of_all. reflexivity. Qed.

Lemma of_N_cons (n : N) : exists c s, of_N n = String c s /\ isdigit c = true.
Proof.
  pose proof (of_N_digits n) as H.
  destruct (of_N n) as [|c s] eqn:E.
  - exfalso. unfold of_N in E. destruct (N.to_nat (N.log2 n)); cbn [digits_of] in E;
      [discriminate|]. destruct (n / 10 =? 0)%N; [discriminate|].
    rewrite digits_of_append in E. destruct (digits_of n0 (n / 10) ""); discriminate.
  - exists c, s. split; [reflexivity|]. cbn [all] in H. now apply andb_true_iff in H.
Qed.



Lemma rstrip_no_space (s : string) :
  all (fun c => negb (isspace c)) s = true -> rstrip s = s.
Proof.
  induction s as [|c s IH]; [reflexivity|].
  cbn [all rstrip]. intros H. apply andb_true_iff in H as [Hc Hs].
  apply negb_true_iff in Hc. rewrite (IH Hs), Hc. destruct s; reflexivity.
Qed.

Lemma strip_no_space (s : string) :
  all (fun c => negb (isspace c)) s = true -> strip s = s.
Proof.
  intros H. unfold strip.
  replace (lstrip s) with s; [now apply rstrip_no_space|].
  destruct s as [|c s]; [reflexivity|].
  cbn [all] in H. apply andb_true_iff in H as [Hc _].
  apply negb_true_iff in Hc. cbn [lstrip]. now rewrite Hc.
Qed.

Lemma of_N_no_space (n : N) : all (fun c => negb (isspace c)) (of_N n) = true.
Proof.
  apply (all_impl isdigit); [|apply of_N_digits].
  intros c Hc. now rewrite (proj1 (isdigit_plain c Hc)).
Qed.





End StrFacts.

(** ** The diff report formatter *)

Module DiffFacts.

Import Str Diff StrFacts.

Lemma index_app_here {A : Type} (pre : list A) (x : A) (suf : list A) :
  index (pre ++ x :: suf) (length pre) = Ok x.
Proof.
  unfold index. rewrite nth_error_app2 by lia.
  replace (length pre - length pre)%nat with 0%nat by lia. reflexivity.
Qed.

Lemma parse_start_raises (parts : list string) (k : nat) (e : exn) :
  parse_start parts k = Raise e -> e = ValueError \/ e = IndexError.
Proof.
  unfold parse_start, index, int, bind.
  destruct (nth_error parts k) as [p|]; [|intros [= <-]; now right].
  destruct (nth_error (split_on "," p) 0) as [f|]; [|intros [= <-]; now right].
  destruct (strip (tail f)) as [|c r]; simpl.
  - intros [= <-]. now left.
  - destruct (match c with
              | "-"%char => (true, r)
              | "+"%char => (false, r)
              | _ => (false, String c r)
              end) as [neg body].
    destruct (read_digits AtStart 0 body); [discriminate|].
    intros [= <-]. now left.
Qed.

(** The branch for [@@] lines never lets an exception out. *)
Lemma hunk_header_total (line : string) (st : report) :
  hunk_header line st = Ok (hunk_counters line st).
Proof.
  unfold hunk_header, hunk_counters.
  destruct (3 <=? length (split_ws line))%nat; [|reflexivity].
  destruct (parse_start (split_ws line) 1) as [o|e1] eqn:H1; simpl.
  - destruct (parse_start (split_ws line) 2) as [n|e2] eqn:H2; simpl; [reflexivity|].
    destruct (parse_start_raises _ _ _ H2) as [-> | ->]; reflexivity.
  - destruct (parse_start_raises _ _ _ H1) as [-> | ->]; reflexivity.
Qed.

(** The indexed loop, started anywhere in the list with enough fuel
    for what is left, computes [walk] on what is left. *)
Lemma loop_walk (fuel : nat) :
  forall (pre suf : list string) (st : report),
    (length suf <= fuel)%nat ->
    loop fuel (pre ++ suf) (length pre) st = Ok (walk suf st).
Proof.
  induction fuel as [|fuel IH]; intros pre suf st Hfuel.
  - destruct suf; [|simpl in Hfuel; lia].
    simpl. rewrite app_nil_r, Nat.ltb_irrefl. reflexivity.
  - destruct suf as [|line rest].
    + simpl. rewrite app_nil_r, Nat.ltb_irrefl. reflexivity.
    + cbn [loop walk].
      assert (Hlt : (length pre <? length (pre ++ line :: rest))%nat = true).
      { apply Nat.ltb_lt. rewrite length_app. simpl. lia. }
      rewrite Hlt, index_app_here. cbn [bind].
      assert (Hstep : forall st', loop fuel (pre ++ line :: rest) (length pre + 1) st'
                                  = Ok (walk rest st')).
      { intros st'. replace (pre ++ line :: rest) with ((pre ++ [line]) ++ rest)
          by (rewrite <- app_assoc; reflexivity).
        replace (length pre + 1)%nat with (length (pre ++ [line]))
          by (rewrite length_app; reflexivity).
        apply IH. simpl in Hfuel. lia. }
      destruct (startswith "@@" line).
      * rewrite hunk_header_total. cbn [bind]. apply Hstep.
      * destruct rest as [|next rest'].
        -- assert (Hend : (length pre + 1 <? length (pre ++ [line]))%nat = false).
           { apply Nat.ltb_ge. rewrite length_app. simpl. lia. }
           rewrite Hend, andb_false_r. cbn [bind]. apply Hstep.
        -- assert (Hnext : (length pre + 1 <? length (pre ++ line :: next :: rest'))%nat = true).
           { apply Nat.ltb_lt. rewrite length_app. simpl. lia. }
           rewrite Hnext, andb_true_r.
           destruct (startswith "-" line) eqn:Hminus.
           ++ replace (index (pre ++ line :: next :: rest') (length pre + 1)) with (Ok next).
              2:{ replace (pre ++ line :: next :: rest') with ((pre ++ [line]) ++ next :: rest')
                    by (rewrite <- app_assoc; reflexivity).
                  replace (length pre + 1)%nat with (length (pre ++ [line]))
                    by (rewrite length_app; reflexivity).
                  symmetry. apply index_app_here. }
              cbn [bind andb].
              destruct (same_but_trailing_space line next).
              ** replace (pre ++ line :: next :: rest') with ((pre ++ [line; next]) ++ rest')
                   by (rewrite <- app_assoc; reflexivity).
                 replace (length pre + 2)%nat with (length (pre ++ [line; next]))
                   by (rewrite length_app; reflexivity).
                 apply IH. simpl in Hfuel. lia.
              ** apply Hstep.
           ++ cbn [bind andb]. apply Hstep.
Qed.

Lemma run_walk (diff_lines : list string) :
  run diff_lines = Ok (walk diff_lines start).
Proof. unfold run. apply (loop_walk (length diff_lines) [] diff_lines start). lia. Qed.

Lemma minus_not_plus (s : string) :
  startswith "-" s = true -> startswith "+" s = false /\ startswith "@@" s = false.
Proof.
  destruct s as [|c s]; [discriminate|]. cbn [startswith].
  destruct (Ascii.eqb_spec "-" c) as [<-|]; [|discriminate].
  intros _. split; reflexivity.
Qed.


(** A line that does not start with [+] is reached by the loop
    itself: what comes before it is processed as if it ended there. *)
Lemma walk_app_not_plus (line : string) (rest : list string) :
  startswith "+" line = false ->
  forall (n : nat) (pre : list string) (st : report),
    length pre = n ->
    walk (pre ++ line :: rest) st = walk (line :: rest) (walk pre st).
Proof.
  intros Hplus n. induction n as [n IH] using lt_wf_ind. intros pre st Hn.
  destruct pre as [|x pre]; [reflexivity|].
  cbn [app walk].
  destruct (startswith "@@" x).
  - apply (IH (length pre)); simpl in Hn; [lia | reflexivity].
  - destruct pre as [|y pre].
    + cbn [app]. unfold same_but_trailing_space at 1.
      rewrite Hplus. cbn [andb]. rewrite andb_false_r. reflexivity.
    + cbn [app].
      destruct (startswith "-" x && same_but_trailing_space x y).
      * apply (IH (length pre)); simpl in Hn; [lia | reflexivity].
      * apply (IH (length (y :: pre)) ltac:(simpl in *; lia) (y :: pre)). reflexivity.
Qed.




(** The report for old [["x\n"]] and new [["y\n"]]. *)
Example replaced_line :
  format_diff_as_markdown diff_x_y
  = Ok ("### ➕ Added" +:+ nl +:+ "L1: y" +:+ nl +:+ nl
        +:+ "### ➖ Removed" +:+ nl +:+ "L1: x" +:+ nl).
Proof. reflexivity. Qed.

(** C4.  A line that starts with [-] and is directly followed by a
    line that starts with [+], the two being equal once the sign is
    dropped and trailing whitespace stripped, leaves no entry in either
    list: the formatter run on the whole diff is the formatter run on
    the lines before the pair, then both counters advanced by one with
    [add] and [remove] as they were, then the run continued on the
    lines after the pair.  For the diff of [["a\n","b\n"]] against
    [["a\n","b\r\n"]] both lists end empty and so does the report. *)
Theorem noise_pair_is_skipped (pre rest : list string) (removed added : string)
    (Hremoved : startswith "-" removed = true)
    (Hadded : startswith "+" added = true)
    (Hsame : rstrip (tail removed) = rstrip (tail added)) :
  (exists st,
      run pre = Ok st
      /\ run (pre ++ removed :: added :: rest)
         = loop (length rest) rest 0
             (mkReport (add st) (remove st) (old_ln st + 1) (new_ln st + 1)))
  /\ run diff_crlf_only = Ok (mkReport [] [] 3 3)
  /\ format_diff_as_markdown diff_crlf_only = Ok "".
Proof.
  split; [|split; reflexivity].
  exists (walk pre start). split; [apply run_walk|].
  rewrite run_walk.
  rewrite (loop_walk (length rest) [] rest) by lia.
  f_equal.
  destruct (minus_not_plus removed Hremoved) as [Hplus Hat].
  rewrite (walk_app_not_plus removed (added :: rest) Hplus (length pre) pre start eq_refl).
  cbn [walk]. rewrite Hat, Hremoved.
  unfold same_but_trailing_space. rewrite Hadded, Hsame, String.eqb_refl.
  reflexivity.
Qed.

Lemma noise_pair_is_skipped_witness :
  (exists st,
      run [" a" +:+ nl] = Ok st
      /\ run ([" a" +:+ nl] ++ ("-b" +:+ nl) :: ("+b" +:+ String "013"%char nl) :: [])
         = loop 0 [] 0
             (mkReport (add st) (remove st) (old_ln st + 1) (new_ln st + 1)))
  /\ run diff_crlf_only = Ok (mkReport [] [] 3 3)
  /\ format_diff_as_markdown diff_crlf_only = Ok "".
Proof.
  apply (noise_pair_is_skipped [" a" +:+ nl] [] ("-b" +:+ nl)
           ("+b" +:+ String "013"%char nl)); reflexivity.
Defined.





End DiffFacts.

(** ** Ignore rules *)

Module IgnoreFacts.

Import Str Ignore StrFacts Laws.








Section Rules.

Variable path_match : path -> string -> bool.



End Rules.

Example ignored_at_depth :
  should_ignore_file posix_match ["src"; "build"; "gen"; "x.txt"] ["*.tmp"; "build/*"] = true
  /\ should_ignore_file posix_match ["src"; "rebuild"; "x.txt"] ["*.tmp"; "build/*"] = false
  /\ should_ignore_file posix_match ["docs"; "draft.tmp"] ["*.tmp"; "build/*"] = true
  /\ should_ignore_file posix_match ["docs"; ".DS_Store"] [".DS_Store"] = true
  /\ should_ignore_file posix_match ["docs"; "x.DS_Store"] [".DS_Store"] = false.
Proof. repeat split; reflexivity. Qed.

End IgnoreFacts.

(** ** The content hasher *)

Module HasherFacts.

Import Str OS Hasher StrFacts IgnoreFacts.

Lemma chunk_size_pos : (0 < chunk_size)%nat.
Proof. unfold chunk_size. lia. Qed.

(** The pieces read make up the file. *)
Lemma chunks_concat (fuel : nat) :
  forall data : bytes, (length data <= fuel)%nat -> concat (chunks fuel data) = data.
Proof.
  pose proof chunk_size_pos as Hpos.
  induction fuel as [|fuel IH]; intros data Hlen.
  - destruct data; [reflexivity | simpl in Hlen; lia].
  - cbn [chunks]. destruct data as [|b data]; [reflexivity|].
    cbn [concat]. rewrite IH.
    + apply firstn_skipn.
    + rewrite length_skipn. simpl in *. lia.
Qed.

Lemma reads_concat (data : bytes) : concat (reads data) = data.
Proof. apply chunks_concat. lia. Qed.

Lemma feed_all (E : env) (file_path : string) (pending : list bytes) :
  forall (k : nat) (hasher : bytes),
    (forall j, fails E (ReadForHash file_path j) = false) ->
    feed E file_path k pending hasher = Ok (hasher ++ concat pending).
Proof.
  induction pending as [|chunk pending IH]; intros k hasher Hok; cbn [feed concat].
  - rewrite Hok, app_nil_r. reflexivity.
  - rewrite Hok, IH by exact Hok. now rewrite app_assoc.
Qed.

Lemma feed_fails (E : env) (file_path : string) (pending : list bytes) :
  forall (k bad : nat) (hasher : bytes),
    (k <= bad <= k + length pending)%nat ->
    fails E (ReadForHash file_path bad) = true ->
    feed E file_path k pending hasher = Raise OSError.
Proof.
  induction pending as [|chunk pending IH]; intros k bad hasher Hrange Hbad; cbn [feed].
  - simpl in Hrange. replace k with bad by lia. now rewrite Hbad.
  - destruct (fails E (ReadForHash file_path k)) eqn:Hk; [reflexivity|].
    apply (IH (S k) bad); [|exact Hbad].
    simpl in Hrange. assert (k <> bad) by congruence. lia.
Qed.





Example hash_of_hello :
  hash_file (calm "") {[ "a.txt" := Scenarios.text "hello" ]} "a.txt"
  = "aaf4c61ddcc5e8a2dabede0f3b482cd9aea9434d"
  /\ hash_file (calm "") ∅ "docs/gone.txt" = "unreadable-gone.txt".
Proof. split; vm_compute; reflexivity. Qed.

End HasherFacts.

(** ** The delta lists *)

Module DeltaFacts.

Import Store.

Lemma keys_spec {V : Type} (d : gmap string V) (p : string) :
  In p (keys d) <-> is_Some (d !! p).
Proof.
  unfold keys. rewrite <- list_elem_of_In, list_elem_of_fmap. split.
  - intros ([k v] & -> & Hkv). apply elem_of_map_to_list in Hkv. simpl. eauto.
  - intros [v Hv]. exists (p, v). split; [reflexivity|]. now apply elem_of_map_to_list.
Qed.

Lemma keys_NoDup {V : Type} (d : gmap string V) : List.NoDup (keys d).
Proof. apply NoDup_ListNoDup, NoDup_fst_map_to_list. Qed.

Lemma new_files_spec (old current : gmap string string) (p : string) :
  In p (new_files old current) <-> is_Some (current !! p) /\ old !! p = None.
Proof.
  unfold new_files. rewrite filter_In, keys_spec, bool_decide_eq_true. reflexivity.
Qed.

Lemma changed_files_spec (old current : gmap string string) (p : string) :
  In p (changed_files old current)
  <-> exists h h', old !! p = Some h /\ current !! p = Some h' /\ h <> h'.
Proof.
  unfold changed_files. rewrite filter_In, keys_spec. split.
  - intros [[h' Hc] Hf]. destruct (old !! p) as [h|]; [|discriminate].
    exists h, h'. repeat split; [exact Hc|].
    rewrite Hc in Hf. apply negb_true_iff, bool_decide_eq_false in Hf. congruence.
  - intros (h & h' & -> & Hc & Hne). split; [rewrite Hc; eauto|].
    rewrite Hc. apply negb_true_iff, bool_decide_eq_false. congruence.
Qed.

Lemma deleted_files_spec (old current : gmap string string) (p : string) :
  In p (deleted_files old current) <-> is_Some (old !! p) /\ current !! p = None.
Proof.
  unfold deleted_files. rewrite filter_In, keys_spec, bool_decide_eq_true. reflexivity.
Qed.

Lemma unchanged_files_spec (old current : gmap string string) (p : string) :
  In p (unchanged_files old current)
  <-> exists h, old !! p = Some h /\ current !! p = Some h.
Proof.
  unfold unchanged_files. rewrite filter_In, keys_spec. split.
  - intros [_ Hf]. destruct (old !! p) as [h|]; [|discriminate].
    exists h. split; [reflexivity|]. apply bool_decide_eq_true in Hf. now symmetry.
  - intros (h & -> & Hc). split; [rewrite Hc; eauto|].
    apply bool_decide_eq_true. now symmetry.
Qed.

(** C2.  For every old hash index and every current hash map the four
    lists of the delta (new, changed and deleted as [show_status] builds
    them, unchanged for what is left) are characterised by the two
    lookups of a path; a path is in one of them exactly when it is a key
    of either map; no two of them share a path; none lists a path
    twice.  The lists are functions of the two maps alone. *)
Theorem delta_is_a_partition (old_hashes current_hashes : gmap string string) (p : string) :
  let added := new_files old_hashes current_hashes in
  let modified := changed_files old_hashes current_hashes in
  let deleted := deleted_files old_hashes current_hashes in
  let unchanged := unchanged_files old_hashes current_hashes in
  (In p added <-> is_Some (current_hashes !! p) /\ old_hashes !! p = None)
  /\ (In p modified <->
      exists h h', old_hashes !! p = Some h /\ current_hashes !! p = Some h' /\ h <> h')
  /\ (In p deleted <-> is_Some (old_hashes !! p) /\ current_hashes !! p = None)
  /\ (In p unchanged <->
      exists h, old_hashes !! p = Some h /\ current_hashes !! p = Some h)
  /\ (In p added \/ In p modified \/ In p deleted \/ In p unchanged
      <-> is_Some (old_hashes !! p) \/ is_Some (current_hashes !! p))
  /\ ~ (In p added /\ In p modified) /\ ~ (In p added /\ In p deleted)
  /\ ~ (In p added /\ In p unchanged) /\ ~ (In p modified /\ In p deleted)
  /\ ~ (In p modified /\ In p unchanged) /\ ~ (In p deleted /\ In p unchanged)
  /\ List.NoDup added /\ List.NoDup modified /\ List.NoDup deleted /\ List.NoDup unchanged.
Proof.
  cbv zeta.
  rewrite new_files_spec, changed_files_spec, deleted_files_spec, unchanged_files_spec.
  repeat apply conj; try reflexivity;
    try (apply List.NoDup_filter, keys_NoDup).
  all: unfold is_Some;
    destruct (old_hashes !! p) as [h|], (current_hashes !! p) as [h'|];
    try destruct (decide (h = h')); firstorder congruence.
Qed.

End DeltaFacts.

(** ** Laws of the command monad *)

Module MonadFacts.

Import OS Store Laws.

Section Preserves.

Variable R : world -> world -> Prop.
Hypothesis R_refl : forall w, R w w.
Hypothesis R_trans : forall a b c, R a b -> R b c -> R a c.

Lemma preserves_ret {A : Type} (a : A) : preserves R (ret a).
Proof. intros w. apply R_refl. Qed.

Lemma preserves_raise {A : Type} (e : exn) : preserves R (@raise A e).
Proof. intros w. apply R_refl. Qed.

Lemma preserves_gets {A : Type} (f : world -> A) : preserves R (gets f).
Proof. intros w. apply R_refl. Qed.

Lemma preserves_lift {A : Type} (r : result A) : preserves R (lift r).
Proof. intros w. apply R_refl. Qed.

Lemma preserves_read {A : Type} (f : world -> result A) :
  preserves R (fun w => (f w, w)).
Proof. intros w. apply R_refl. Qed.

Lemma preserves_modify (f : world -> world) :
  (forall w, R w (f w)) -> preserves R (modify f).
Proof. intros H w. apply H. Qed.

Lemma preserves_bind {A B : Type} (m : M A) (k : A -> M B) :
  preserves R m -> (forall a, preserves R (k a)) -> preserves R (mbind m k).
Proof.
  intros Hm Hk w. unfold mbind. specialize (Hm w).
  destruct (m w) as [[a|e] w1]; [|exact Hm].
  apply (R_trans _ w1); [exact Hm | apply Hk].
Qed.

Lemma preserves_try_os {A : Type} (m handler : M A) :
  preserves R m -> preserves R handler -> preserves R (try_os m handler).
Proof.
  intros Hm Hh w. unfold try_os. specialize (Hm w).
  destruct (m w) as [[a|[]] w1]; try exact Hm.
  apply (R_trans _ w1); [exact Hm | apply Hh].
Qed.

Lemma preserves_for_fold {A B : Type} (body : B -> A -> M B) (l : list A) :
  (forall acc x, preserves R (body acc x)) ->
  forall acc, preserves R (for_fold l acc body).
Proof.
  intros Hbody. induction l as [|x l IH]; intros acc; cbn [for_fold].
  - apply preserves_ret.
  - apply preserves_bind; [apply Hbody | exact IH].
Qed.

Lemma preserves_guarded (body : M unit) :
  preserves R body ->
  (forall w o, R w (set_stdout o w)) ->
  forall w, R w (guarded body w).
Proof.
  intros Hb Hout w. unfold guarded. specialize (Hb w).
  destruct (body w) as [[a|e] w1]; [exact Hb|].
  apply (R_trans _ w1); [exact Hb | apply Hout].
Qed.

End Preserves.

Lemma returns_ret {A : Type} (a : A) : returns (ret a).
Proof. intros w. now exists a. Qed.

Lemma returns_gets {A : Type} (f : world -> A) : returns (gets f).
Proof. intros w. now exists (f w). Qed.

Lemma returns_modify (f : world -> world) : returns (modify f).
Proof. intros w. now exists tt. Qed.

Lemma returns_bind {A B : Type} (m : M A) (k : A -> M B) :
  returns m -> (forall a, returns (k a)) -> returns (mbind m k).
Proof.
  intros Hm Hk w. unfold mbind. destruct (Hm w) as [a Ha].
  destruct (m w) as [r w1]. simpl in Ha. subst r. apply Hk.
Qed.

Lemma only_os_returns {A : Type} (m : M A) : returns m -> raises_only_os m.
Proof. intros Hm w e He. destruct (Hm w) as [a Ha]. congruence. Qed.

Lemma only_os_raise {A : Type} : raises_only_os (@raise A OSError).
Proof. intros w e [= <-]. reflexivity. Qed.

Lemma only_os_bind {A B : Type} (m : M A) (k : A -> M B) :
  raises_only_os m -> (forall a, raises_only_os (k a)) -> raises_only_os (mbind m k).
Proof.
  intros Hm Hk w e. unfold mbind. specialize (Hm w).
  destruct (m w) as [[a|e'] w1]; simpl in *.
  - apply Hk.
  - intros [= <-]. now apply Hm.
Qed.

Lemma only_os_lift_ok {A : Type} (a : A) : raises_only_os (lift (Ok a)).
Proof. intros w e [=]. Qed.

Lemma returns_try_os {A : Type} (m handler : M A) :
  raises_only_os m -> returns handler -> returns (try_os m handler).
Proof.
  intros Hm Hh w. unfold try_os. specialize (Hm w).
  destruct (m w) as [[a|e] w1]; simpl in *.
  - now exists a.
  - rewrite (Hm e eq_refl). apply Hh.
Qed.

Lemma returns_for_fold {A B : Type} (body : B -> A -> M B) (l : list A) :
  (forall acc x, returns (body acc x)) ->
  forall acc, returns (for_fold l acc body).
Proof.
  intros Hbody. induction l as [|x l IH]; intros acc; cbn [for_fold].
  - apply returns_ret.
  - apply returns_bind; [apply Hbody | exact IH].
Qed.

End MonadFacts.

Module ChangelogFacts.

Import OS Store Laws MonadFacts StrFacts.

Lemma grows_refl (w : world) : grows w w.
Proof. intros p text H. exists "". now rewrite append_empty_r. Qed.

Lemma grows_trans (a b c : world) : grows a b -> grows b c -> grows a c.
Proof.
  intros Hab Hbc p text H.
  destruct (Hab p text H) as [m1 H1]. destruct (Hbc p _ H1) as [m2 H2].
  exists (m1 +:+ m2). now rewrite <- append_assoc.
Qed.

Lemma grows_same (w w' : world) : changelogs w' = changelogs w -> grows w w'.
Proof. intros E. unfold grows. rewrite E. apply grows_refl. Qed.

Section Commands.

Variable path_match : Ignore.path -> string -> bool.
Variable unified_diff : list string -> list string -> list string.
Variable readlines : bytes -> list string.
Variable E : env.

Lemma grows_append_text (rel_path text : string) :
  preserves grows (append_text rel_path text).
Proof.
  intros w p old H. unfold append_text, modify. cbn.
  destruct (decide (rel_path = p)) as [->|Hne].
  - exists text. rewrite lookup_insert_eq, H. reflexivity.
  - exists "". rewrite lookup_insert_ne by exact Hne. now rewrite append_empty_r.
Qed.

Ltac grow :=
  repeat first
    [ apply (preserves_ret grows grows_refl)
    | apply (preserves_raise grows grows_refl)
    | apply (preserves_gets grows grows_refl)
    | apply (preserves_lift grows grows_refl)
    | apply (preserves_read grows grows_refl)
    | apply grows_append_text
    | apply (preserves_bind grows grows_trans); [|intros ?]
    | apply (preserves_try_os grows grows_trans)
    | apply (preserves_for_fold grows grows_refl grows_trans); intros ? ?
    | apply preserves_modify; intros ?; apply grows_same; reflexivity
    | match goal with
      | |- preserves _ (if ?b then _ else _) => destruct b
      | |- preserves _ (match ?x with _ => _ end) => destruct x
      end
    | progress unfold print, note, safe_makedirs, write_version, bump_version,
        save_hashes, append_entry, log_modified, copy_to_temp ].

Lemma grows_new_or_modified (old : gmap string string) (v : Float.float)
    (acc : bool) (item : string * string) :
  preserves grows (new_or_modified unified_diff readlines E old v acc item).
Proof. unfold new_or_modified. grow. Qed.

Lemma grows_gone (cur : gmap string string) (v : Float.float) (acc : bool) (p : string) :
  preserves grows (gone E cur v acc p).
Proof. unfold gone. grow. Qed.

Lemma grows_replace_snapshot (files : list string) :
  preserves grows (replace_snapshot E files).
Proof. unfold replace_snapshot. grow. Qed.

Lemma grows_update_body :
  preserves grows (update_body path_match unified_diff readlines E).
Proof.
  unfold update_body, record_changes. grow.
  - apply grows_new_or_modified.
  - apply grows_gone.
Qed.

Lemma grows_status_body : preserves grows (status_body path_match E).
Proof. unfold status_body, report. grow. Qed.

(** C6, as the code has it.  The commit ([update_gitnot]), the status
    query and the version query never rewrite or drop changelog text,
    whatever the environment lets fail: every changelog that exists
    before the command exists after it, the old text being a prefix of
    the new one.  This holds for paths no longer tracked as well.
    ([init_gitnot] is not in the list: it opens changelogs for
    writing.) *)
Theorem changelogs_only_grow (w : world) :
  grows w (update_gitnot path_match unified_diff readlines E w)
  /\ grows w (show_status path_match E w)
  /\ grows w (show_version w).
Proof.
  assert (Hout : forall w o, grows w (set_stdout o w))
    by (intros; now apply grows_same).
  repeat split.
  - apply (preserves_guarded grows grows_trans); [apply grows_update_body | exact Hout].
  - unfold show_status. destruct (negb (gitnot_dir w)); [apply Hout|].
    apply (preserves_guarded grows grows_trans); [apply grows_status_body | exact Hout].
  - apply Hout.
Qed.

End Commands.

(** A second [init] in a directory that already has history loses it. *)
Lemma init_rewrites_changelog :
  let w' := init_gitnot Ignore.posix_match (calm "2026-01-02 10:00") Scenarios.seen_before in
  changelogs w' !! "a.txt" = Some ("# a.txt — original v0.1" +:+ Diff.nl)
  /\ ~ grows Scenarios.seen_before w'.
Proof.
  assert (H : changelogs (init_gitnot Ignore.posix_match (calm "2026-01-02 10:00") Scenarios.seen_before)
              !! "a.txt" = Some ("# a.txt — original v0.1" +:+ Diff.nl))
    by (vm_compute; reflexivity).
  split; [exact H|].
  intros Hg.
  destruct (Hg "a.txt" _ eq_refl) as [more Hmore].
  cbv zeta in H. rewrite H in Hmore. vm_compute in Hmore. discriminate Hmore.
Qed.

End ChangelogFacts.

(** ** What the commit records and what the status query reports *)

Module JournalFacts.

Import OS Store Laws MonadFacts DeltaFacts.

Lemma format_total (diff : list string) :
  Diff.format_diff_as_markdown diff = Ok (Diff.render (Diff.walk diff Diff.start)).
Proof. unfold Diff.format_diff_as_markdown. now rewrite DiffFacts.run_walk. Qed.

Lemma same_journal_refl (w : world) : same_journal w w.
Proof. reflexivity. Qed.

Lemma same_journal_trans (a b c : world) :
  same_journal a b -> same_journal b c -> same_journal a c.
Proof. unfold same_journal. congruence. Qed.

(** A computation that returns and is known up to [R]. *)
Lemma run_returns {A : Type} (R : world -> world -> Prop) (m : M A) (w : world) :
  returns m -> preserves R m -> exists a w1, m w = (Ok a, w1) /\ R w w1.
Proof.
  intros Hr Hp. destruct (Hr w) as [a Ha]. specialize (Hp w).
  destruct (m w) as [r w1]. simpl in *. subst r. eauto.
Qed.

Section Commands.

Variable path_match : Ignore.path -> string -> bool.
Variable unified_diff : list string -> list string -> list string.
Variable readlines : bytes -> list string.
Variable E : env.

Ltac quiet :=
  repeat first
    [ apply (preserves_ret same_journal same_journal_refl)
    | apply (preserves_raise same_journal same_journal_refl)
    | apply (preserves_gets same_journal same_journal_refl)
    | apply (preserves_lift same_journal same_journal_refl)
    | apply (preserves_read same_journal same_journal_refl)
    | apply (preserves_bind same_journal same_journal_trans); [|intros ?]
    | apply (preserves_try_os same_journal same_journal_trans)
    | apply (preserves_for_fold same_journal same_journal_refl same_journal_trans); intros ? ?
    | apply preserves_modify; intros ?; reflexivity
    | match goal with
      | |- preserves _ (if ?b then _ else _) => destruct b
      | |- preserves _ (match ?x with _ => _ end) => destruct x
      end
    | progress unfold print, safe_makedirs, write_version, bump_version,
        save_hashes, append_entry, append_text, log_modified, copy_to_temp,
        replace_snapshot ].

Lemma note_then {A : Type} (rel_path : string) (c : change) (k : M A) (w : world) :
  preserves same_journal k ->
  journal (mbind (note rel_path c) (fun _ => k) w).2 = journal w ++ [(rel_path, c)].
Proof.
  intros Hk. unfold mbind, note, modify. cbn.
  rewrite (Hk (set_journal (journal w ++ [(rel_path, c)]) w)). reflexivity.
Qed.

Lemma journal_new_or_modified (old : gmap string string) (v : Float.float)
    (acc : bool) (item : string * string) (w : world) :
  journal (new_or_modified unified_diff readlines E old v acc item w).2
  = journal w ++ first_trace old item.
Proof.
  unfold new_or_modified, first_trace. destruct item as [p h]. cbn [fst snd].
  destruct (old !! p) as [old_hash|].
  - destruct (negb (String.eqb old_hash h)).
    + apply note_then. quiet.
    + cbn. now rewrite app_nil_r.
  - apply note_then. quiet.
Qed.

Lemma journal_gone (cur : gmap string string) (v : Float.float) (acc : bool)
    (p : string) (w : world) :
  journal (gone E cur v acc p w).2 = journal w ++ second_trace cur p.
Proof.
  unfold gone, second_trace. destruct (cur !! p).
  - cbn. now rewrite app_nil_r.
  - apply note_then. quiet.
Qed.

Lemma for_fold_trace {A B : Type} (body : B -> A -> M B)
    (tr : A -> list (string * change)) (l : list A) :
  (forall acc x, returns (body acc x)) ->
  (forall acc x w, journal (body acc x w).2 = journal w ++ tr x) ->
  forall acc w, journal (for_fold l acc body w).2 = journal w ++ flat_map tr l.
Proof.
  intros Hr Htr. induction l as [|x l IH]; intros acc w; cbn [for_fold flat_map].
  - cbn. now rewrite app_nil_r.
  - unfold mbind. destruct (Hr acc x w) as [a Ha]. specialize (Htr acc x w).
    destruct (body acc x w) as [r w1]. simpl in Ha, Htr. subst r.
    rewrite IH, Htr, app_assoc. reflexivity.
Qed.

Hypothesis makedirs_ok : forall path, fails E (MakeDirs path) = false.

Ltac settle :=
  repeat first
    [ apply returns_ret
    | apply returns_gets
    | apply returns_modify
    | apply only_os_raise
    | apply only_os_lift_ok
    | apply returns_bind; [|intros ?]
    | apply only_os_bind; [|intros ?]
    | apply returns_try_os
    | rewrite makedirs_ok
    | rewrite format_total
    | match goal with
      | |- returns (if ?b then _ else _) => destruct b
      | |- returns (match ?x with _ => _ end) => destruct x
      | |- raises_only_os (if ?b then _ else _) => destruct b
      | |- raises_only_os (match ?x with _ => _ end) => destruct x
      | |- raises_only_os (lift (match ?x with _ => _ end)) => destruct x
      end
    | progress unfold print, note, safe_makedirs, append_entry, append_text,
        log_modified
    | progress cbn [bind]
    | apply only_os_returns ].

Lemma returns_new_or_modified (old : gmap string string) (v : Float.float)
    (acc : bool) (item : string * string) :
  returns (new_or_modified unified_diff readlines E old v acc item).
Proof. unfold new_or_modified. settle. Qed.

Lemma returns_gone (cur : gmap string string) (v : Float.float) (acc : bool) (p : string) :
  returns (gone E cur v acc p).
Proof. unfold gone. settle. Qed.

Lemma returns_bump_version : returns (bump_version E).
Proof. unfold bump_version, write_version. settle. Qed.

Lemma quiet_bump_version : preserves same_journal (bump_version E).
Proof. quiet. Qed.

(** The journal after the two loops and whatever follows them. *)
Lemma journal_record_changes (old : gmap string string) (files : list string)
    (cur : gmap string string) (w : world) :
  journal (record_changes unified_diff readlines E old files cur w).2
  = journal w ++ flat_map (first_trace old) (items cur)
              ++ flat_map (second_trace cur) (keys old).
Proof.
  unfold record_changes.
  destruct (run_returns same_journal (bump_version E) w returns_bump_version quiet_bump_version)
    as (v & w1 & Hbump & Hw1).
  unfold mbind at 1. rewrite Hbump.
  pose proof (for_fold_trace (new_or_modified unified_diff readlines E old v)
                (first_trace old) (items cur)
                (returns_new_or_modified old v) (journal_new_or_modified old v) false w1) as Hj1.
  destruct (returns_for_fold _ (items cur) (returns_new_or_modified old v) false w1)
    as [c1 Hc1].
  unfold mbind at 1.
  destruct (for_fold (items cur) false (new_or_modified unified_diff readlines E old v) w1)
    as [r1 w2]. simpl in Hc1, Hj1. subst r1.
  pose proof (for_fold_trace (gone E cur v) (second_trace cur) (keys old)
                (returns_gone cur v) (journal_gone cur v) c1 w2) as Hj2.
  destruct (returns_for_fold _ (keys old) (returns_gone cur v) c1 w2) as [c2 Hc2].
  unfold mbind at 1.
  destruct (for_fold (keys old) c1 (gone E cur v) w2) as [r2 w3]. simpl in Hc2, Hj2. subst r2.
  match goal with
  | |- journal (?tail w3).2 = _ =>
      assert (Htail : preserves same_journal tail) by (destruct c2; cbn [negb]; quiet);
      rewrite (Htail w3)
  end.
  rewrite Hj2, Hj1, Hw1, app_assoc. reflexivity.
Qed.

Lemma journal_update (w : world) (files : list string) :
  gitnot_dir w = true ->
  get_all_text_files path_match w = Ok files ->
  journal (update_gitnot path_match unified_diff readlines E w)
  = journal w
    ++ flat_map (first_trace (load_json ∅ (hashes_json w)))
         (items (current_hashes_of E w files))
    ++ flat_map (second_trace (current_hashes_of E w files))
         (keys (load_json ∅ (hashes_json w))).
Proof.
  intros Hdir Hfiles. unfold update_gitnot, guarded.
  pose proof (journal_record_changes (load_json ∅ (hashes_json w)) files
                (current_hashes_of E w files) w) as Hj.
  assert (Hbody : update_body path_match unified_diff readlines E w
                  = record_changes unified_diff readlines E (load_json ∅ (hashes_json w))
                      files (current_hashes_of E w files) w).
  { unfold update_body, mbind, gets. rewrite Hdir. cbn [negb]. rewrite Hfiles. reflexivity. }
  rewrite Hbody.
  destruct (record_changes unified_diff readlines E (load_json ∅ (hashes_json w)) files
              (current_hashes_of E w files) w) as [[u|e] w']; exact Hj.
Qed.

End Commands.

Lemma in_items (d : gmap string string) (p h : string) :
  In (p, h) (items d) <-> d !! p = Some h.
Proof. unfold items. rewrite <- list_elem_of_In. apply elem_of_map_to_list. Qed.

Lemma in_first_trace (old cur : gmap string string) (p : string) (c : change) :
  In (p, c) (flat_map (first_trace old) (items cur))
  <-> exists h, cur !! p = Some h
        /\ match old !! p with
           | None => c = Added
           | Some old_hash => c = Modified /\ old_hash <> h
           end.
Proof.
  rewrite in_flat_map. split.
  - intros ([q h] & Hin & Htr). apply in_items in Hin.
    unfold first_trace in Htr. cbn [fst snd] in Htr.
    destruct (old !! q) as [old_hash|] eqn:Hq.
    + destruct (String.eqb_spec old_hash h) as [->|Hne]; cbn [negb] in Htr; [destruct Htr|].
      destruct Htr as [[= <- <-]|[]]. exists h. rewrite Hq. auto.
    + destruct Htr as [[= <- <-]|[]]. exists h. rewrite Hq. auto.
  - intros (h & Hc & Hm). exists (p, h). split; [now apply in_items|].
    unfold first_trace. cbn [fst snd].
    destruct (old !! p) as [old_hash|].
    + destruct Hm as [-> Hne]. apply String.eqb_neq in Hne. rewrite Hne. now left.
    + subst c. now left.
Qed.

Lemma in_second_trace (old cur : gmap string string) (p : string) (c : change) :
  In (p, c) (flat_map (second_trace cur) (keys old))
  <-> is_Some (old !! p) /\ cur !! p = None /\ c = Deleted.
Proof.
  rewrite in_flat_map. split.
  - intros (q & Hin & Htr). apply keys_spec in Hin.
    unfold second_trace in Htr. destruct (cur !! q) eqn:Hq; [destruct Htr|].
    destruct Htr as [[= <- <-]|[]]. auto.
  - intros (Ho & Hc & ->). exists p. split; [now apply keys_spec|].
    unfold second_trace. rewrite Hc. now left.
Qed.

Lemma stdout_report (label : nat -> list string -> message) (l : list string) (w : world) :
  report label l w = (Ok tt, set_stdout (stdout w ++ report_lines label l) w).
Proof.
  unfold report, report_lines. destruct l as [|x l].
  - cbn. rewrite app_nil_r. now destruct w.
  - set (n := length (x :: l)). set (top := firstn 3 (x :: l)). clearbody n top.
    unfold mbind, print, modify, ret.
    destruct (3 <? n)%nat; cbn [set_stdout stdout]; [|reflexivity].
    rewrite <- app_assoc. reflexivity.
Qed.

Lemma mbind_gets {A B : Type} (f : world -> A) (k : A -> M B) (w : world) :
  mbind (gets f) k w = k (f w) w.
Proof. reflexivity. Qed.

Lemma mbind_read_ok {A B : Type} (f : world -> result A) (k : A -> M B) (w : world) (a : A) :
  f w = Ok a -> mbind (fun w => (f w, w)) k w = k a w.
Proof. intros H. unfold mbind. now rewrite H. Qed.

Section Agreement.

Variable path_match : Ignore.path -> string -> bool.
Variable unified_diff : list string -> list string -> list string.
Variable readlines : bytes -> list string.
Variable E : env.

(** What [show_status] prints, from the three delta lists. *)
Lemma status_output (w : world) (files : list string) :
  gitnot_dir w = true ->
  get_all_text_files path_match w = Ok files ->
  show_status path_match E w
  = set_stdout
      (stdout w ++ status_lines
                     (new_files (load_json ∅ (hashes_json w)) (current_hashes_of E w files))
                     (changed_files (load_json ∅ (hashes_json w)) (current_hashes_of E w files))
                     (deleted_files (load_json ∅ (hashes_json w)) (current_hashes_of E w files)))
      w.
Proof.
  intros Hdir Hfiles. unfold show_status, guarded. rewrite Hdir. cbn [negb].
  unfold status_body.
  rewrite mbind_gets, (mbind_read_ok _ _ _ _ Hfiles), mbind_gets.
  cbv zeta. unfold status_lines.
  assert (Hall : forall a b c,
             (step report StatusNew a; step report StatusModified b; report StatusDeleted c) w
             = (Ok tt, set_stdout (stdout w ++ report_lines StatusNew a
                                   ++ report_lines StatusModified b
                                   ++ report_lines StatusDeleted c) w)).
  { intros a b c. unfold mbind. rewrite !stdout_report.
    cbn [stdout set_stdout]. rewrite <- !app_assoc. destruct w. reflexivity. }
  destruct (new_files _ _) as [|n ns], (changed_files _ _) as [|c cs],
    (deleted_files _ _) as [|d ds]; try (rewrite Hall; reflexivity).
  reflexivity.
Qed.

(** C3.  In an initialised directory whose file scan succeeds, and when
    no directory creation fails (so that both loops of the commit run
    to their end), the paths for which the commit takes the new-file
    branch, the modified branch and the deleted branch are exactly the
    paths of the [new_files], [changed_files] and [deleted_files] lists
    that the status query builds and prints, for the same old and
    current hash maps. *)
Theorem status_and_update_agree (w : world) (files : list string) (p : string)
    (Hdir : gitnot_dir w = true)
    (Hfiles : get_all_text_files path_match w = Ok files)
    (Hmk : forall path, fails E (MakeDirs path) = false)
    (Hj : journal w = []) :
  let old_hashes := load_json ∅ (hashes_json w) in
  let current_hashes := current_hashes_of E w files in
  let after := update_gitnot path_match unified_diff readlines E w in
  show_status path_match E w
  = set_stdout
      (stdout w ++ status_lines (new_files old_hashes current_hashes)
                     (changed_files old_hashes current_hashes)
                     (deleted_files old_hashes current_hashes)) w
  /\ (In (p, Added) (journal after) <-> In p (new_files old_hashes current_hashes))
  /\ (In (p, Modified) (journal after) <-> In p (changed_files old_hashes current_hashes))
  /\ (In (p, Deleted) (journal after) <-> In p (deleted_files old_hashes current_hashes)).
Proof.
  cbv zeta. split.
  { now apply status_output. }
  rewrite (journal_update path_match unified_diff readlines E Hmk w files Hdir Hfiles), Hj.
  cbn [app]. rewrite !in_app_iff, !in_first_trace, !in_second_trace.
  rewrite new_files_spec, changed_files_spec, deleted_files_spec.
  unfold is_Some.
  destruct (load_json ∅ (hashes_json w) !! p) as [old_hash|],
    (current_hashes_of E w files !! p) as [new_hash|];
    repeat split; intros; naive_solver.
Qed.


End Agreement.

Lemma status_and_update_agree_witness :
  In ("src/b.py", Deleted)
     (journal (update_gitnot Ignore.posix_match (fun _ _ => []) (fun _ => [])
                 (calm "2026-01-02 10:00") Scenarios.edited))
  <-> In "src/b.py"
        (deleted_files (load_json ∅ (hashes_json Scenarios.edited))
           (current_hashes_of (calm "2026-01-02 10:00") Scenarios.edited ["a.txt"; "n.md"])).
Proof.
  refine (proj2 (proj2 (proj2
            (status_and_update_agree Ignore.posix_match (fun _ _ => []) (fun _ => [])
               (calm "2026-01-02 10:00") Scenarios.edited ["a.txt"; "n.md"] "src/b.py"
               _ _ _ _)))).
  - reflexivity.
  - vm_compute. reflexivity.
  - intros path. reflexivity.
  - reflexivity.
Defined.


End JournalFacts.

(** ** The snapshot transaction *)

Module SnapshotFacts.

Import OS Store Scenarios.

(** C1 (the code departs from it).  In [edited], a commit during which
    the copy of [n.md] into the temporary directory fails removes the
    temporary directory and keeps the snapshot copy of [a.txt] as it
    was, yet goes on to write the new hash index and to announce the new
    version: [hashes.json] then describes files the snapshot does not
    hold.  When the move of the temporary directory fails after the old
    tree was removed, no snapshot is left at all and the new hash index
    is written all the same. *)
Theorem failed_snapshot_still_saves_hashes :
  let after_copy :=
    update_gitnot Ignore.posix_match (fun _ _ => []) (fun _ => []) copy_fails edited in
  let after_move :=
    update_gitnot Ignore.posix_match (fun _ _ => []) (fun _ => []) move_fails edited in
  (temp after_copy = None
   /\ snapshot after_copy = Some {[ "a.txt" := text "hello" ]}
   /\ hashes_json after_copy = Holds edited_hashes
   /\ hashes_json after_copy <> hashes_json edited
   /\ version_txt after_copy = Some "0.2"
   /\ stdout after_copy = [WarnSnapshot; VersionBumped "0.2"; FilesTracked 2])
  /\ (temp after_move = None
      /\ snapshot after_move = None
      /\ hashes_json after_move = Holds edited_hashes
      /\ stdout after_move = [WarnSnapshot; VersionBumped "0.2"; FilesTracked 2]).
Proof.
  cbv zeta. repeat split; try (vm_compute; reflexivity).
  vm_compute. discriminate.
Qed.

End SnapshotFacts.

(** ** The version counter of a commit that finds nothing to record *)

Module VersionFacts.

Import OS Store Laws MonadFacts DeltaFacts JournalFacts.

Lemma all_from_spec (p : N -> bool) (count : nat) :
  forall first n : N,
    all_from p first count = true ->
    (first <= n < first + N.of_nat count)%N ->
    p n = true.
Proof.
  induction count as [|count IH]; intros first n Hall Hn; [lia|].
  cbn [all_from] in Hall. apply andb_true_iff in Hall as [Hfirst Hrest].
  destruct (N.eq_dec n first) as [->|Hne]; [exact Hfirst|].
  apply (IH (N.succ first)); [exact Hrest | lia].
Qed.

Lemma round_trips_checked : all_from round_trips 0 checked_tenths = true.
Proof. vm_compute. reflexivity. Qed.

Lemma rolled_back_one_decimal (n : N) :
  (n < N.of_nat checked_tenths)%N -> rolled_back (one_decimal n) = one_decimal n.
Proof.
  intros Hn. apply String.eqb_eq.
  apply (all_from_spec round_trips checked_tenths 0 n round_trips_checked). lia.
Qed.

Lemma for_fold_skip {A B : Type} (body : B -> A -> M B) (l : list A) :
  (forall x, In x l -> forall acc w, body acc x w = (Ok acc, w)) ->
  forall acc w, for_fold l acc body w = (Ok acc, w).
Proof.
  induction l as [|x l IH]; intros Hbody acc w; [reflexivity|].
  cbn [for_fold]. unfold mbind. rewrite Hbody by now left.
  apply IH. intros y Hy. apply Hbody. now right.
Qed.

(** The commit bumps the counter before it looks for changes and takes
    the bump back when there are none: [version - 0.1] is written where
    [version] is the float [read + 0.1].  For the versions [0.0] to
    [999.9], as [write_version] prints them, the text written last is
    the text read first. *)

Section Commands.

Variable path_match : Ignore.path -> string -> bool.
Variable unified_diff : list string -> list string -> list string.
Variable readlines : bytes -> list string.
Variable E : env.


End Commands.



End VersionFacts.

(** ** What a command can change *)

Module EffectFacts.

Import OS Store Laws Effects MonadFacts.

Lemma only_prints_refl (w : world) : only_prints w w.
Proof. exists []. rewrite app_nil_r. now destruct w. Qed.

Lemma only_prints_trans (a b c : world) :
  only_prints a b -> only_prints b c -> only_prints a c.
Proof.
  intros [o1 ->] [o2 ->]. exists (o1 ++ o2). cbn. now rewrite app_assoc.
Qed.

Lemma only_prints_stdout (w : world) (msg : message) :
  only_prints w (set_stdout (stdout w ++ [msg]) w).
Proof. now exists [msg]. Qed.

Lemma prints_more_refl (w : world) : prints_more w w.
Proof. exists []. now rewrite app_nil_r. Qed.

Lemma prints_more_trans (a b c : world) :
  prints_more a b -> prints_more b c -> prints_more a c.
Proof.
  intros [o1 H1] [o2 H2]. exists (o1 ++ o2). now rewrite H2, H1, app_assoc.
Qed.

Lemma keeps_refl {A : Type} (f : world -> A) (w : world) : keeps f w w.
Proof. reflexivity. Qed.

Lemma keeps_trans {A : Type} (f : world -> A) (a b c : world) :
  keeps f a b -> keeps f b c -> keeps f a c.
Proof. unfold keeps. congruence. Qed.

(** Decomposes a goal [preserves R m] along the structure of [m];
    [leaf] closes the goals for [modify]. *)
Ltac frame R R_refl R_trans leaf :=
  repeat first
    [ apply (preserves_ret R R_refl)
    | apply (preserves_raise R R_refl)
    | apply (preserves_gets R R_refl)
    | apply (preserves_lift R R_refl)
    | apply (preserves_read R R_refl)
    | apply (preserves_bind R R_trans); [|intros ?]
    | apply (preserves_try_os R R_trans)
    | apply (preserves_for_fold R R_refl R_trans); intros ? ?
    | apply preserves_modify; intros ?; leaf
    | match goal with
      | |- preserves _ (if ?b then _ else _) => destruct b
      | |- preserves _ (match ?x with _ => _ end) => destruct x
      end
    | progress unfold print, note, safe_makedirs, write_version, bump_version,
        save_hashes, save_config, append_entry, append_text, log_modified, copy_to_temp,
        replace_snapshot, write_changelog, report ].

Section Commands.

Variable path_match : Ignore.path -> string -> bool.
Variable unified_diff : list string -> list string -> list string.
Variable readlines : bytes -> list string.
Variable E : env.

Lemma only_prints_status_body : preserves only_prints (status_body path_match E).
Proof.
  unfold status_body.
  frame only_prints only_prints_refl only_prints_trans
    ltac:(apply only_prints_stdout).
Qed.

Lemma only_prints_show_status (w : world) : only_prints w (show_status path_match E w).
Proof.
  unfold show_status. destruct (negb (gitnot_dir w)); [apply only_prints_stdout|].
  unfold guarded. pose proof (only_prints_status_body w) as H.
  destruct (status_body path_match E w) as [[u|e] w1]; [exact H|].
  apply (only_prints_trans _ w1); [exact H | apply only_prints_stdout].
Qed.

End Commands.

End EffectFacts.

(** ** A commit that records changes *)

Module CommitFacts.

Import OS Store Laws Effects MonadFacts DeltaFacts JournalFacts EffectFacts.

Lemma yields_ret {A : Type} (P : A -> Prop) (a : A) : P a -> yields P (ret a).
Proof. intros H w b w' [= <- _]. exact H. Qed.

Lemma yields_bind {A B : Type} (P : B -> Prop) (m : M A) (k : A -> M B) :
  (forall a, yields P (k a)) -> yields P (mbind m k).
Proof.
  intros Hk w b w'. unfold mbind. destruct (m w) as [[a|e] w1]; [apply Hk | discriminate].
Qed.

Lemma yields_for_fold {A B : Type} (P : B -> Prop) (body : B -> A -> M B) (l : list A) :
  (forall acc x, P acc -> yields P (body acc x)) ->
  forall acc, P acc -> yields P (for_fold l acc body).
Proof.
  intros Hbody. induction l as [|x l IH]; intros acc Hacc; cbn [for_fold].
  - now apply yields_ret.
  - intros w b w'. unfold mbind. specialize (Hbody acc x Hacc w).
    destruct (body acc x w) as [[a|e] w1]; [|discriminate].
    apply IH. now apply (Hbody a w1).
Qed.

(** A loop over [l] whose body sets the flag at [x] ends with the
    flag set. *)
Lemma for_fold_sets {A : Type} (body : bool -> A -> M bool) (l : list A) (x : A) :
  In x l ->
  (forall acc y, acc = true -> yields (eq true) (body acc y)) ->
  (forall acc, yields (eq true) (body acc x)) ->
  forall acc, yields (eq true) (for_fold l acc body).
Proof.
  intros Hin Hkeep Hset. induction l as [|y l IH]; intros acc; [destruct Hin|].
  cbn [for_fold]. intros w b w'. unfold mbind.
  destruct (body acc y w) as [[a|e] w1] eqn:Hy; [|discriminate].
  destruct Hin as [->|Hin].
  - pose proof (Hset acc w a w1 Hy) as <-.
    apply (yields_for_fold (eq true) body l); [|reflexivity].
    intros acc0 z <-. now apply Hkeep.
  - now apply IH.
Qed.

Lemma lookup_copied (work : gmap string bytes) (files : list string) :
  forall (into : gmap string bytes) (p : string),
    (forall f, In f files -> is_Some (work !! f)) ->
    (In p files -> copied work files into !! p = work !! p)
    /\ (~ In p files -> copied work files into !! p = into !! p).
Proof.
  induction files as [|f files IH]; intros into p Hall; cbn [copied].
  - split; [intros [] | reflexivity].
  - destruct (Hall f (or_introl eq_refl)) as [data Hf]. rewrite Hf.
    assert (Hall' : forall g, In g files -> is_Some (work !! g))
      by (intros g Hg; apply Hall; now right).
    destruct (IH (<[f := data]> into) p Hall') as [Hin Hout].
    destruct (in_dec string_dec p files) as [Hp|Hp].
    + split; [intros _; now apply Hin|]. intros Hno. exfalso. apply Hno. now right.
    + split.
      * intros [->|Hp']; [|contradiction]. rewrite (Hout Hp), lookup_insert_eq. now symmetry.
      * intros Hno. rewrite (Hout Hp). apply lookup_insert_ne. intros ->. apply Hno. now left.
Qed.

Section Commands.

Variable path_match : Ignore.path -> string -> bool.
Variable unified_diff : list string -> list string -> list string.
Variable readlines : bytes -> list string.
Variable E : env.

(** The files the scan finds are files of the tree. *)
Lemma scanned_in_tree (w : world) (files : list string) (f : string) :
  get_all_text_files path_match w = Ok files -> In f files -> is_Some (tree w !! f).
Proof.
  unfold get_all_text_files. destruct (extensions (load_config w)); [|discriminate].
  intros [= <-] Hin. apply filter_In in Hin as [Hin _]. now apply keys_spec.
Qed.

Lemma scanned_NoDup (w : world) (files : list string) :
  get_all_text_files path_match w = Ok files -> List.NoDup files.
Proof.
  unfold get_all_text_files. destruct (extensions (load_config w)); [|discriminate].
  intros [= <-]. apply List.NoDup_filter, keys_NoDup.
Qed.

Lemma scan_same (w w' : world) :
  tree w' = tree w -> config_json w' = config_json w ->
  get_all_text_files path_match w' = get_all_text_files path_match w.
Proof.
  intros Ht Hc. unfold get_all_text_files, load_config. now rewrite Ht, Hc.
Qed.

Hypothesis calm : forall o, fails E o = false.

Lemma copy_all (files : list string) :
  forall (w : world) (t : gmap string bytes),
    temp w = Some t ->
    (forall f, In f files -> is_Some (tree w !! f)) ->
    for_fold files tt (fun _ rel_path => copy_to_temp E rel_path) w
    = (Ok tt, set_temp (Some (copied (tree w) files t)) w).
Proof.
  induction files as [|f files IH]; intros w t Ht Hall; cbn [for_fold copied].
  - unfold ret. rewrite <- Ht. now destruct w.
  - destruct (Hall f (or_introl eq_refl)) as [data Hf].
    unfold mbind at 1. unfold copy_to_temp at 1. unfold mbind, gets.
    rewrite Hf, calm. unfold modify. rewrite Ht. cbn [fmap option_fmap option_map].
    rewrite (IH _ (<[f := data]> t)).
    + cbn [tree set_temp]. now destruct w.
    + reflexivity.
    + intros g Hg. cbn [tree set_temp]. apply Hall. now right.
Qed.

Lemma replace_snapshot_calm (files : list string) (w : world) :
  (forall f, In f files -> is_Some (tree w !! f)) ->
  replace_snapshot E files w
  = (Ok tt, set_snapshot (Some (copied (tree w) files ∅)) (set_temp None w)).
Proof.
  intros Hall. unfold replace_snapshot. rewrite !calm.
  unfold mbind at 1. unfold modify at 1.
  unfold try_os.
  unfold mbind at 1.
  rewrite (copy_all files (set_temp (Some ∅) w) ∅); [|reflexivity|exact Hall].
  unfold mbind, modify. cbn. reflexivity.
Qed.

Lemma makedirs_calm (path : string) : fails E (MakeDirs path) = false.
Proof. apply calm. Qed.

Lemma keeps_first_loop (old : gmap string string) (v : Float.float) (l : list (string * string))
    (acc : bool) :
  preserves (keeps (fun w => (outside_logs w, snapshot w, deleted w)))
    (for_fold l acc (new_or_modified unified_diff readlines E old v)).
Proof.
  set (f := fun w => (outside_logs w, snapshot w, deleted w)).
  apply (preserves_for_fold (keeps f) (keeps_refl f) (keeps_trans f)). intros b item.
  unfold new_or_modified.
  frame (keeps f) (keeps_refl f) (keeps_trans f) ltac:(reflexivity).
Qed.

Lemma keeps_second_loop (cur : gmap string string) (v : Float.float) (l : list string)
    (acc : bool) :
  preserves (keeps (fun w => (outside_logs w, has_snapshot w)))
    (for_fold l acc (gone E cur v)).
Proof.
  set (f := fun w => (outside_logs w, has_snapshot w)).
  apply (preserves_for_fold (keeps f) (keeps_refl f) (keeps_trans f)). intros b p.
  unfold gone.
  frame (keeps f) (keeps_refl f) (keeps_trans f)
    ltac:(first [reflexivity
                | unfold keeps, f, has_snapshot; cbn;
                  match goal with |- context [snapshot ?w] => destruct (snapshot w) end;
                  reflexivity]).
Qed.

Lemma changes_set_flag (old cur : gmap string string) (v : Float.float) (p : string) :
  In p (new_files old cur) \/ In p (changed_files old cur) \/ In p (deleted_files old cur) ->
  forall w1 c1 w2 c2 w3,
    for_fold (items cur) false (new_or_modified unified_diff readlines E old v) w1 = (Ok c1, w2) ->
    for_fold (keys old) c1 (gone E cur v) w2 = (Ok c2, w3) ->
    c2 = true.
Proof.
  intros Hchange w1 c1 w2 c2 w3 H1 H2.
  assert (Hkeep1 : forall acc y, acc = true ->
            yields (eq true) (new_or_modified unified_diff readlines E old v acc y)).
  { intros acc [q h] ->. unfold new_or_modified.
    destruct (old !! q); [destruct (negb _)|]; repeat (apply yields_bind; intros ?);
      now apply yields_ret. }
  assert (Hkeep2 : forall acc y, acc = true -> yields (eq true) (gone E cur v acc y)).
  { intros acc q ->. unfold gone.
    destruct (cur !! q); repeat (apply yields_bind; intros ?); now apply yields_ret. }
  assert (Hfirst : forall q h, cur !! q = Some h ->
            (old !! q = None \/ exists oh, old !! q = Some oh /\ oh <> h) -> c1 = true).
  { intros q h Hq Hold. symmetry.
    apply (for_fold_sets _ (items cur) (q, h) (proj2 (in_items cur q h) Hq) Hkeep1)
      with (acc := false) (w := w1) (w' := w2); [|exact H1].
    intros acc. unfold new_or_modified.
    destruct Hold as [-> | (oh & -> & Hne)].
    - repeat (apply yields_bind; intros ?); now apply yields_ret.
    - apply String.eqb_neq in Hne. rewrite Hne. cbn [negb].
      repeat (apply yields_bind; intros ?); now apply yields_ret. }
  destruct Hchange as [Hn | [Hc | Hd]].
  - apply new_files_spec in Hn as [[h Hq] Hold].
    pose proof (Hfirst p h Hq (or_introl Hold)) as ->.
    symmetry. apply (yields_for_fold (eq true) (gone E cur v) (keys old)) with (acc := true) (w := w2) (w' := w3);
      [intros acc y <-; now apply Hkeep2 | reflexivity | exact H2].
  - apply changed_files_spec in Hc as (oh & h & Hold & Hq & Hne).
    assert (c1 = true) as -> by (apply (Hfirst p h Hq); right; eauto).
    symmetry. apply (yields_for_fold (eq true) (gone E cur v) (keys old)) with (acc := true) (w := w2) (w' := w3);
      [intros acc y <-; now apply Hkeep2 | reflexivity | exact H2].
  - apply deleted_files_spec in Hd as [Hold Hq]. symmetry.
    apply (for_fold_sets _ (keys old) p (proj2 (keys_spec old p) Hold) Hkeep2)
      with (acc := c1) (w := w2) (w' := w3); [|exact H2].
    intros acc. unfold gone. rewrite Hq.
    repeat (apply yields_bind; intros ?); now apply yields_ret.
Qed.

Lemma bump_version_calm (w : world) :
  bump_version E w
  = (Ok (Float.add (read_version w) Float.tenth),
     set_version_txt (Some (Float.format_1f (Float.add (read_version w) Float.tenth)))
       (set_gitnot_dir true w)).
Proof. unfold bump_version, write_version, mbind, gets. now rewrite calm. Qed.

Lemma prints_more_first_loop (old : gmap string string) (v : Float.float)
    (l : list (string * string)) (acc : bool) :
  preserves prints_more (for_fold l acc (new_or_modified unified_diff readlines E old v)).
Proof.
  apply (preserves_for_fold prints_more prints_more_refl prints_more_trans). intros b item.
  unfold new_or_modified.
  frame prints_more prints_more_refl prints_more_trans
    ltac:(first [exists []; cbn; now rewrite app_nil_r | eexists; reflexivity]).
Qed.

Lemma prints_more_second_loop (cur : gmap string string) (v : Float.float)
    (l : list string) (acc : bool) :
  preserves prints_more (for_fold l acc (gone E cur v)).
Proof.
  apply (preserves_for_fold prints_more prints_more_refl prints_more_trans). intros b p.
  unfold gone.
  frame prints_more prints_more_refl prints_more_trans
    ltac:(first [exists []; cbn; now rewrite app_nil_r | eexists; reflexivity]).
Qed.

(** The steps of a commit that has something to record, when no
    system call fails: the worlds [w2] and [w3] after the two loops, and
    the world the commit ends in. *)
Lemma commit_steps (old cur : gmap string string) (files : list string)
    (w : world) (p : string) :
  (forall f, In f files -> is_Some (tree w !! f)) ->
  In p (new_files old cur) \/ In p (changed_files old cur) \/ In p (deleted_files old cur) ->
  let v := Float.add (read_version w) Float.tenth in
  let w1 := set_version_txt (Some (Float.format_1f v)) (set_gitnot_dir true w) in
  exists c1 w2 w3,
    for_fold (items cur) false (new_or_modified unified_diff readlines E old v) w1 = (Ok c1, w2)
    /\ for_fold (keys old) c1 (gone E cur v) w2 = (Ok true, w3)
    /\ (outside_logs w2, snapshot w2, deleted w2) = (outside_logs w1, snapshot w1, deleted w1)
    /\ (outside_logs w3, has_snapshot w3) = (outside_logs w2, has_snapshot w2)
    /\ prints_more w w3
    /\ record_changes unified_diff readlines E old files cur w
       = (Ok tt,
          match snapshot w3 with
          | Some _ =>
              set_stdout
                (stdout w3 ++ [VersionBumped (Float.format_1f v); FilesTracked (length files)])
                (set_hashes_json (Holds cur)
                   (set_snapshot (Some (copied (tree w) files ∅)) (set_temp None w3)))
          | None => set_stdout (stdout w3 ++ [SnapshotMissing]) w3
          end).
Proof.
  intros Hall Hchange v w1. unfold record_changes.
  unfold mbind at 1. rewrite bump_version_calm. fold v. fold w1.
  destruct (run_returns _ _ w1
              (returns_for_fold _ (items cur)
                 (returns_new_or_modified unified_diff readlines E makedirs_calm old v) false)
              (keeps_first_loop old v (items cur) false))
    as (c1 & w2 & H1 & K1).
  unfold mbind at 1. rewrite H1.
  destruct (run_returns _ _ w2
              (returns_for_fold _ (keys old) (returns_gone E makedirs_calm cur v) c1)
              (keeps_second_loop cur v (keys old) c1))
    as (c2 & w3 & H2 & K2).
  unfold mbind at 1. rewrite H2.
  pose proof (changes_set_flag old cur v p Hchange w1 c1 w2 c2 w3 H1 H2) as ->.
  cbn [negb].
  pose proof (prints_more_first_loop old v (items cur) false w1) as P1.
  pose proof (prints_more_second_loop cur v (keys old) c1 w2) as P2.
  rewrite H1 in P1. rewrite H2 in P2. cbn [snd] in P1, P2.
  exists c1, w2, w3. repeat apply conj; try assumption; try reflexivity.
  { apply (prints_more_trans _ w1); [exists []; cbn; now rewrite app_nil_r|].
    now apply (prints_more_trans _ w2). }
  unfold keeps in K1, K2. unfold outside_logs in K1, K2.
  injection K1 as Kt1 Kd1 Kc1 Kh1 Kv1 Kp1 Ks1 Kx1.
  injection K2 as Kt2 Kd2 Kc2 Kh2 Kv2 Kp2 Ks2.
  rewrite mbind_gets. destruct (snapshot w3) as [s3|] eqn:Es3; [|reflexivity].
  unfold mbind at 1. rewrite replace_snapshot_calm.
  2:{ intros f Hf. rewrite Kt2, Kt1. now apply Hall. }
  unfold mbind at 1. unfold save_hashes. rewrite !calm. cbn [orb].
  unfold mbind, print, modify. cbn. rewrite Kt2, Kt1. cbn.
  rewrite <- app_assoc. reflexivity.
Qed.

(** A commit with something to record, when no system call fails. *)
Lemma record_changes_calm (old cur : gmap string string) (files : list string)
    (w : world) (p : string) :
  (forall f, In f files -> is_Some (tree w !! f)) ->
  has_snapshot w = true ->
  In p (new_files old cur) \/ In p (changed_files old cur) \/ In p (deleted_files old cur) ->
  exists w',
    record_changes unified_diff readlines E old files cur w = (Ok tt, w')
    /\ tree w' = tree w
    /\ config_json w' = config_json w
    /\ gitnot_dir w' = true
    /\ hashes_json w' = Holds cur
    /\ snapshot w' = Some (copied (tree w) files ∅)
    /\ version_txt w' = Some (Float.format_1f (Float.add (read_version w) Float.tenth))
    /\ temp w' = None.
Proof.
  intros Hall Hsnap Hchange.
  destruct (commit_steps old cur files w p Hall Hchange)
    as (c1 & w2 & w3 & _ & _ & K1 & K2 & _ & ->).
  unfold outside_logs in K1, K2.
  injection K1 as Kt1 Kd1 Kc1 Kh1 Kv1 Kp1 Ks1 Kx1.
  injection K2 as Kt2 Kd2 Kc2 Kh2 Kv2 Kp2 Ks2.
  assert (Hs3 : has_snapshot w3 = true).
  { rewrite Ks2. unfold has_snapshot. rewrite Ks1. exact Hsnap. }
  unfold has_snapshot in Hs3. destruct (snapshot w3) as [s3|]; [|discriminate].
  eexists. split; [reflexivity|].
  cbn. rewrite Kt2, Kt1, Kc2, Kc1, Kd2, Kd1, Kv2, Kv1. cbn. repeat split.
Qed.

Lemma update_is_record_changes (w : world) (files : list string) :
  gitnot_dir w = true ->
  get_all_text_files path_match w = Ok files ->
  update_body path_match unified_diff readlines E w
  = record_changes unified_diff readlines E (load_json ∅ (hashes_json w)) files
      (current_hashes_of E w files) w.
Proof.
  intros Hdir Hfiles. unfold update_body. rewrite mbind_gets, Hdir. cbn [negb].
  now rewrite mbind_gets, (mbind_read_ok _ _ _ _ Hfiles), mbind_gets.
Qed.

(** The world a commit leaves when there was something to record and
    no system call failed. *)
Lemma update_calm (w : world) (files : list string) (p : string) :
  gitnot_dir w = true ->
  get_all_text_files path_match w = Ok files ->
  is_Some (snapshot w) ->
  In p (new_files (load_json ∅ (hashes_json w)) (current_hashes_of E w files))
  \/ In p (changed_files (load_json ∅ (hashes_json w)) (current_hashes_of E w files))
  \/ In p (deleted_files (load_json ∅ (hashes_json w)) (current_hashes_of E w files)) ->
  let w' := update_gitnot path_match unified_diff readlines E w in
  tree w' = tree w
  /\ config_json w' = config_json w
  /\ gitnot_dir w' = true
  /\ hashes_json w' = Holds (current_hashes_of E w files)
  /\ snapshot w' = Some (copied (tree w) files ∅)
  /\ version_txt w' = Some (Float.format_1f (Float.add (read_version w) Float.tenth))
  /\ temp w' = None.
Proof.
  intros Hdir Hfiles [s Hs] Hchange. cbv zeta. unfold update_gitnot, guarded.
  rewrite (update_is_record_changes w files Hdir Hfiles).
  destruct (record_changes_calm (load_json ∅ (hashes_json w)) (current_hashes_of E w files)
              files w p) as (w' & -> & H); [| |exact Hchange|exact H].
  - intros f. now apply scanned_in_tree.
  - unfold has_snapshot. now rewrite Hs.
Qed.

End Commands.

Lemma filter_none {A : Type} (f : A -> bool) (l : list A) :
  (forall x, In x l -> f x = false) -> List.filter f l = [].
Proof.
  induction l as [|x l IH]; intros H; [reflexivity|]. cbn [List.filter].
  rewrite (H x (or_introl eq_refl)). apply IH. intros y Hy. apply H. now right.
Qed.

(** A hash index compared with itself shows no change. *)
Lemma delta_same (m : gmap string string) :
  new_files m m = [] /\ changed_files m m = [] /\ deleted_files m m = [].
Proof.
  unfold new_files, changed_files, deleted_files. repeat split; apply filter_none; intros f Hf;
    apply keys_spec in Hf as [h Hh]; rewrite ?Hh.
  - now apply bool_decide_eq_false.
  - apply negb_false_iff. now apply bool_decide_eq_true.
  - now apply bool_decide_eq_false.
Qed.

Section Composition.

Variable path_match : Ignore.path -> string -> bool.
Variable unified_diff : list string -> list string -> list string.
Variable readlines : bytes -> list string.
Variable E : env.


(** X2.  After such a commit nothing is pending: the status query run
    next prints that there are no changes, and only that. *)
Theorem status_after_commit_is_clean (w : world) (files : list string) (p : string)
    (Hcalm : forall o, fails E o = false)
    (Hdir : gitnot_dir w = true)
    (Hfiles : get_all_text_files path_match w = Ok files)
    (Hsnap : is_Some (snapshot w))
    (Hchange :
       In p (new_files (load_json ∅ (hashes_json w)) (current_hashes_of E w files))
       \/ In p (changed_files (load_json ∅ (hashes_json w)) (current_hashes_of E w files))
       \/ In p (deleted_files (load_json ∅ (hashes_json w)) (current_hashes_of E w files))) :
  let w' := update_gitnot path_match unified_diff readlines E w in
  show_status path_match E w' = set_stdout (stdout w' ++ [NoChanges]) w'.
Proof.
  destruct (update_calm path_match unified_diff readlines E Hcalm w files p
              Hdir Hfiles Hsnap Hchange) as (Ht & Hc & Hd & Hh & _).
  cbv zeta.
  set (w' := update_gitnot path_match unified_diff readlines E w) in *.
  rewrite (status_output path_match E w' files Hd).
  2:{ rewrite (scan_same path_match w w' Ht Hc). exact Hfiles. }
  rewrite Hh. cbn [load_json].
  assert (Hcur : current_hashes_of E w' files = current_hashes_of E w files)
    by (unfold current_hashes_of; now rewrite Ht).
  rewrite Hcur.
  destruct (delta_same (current_hashes_of E w files)) as (-> & -> & ->). reflexivity.
Qed.

End Composition.


Lemma status_after_commit_is_clean_witness :
  let w' := update_gitnot Ignore.posix_match (fun _ _ => []) (fun _ => [])
              (calm "2026-01-02 10:00") Scenarios.edited in
  show_status Ignore.posix_match (calm "2026-01-02 10:00") w'
  = set_stdout (stdout w' ++ [NoChanges]) w'.
Proof.
  refine (status_after_commit_is_clean Ignore.posix_match (fun _ _ => []) (fun _ => [])
            (calm "2026-01-02 10:00") Scenarios.edited ["a.txt"; "n.md"] "n.md" _ _ _ _ _).
  - intros o. reflexivity.
  - reflexivity.
  - vm_compute. reflexivity.
  - eexists. reflexivity.
  - left. vm_compute. left. reflexivity.
Defined.

End CommitFacts.

(** ** The version counter across commits *)

Module RollbackFacts.

Import OS Store Laws Effects MonadFacts DeltaFacts JournalFacts EffectFacts CommitFacts VersionFacts.

Lemma bumps_and_shows_checked :
  all_from (fun n => bumps n && shows n) 0 checked_tenths = true.
Proof. vm_compute. reflexivity. Qed.

Lemma bumped_one_decimal (n : N) :
  (n < N.of_nat checked_tenths)%N -> bumped (one_decimal n) = one_decimal (n + 1).
Proof.
  intros Hn. apply String.eqb_eq.
  pose proof (all_from_spec _ checked_tenths 0 n bumps_and_shows_checked ltac:(lia)) as H.
  now apply andb_true_iff in H.
Qed.

Lemma shown_one_decimal (n : N) :
  (n < N.of_nat checked_tenths)%N ->
  Float.format_1f (version_of_text (one_decimal n)) = one_decimal n.
Proof.
  intros Hn. apply String.eqb_eq.
  pose proof (all_from_spec _ checked_tenths 0 n bumps_and_shows_checked ltac:(lia)) as H.
  now apply andb_true_iff in H.
Qed.

Section Commands.

Variable path_match : Ignore.path -> string -> bool.
Variable unified_diff : list string -> list string -> list string.
Variable readlines : bytes -> list string.
Variable E : env.

(** The world a commit leaves when it finds nothing to record and
    both writes of [version.txt] succeed. *)
Lemma zero_change_commit (w : world) (files : list string) :
  gitnot_dir w = true ->
  get_all_text_files path_match w = Ok files ->
  new_files (load_json ∅ (hashes_json w)) (current_hashes_of E w files) = [] ->
  changed_files (load_json ∅ (hashes_json w)) (current_hashes_of E w files) = [] ->
  deleted_files (load_json ∅ (hashes_json w)) (current_hashes_of E w files) = [] ->
  (forall text, fails E (WriteVersion text) = false) ->
  update_gitnot path_match unified_diff readlines E w
  = set_stdout (stdout w ++ [NoChanges])
      (set_version_txt
         (Some (Float.format_1f
                  (Float.sub (Float.add (read_version w) Float.tenth) Float.tenth))) w).
Proof.
  intros Hdir Hfiles Hnew Hchanged Hdeleted Hwrite.
  set (old := load_json ∅ (hashes_json w)) in *.
  set (cur := current_hashes_of E w files) in *.
  unfold update_gitnot, guarded.
  rewrite (update_is_record_changes path_match unified_diff readlines E w files Hdir Hfiles).
  fold old cur. unfold record_changes.
  set (v := Float.add (read_version w) Float.tenth).
  assert (Hbump : bump_version E w
                  = (Ok v, set_version_txt (Some (Float.format_1f v)) (set_gitnot_dir true w))).
  { unfold bump_version. rewrite mbind_gets. fold v.
    unfold write_version, mbind. rewrite Hwrite. reflexivity. }
  unfold mbind at 1. rewrite Hbump.
  unfold mbind at 1. rewrite for_fold_skip.
  2:{ intros [p h] Hin acc w0. apply in_items in Hin.
      unfold new_or_modified. destruct (old !! p) as [old_hash|] eqn:Hold.
      - destruct (String.eqb_spec old_hash h) as [->|Hne]; [reflexivity|].
        exfalso. assert (Hc : In p (changed_files old cur)).
        { apply changed_files_spec. exists old_hash, h. auto. }
        rewrite Hchanged in Hc. destruct Hc.
      - exfalso. assert (Hc : In p (new_files old cur)).
        { apply new_files_spec. split; [rewrite Hin; eauto | exact Hold]. }
        rewrite Hnew in Hc. destruct Hc. }
  unfold mbind at 1. rewrite for_fold_skip.
  2:{ intros p Hin acc w0. apply keys_spec in Hin.
      unfold gone. destruct (cur !! p) eqn:Hcur; [reflexivity|].
      exfalso. assert (Hc : In p (deleted_files old cur)).
      { apply deleted_files_spec. auto. }
      rewrite Hdeleted in Hc. destruct Hc. }
  cbn [negb]. unfold mbind, write_version, print, modify. rewrite Hwrite.
  destruct w. cbn in *. subst. reflexivity.
Qed.

(** X3.  When [version.txt] is missing or does not hold a number,
    [read_version] gives [0.0]: the version query shows [0.0], and a
    commit that finds nothing to record leaves [version.txt] holding
    [0.0], since it writes [0.1] and then [0.1 - 0.1]. *)
Theorem unreadable_version_becomes_zero (w : world) (files : list string)
    (Hdir : gitnot_dir w = true)
    (Hfiles : get_all_text_files path_match w = Ok files)
    (Hnew : new_files (load_json ∅ (hashes_json w)) (current_hashes_of E w files) = [])
    (Hchanged : changed_files (load_json ∅ (hashes_json w)) (current_hashes_of E w files) = [])
    (Hdeleted : deleted_files (load_json ∅ (hashes_json w)) (current_hashes_of E w files) = [])
    (Hwrite : forall text, fails E (WriteVersion text) = false)
    (Hversion : version_txt w = None
                \/ exists text e, version_txt w = Some text
                                  /\ Float.of_str (Str.strip text) = Raise e) :
  update_gitnot path_match unified_diff readlines E w
  = set_stdout (stdout w ++ [NoChanges]) (set_version_txt (Some "0.0") w)
  /\ show_version w = set_stdout (stdout w ++ [CurrentVersion "0.0"]) w.
Proof.
  assert (Hzero : read_version w = Float.zero).
  { unfold read_version, version_of_text.
    destruct Hversion as [-> | (text & e & -> & ->)]; reflexivity. }
  split.
  - rewrite (zero_change_commit w files Hdir Hfiles Hnew Hchanged Hdeleted Hwrite), Hzero.
    reflexivity.
  - unfold show_version. rewrite Hzero. reflexivity.
Qed.

(** X4.  For a [version.txt] holding a version from [0.0] to [999.9] as
    [write_version] prints it, [bump_version] returns and writes the
    next tenth exactly: no rounding error of the float addition shows in
    the text. *)
Theorem bump_writes_next_tenth (w : world) (n : N)
    (Hversion : version_txt w = Some (one_decimal n))
    (Hn : (n < N.of_nat checked_tenths)%N)
    (Hwrite : forall text, fails E (WriteVersion text) = false) :
  exists v,
    bump_version E w
    = (Ok v, set_version_txt (Some (one_decimal (n + 1))) (set_gitnot_dir true w))
    /\ Float.format_1f v = one_decimal (n + 1).
Proof.
  exists (Float.add (read_version w) Float.tenth).
  assert (Hv : Float.format_1f (Float.add (read_version w) Float.tenth) = one_decimal (n + 1)).
  { unfold read_version. rewrite Hversion. exact (bumped_one_decimal n Hn). }
  split; [|exact Hv].
  unfold bump_version, write_version, mbind, gets. rewrite Hwrite, Hv. reflexivity.
Qed.

(** X5.  For the same versions the version query prints the text that
    [version.txt] holds. *)
Theorem shown_version_is_stored_version (w : world) (n : N)
    (Hversion : version_txt w = Some (one_decimal n))
    (Hn : (n < N.of_nat checked_tenths)%N) :
  show_version w = set_stdout (stdout w ++ [CurrentVersion (one_decimal n)]) w.
Proof.
  unfold show_version, read_version. now rewrite Hversion, (shown_one_decimal n Hn).
Qed.

(** X6.  A commit is idempotent.  After a commit that recorded changes (no
    system call failing, the new version at most [999.9]), [version.txt]
    holds the next tenth, and a second commit changes nothing at all: it
    only prints that there are no changes. *)
Theorem second_commit_changes_nothing (w : world) (files : list string) (p : string) (n : N)
    (Hcalm : forall o, fails E o = false)
    (Hdir : gitnot_dir w = true)
    (Hfiles : get_all_text_files path_match w = Ok files)
    (Hsnap : is_Some (snapshot w))
    (Hchange :
       In p (new_files (load_json ∅ (hashes_json w)) (current_hashes_of E w files))
       \/ In p (changed_files (load_json ∅ (hashes_json w)) (current_hashes_of E w files))
       \/ In p (deleted_files (load_json ∅ (hashes_json w)) (current_hashes_of E w files)))
    (Hversion : version_txt w = Some (one_decimal n))
    (Hn : (n + 1 < N.of_nat checked_tenths)%N) :
  let w' := update_gitnot path_match unified_diff readlines E w in
  version_txt w' = Some (one_decimal (n + 1))
  /\ update_gitnot path_match unified_diff readlines E w'
     = set_stdout (stdout w' ++ [NoChanges]) w'.
Proof.
  destruct (update_calm path_match unified_diff readlines E Hcalm w files p
              Hdir Hfiles Hsnap Hchange) as (Ht & Hc & Hd & Hh & _ & Hv & _).
  cbv zeta.
  set (w' := update_gitnot path_match unified_diff readlines E w) in *.
  assert (Hv' : version_txt w' = Some (one_decimal (n + 1))).
  { rewrite Hv. f_equal. unfold read_version. rewrite Hversion.
    apply bumped_one_decimal. lia. }
  split; [exact Hv'|].
  assert (Hcur : current_hashes_of E w' files = current_hashes_of E w files)
    by (unfold current_hashes_of; now rewrite Ht).
  destruct (delta_same (current_hashes_of E w files)) as (Dn & Dc & Dd).
  rewrite (zero_change_commit w' files Hd).
  - unfold read_version. rewrite Hv'.
    change (Float.format_1f _) with (rolled_back (one_decimal (n + 1))).
    rewrite (rolled_back_one_decimal (n + 1) Hn). rewrite <- Hv'.
    now destruct w'.
  - rewrite (scan_same path_match w w' Ht Hc). exact Hfiles.
  - rewrite Hh, Hcur. exact Dn.
  - rewrite Hh, Hcur. exact Dc.
  - rewrite Hh, Hcur. exact Dd.
  - intros text. apply Hcalm.
Qed.

End Commands.

Lemma unreadable_version_becomes_zero_witness :
  let w := Scenarios.settled "one" in
  update_gitnot Ignore.posix_match (fun _ _ => []) (fun _ => []) (calm "2026-01-02 10:00") w
  = set_stdout (stdout w ++ [NoChanges]) (set_version_txt (Some "0.0") w)
  /\ show_version w = set_stdout (stdout w ++ [CurrentVersion "0.0"]) w.
Proof.
  refine (unreadable_version_becomes_zero Ignore.posix_match (fun _ _ => []) (fun _ => [])
            (calm "2026-01-02 10:00") (Scenarios.settled "one") ["a.txt"] _ _ _ _ _ _ _).
  - reflexivity.
  - vm_compute. reflexivity.
  - vm_compute. reflexivity.
  - vm_compute. reflexivity.
  - vm_compute. reflexivity.
  - intros text. reflexivity.
  - right. exists "one", ValueError. split; [reflexivity | vm_compute; reflexivity].
Defined.

Lemma bump_writes_next_tenth_witness :
  exists v,
    bump_version (calm "2026-01-02 10:00") (Scenarios.settled "0.9")
    = (Ok v, set_version_txt (Some (one_decimal (9 + 1)))
               (set_gitnot_dir true (Scenarios.settled "0.9")))
    /\ Float.format_1f v = one_decimal (9 + 1).
Proof.
  refine (bump_writes_next_tenth (calm "2026-01-02 10:00") (Scenarios.settled "0.9") 9 _ _ _).
  - vm_compute. reflexivity.
  - vm_compute. reflexivity.
  - intros text. reflexivity.
Defined.

Lemma shown_version_is_stored_version_witness :
  show_version (Scenarios.settled "12.3")
  = set_stdout (stdout (Scenarios.settled "12.3") ++ [CurrentVersion (one_decimal 123)])
      (Scenarios.settled "12.3").
Proof.
  refine (shown_version_is_stored_version (Scenarios.settled "12.3") 123 _ _).
  - vm_compute. reflexivity.
  - vm_compute. reflexivity.
Defined.

Lemma second_commit_changes_nothing_witness :
  let w' := update_gitnot Ignore.posix_match (fun _ _ => []) (fun _ => [])
              (calm "2026-01-02 10:00") Scenarios.edited in
  version_txt w' = Some (one_decimal (1 + 1))
  /\ update_gitnot Ignore.posix_match (fun _ _ => []) (fun _ => [])
       (calm "2026-01-02 10:00") w'
     = set_stdout (stdout w' ++ [NoChanges]) w'.
Proof.
  refine (second_commit_changes_nothing Ignore.posix_match (fun _ _ => []) (fun _ => [])
            (calm "2026-01-02 10:00") Scenarios.edited ["a.txt"; "n.md"] "n.md" 1
            _ _ _ _ _ _ _).
  - intros o. reflexivity.
  - reflexivity.
  - vm_compute. reflexivity.
  - eexists. reflexivity.
  - left. vm_compute. left. reflexivity.
  - vm_compute. reflexivity.
  - vm_compute. reflexivity.
Defined.

End RollbackFacts.

(** ** Broken configuration, missing snapshot, deleted files *)

Module EdgeFacts.

Import OS Store Laws Effects MonadFacts DeltaFacts JournalFacts EffectFacts CommitFacts.

Section Commands.

Variable path_match : Ignore.path -> string -> bool.
Variable unified_diff : list string -> list string -> list string.
Variable readlines : bytes -> list string.
Variable E : env.


Hypothesis calm : forall o, fails E o = false.

(** X8.  When the snapshot folder is missing and there is something to
    record, the commit stops at the warning: [hashes.json] is not
    rewritten and no snapshot is made, but the version bump made at the
    start is kept. *)
Theorem missing_snapshot_keeps_the_bump (w : world) (files : list string) (p : string)
    (Hdir : gitnot_dir w = true)
    (Hfiles : get_all_text_files path_match w = Ok files)
    (Hsnap : snapshot w = None)
    (Hchange :
       In p (new_files (load_json ∅ (hashes_json w)) (current_hashes_of E w files))
       \/ In p (changed_files (load_json ∅ (hashes_json w)) (current_hashes_of E w files))
       \/ In p (deleted_files (load_json ∅ (hashes_json w)) (current_hashes_of E w files))) :
  let w' := update_gitnot path_match unified_diff readlines E w in
  (exists out, stdout w' = stdout w ++ out ++ [SnapshotMissing])
  /\ hashes_json w' = hashes_json w
  /\ snapshot w' = None
  /\ version_txt w' = Some (Float.format_1f (Float.add (read_version w) Float.tenth)).
Proof.
  cbv zeta. unfold update_gitnot, guarded.
  rewrite (update_is_record_changes path_match unified_diff readlines E w files Hdir Hfiles).
  destruct (commit_steps unified_diff readlines E calm (load_json ∅ (hashes_json w))
              (current_hashes_of E w files) files w p)
    as (c1 & w2 & w3 & _ & _ & K1 & K2 & [out Hout] & ->);
    [intros f; now apply (scanned_in_tree path_match w files) | exact Hchange |].
  unfold outside_logs in K1, K2.
  injection K1 as Kt1 Kd1 Kc1 Kh1 Kv1 Kp1 Ks1 Kx1.
  injection K2 as Kt2 Kd2 Kc2 Kh2 Kv2 Kp2 Ks2.
  assert (Hs3 : has_snapshot w3 = false).
  { rewrite Ks2. unfold has_snapshot. rewrite Ks1. cbn. now rewrite Hsnap. }
  unfold has_snapshot in Hs3. destruct (snapshot w3) as [s3|] eqn:Es3; [discriminate|].
  cbn. rewrite Es3, Kh2, Kh1, Kv2, Kv1, Hout. cbn. repeat split.
  exists out. now rewrite app_assoc.
Qed.

(** What one round of the second loop does to the snapshot and to
    [.gitnot/deleted]. *)
Lemma gone_moves (cur : gmap string string) (v : Float.float) (acc : bool)
    (p : string) (w : world) :
  let w' := (gone E cur v acc p w).2 in
  match cur !! p, snapshot w ≫= (fun files => files !! p) with
  | None, Some data =>
      snapshot w' = delete p <$> snapshot w /\ deleted w' = <[p := data]> (deleted w)
  | _, _ => snapshot w' = snapshot w /\ deleted w' = deleted w
  end.
Proof.
  cbv zeta. unfold gone. destruct (cur !! p) as [h|].
  { split; reflexivity. }
  cbv [mbind note modify gets safe_makedirs try_os append_entry append_text lift print ret
         raise].
  rewrite !calm. cbn [snapshot set_journal].
  destruct (snapshot w ≫= _) as [data|] eqn:Hsnap.
  - cbn. split; reflexivity.
  - rewrite ?calm. cbn. split; reflexivity.
Qed.

Lemma for_fold_cons_snd {A B : Type} (body : B -> A -> M B) (x : A) (l : list A)
    (acc : B) (w : world) :
  returns (body acc x) ->
  exists acc', (for_fold (x :: l) acc body w).2
               = (for_fold l acc' body (body acc x w).2).2.
Proof.
  intros Hr. cbn [for_fold]. unfold mbind. destruct (Hr w) as [a Ha].
  destruct (body acc x w) as [r w1]. cbn in Ha. subst r. now exists a.
Qed.

(** Once a file is in [.gitnot/deleted] and out of the snapshot, the
    rest of the loop leaves it there. *)
Lemma moved_stays (cur : gmap string string) (v : Float.float) (q : string) (data : bytes)
    (l : list string) :
  forall (acc : bool) (w : world),
    deleted w !! q = Some data ->
    snapshot w ≫= (fun files => files !! q) = None ->
    let w' := (for_fold l acc (gone E cur v) w).2 in
    deleted w' !! q = Some data /\ snapshot w' ≫= (fun files => files !! q) = None.
Proof.
  induction l as [|p l IH]; intros acc w Hd Hs; [split; assumption|].
  cbv zeta.
  destruct (for_fold_cons_snd (gone E cur v) p l acc w (returns_gone E (makedirs_calm E calm) cur v acc p))
    as [acc' ->].
  pose proof (gone_moves cur v acc p w) as Hstep. cbv zeta in Hstep.
  apply IH.
  - destruct (cur !! p); [destruct Hstep as [_ ->]; exact Hd|].
    destruct (snapshot w ≫= (fun files => files !! p)) as [d'|] eqn:Hp;
      destruct Hstep as [_ ->]; [|exact Hd].
    rewrite lookup_insert_ne; [exact Hd|]. intros ->. congruence.
  - destruct (cur !! p); [destruct Hstep as [-> _]; exact Hs|].
    destruct (snapshot w ≫= (fun files => files !! p)) as [d'|] eqn:Hp;
      destruct Hstep as [-> _]; [|exact Hs].
    destruct (snapshot w) as [files|]; [|reflexivity]. cbn in *.
    destruct (decide (p = q)) as [->|Hne]; [apply lookup_delete_eq|].
    now rewrite lookup_delete_ne.
Qed.

Lemma second_loop_moves (cur : gmap string string) (v : Float.float) (q : string)
    (data : bytes) (l : list string) :
  cur !! q = None ->
  forall (acc : bool) (w : world),
    In q l ->
    snapshot w ≫= (fun files => files !! q) = Some data ->
    let w' := (for_fold l acc (gone E cur v) w).2 in
    deleted w' !! q = Some data /\ snapshot w' ≫= (fun files => files !! q) = None.
Proof.
  intros Hq. induction l as [|p l IH]; intros acc w Hin Hs; [destruct Hin|].
  cbv zeta.
  destruct (for_fold_cons_snd (gone E cur v) p l acc w (returns_gone E (makedirs_calm E calm) cur v acc p))
    as [acc' ->].
  pose proof (gone_moves cur v acc p w) as Hstep. cbv zeta in Hstep.
  destruct (decide (p = q)) as [->|Hne].
  - rewrite Hq, Hs in Hstep. destruct Hstep as [Hsnap Hdel].
    apply moved_stays.
    + rewrite Hdel. apply lookup_insert_eq.
    + rewrite Hsnap. destruct (snapshot w) as [files|]; [|reflexivity]. cbn.
      apply lookup_delete_eq.
  - apply IH.
    + destruct Hin as [->|Hin]; [contradiction | exact Hin].
    + destruct (cur !! p); [destruct Hstep as [-> _]; exact Hs|].
      destruct (snapshot w ≫= (fun files => files !! p)) as [d'|] eqn:Hp;
        destruct Hstep as [-> _]; [|exact Hs].
      destruct (snapshot w) as [files|]; [|discriminate]. cbn in *.
      now rewrite lookup_delete_ne.
Qed.

Lemma current_hashes_lookup (w : world) (files : list string) (f : string) :
  In f files -> is_Some (current_hashes_of E w files !! f).
Proof.
  unfold current_hashes_of. induction files as [|g files IH]; intros Hin; [destruct Hin|].
  cbn [List.map list_to_map]. cbn.
  destruct (decide (g = f)) as [->|Hne].
  - rewrite lookup_insert_eq. eauto.
  - rewrite lookup_insert_ne by exact Hne. apply IH. destruct Hin; [contradiction|assumption].
Qed.

(** X9.  A file that the hash index lists and the work tree no longer has
    is moved, with the bytes of its snapshot copy, to [.gitnot/deleted]
    under its relative path; the new snapshot does not hold it. *)
Theorem deleted_file_is_kept (w : world) (files : list string) (q : string)
    (s : gmap string bytes) (data : bytes)
    (Hdir : gitnot_dir w = true)
    (Hfiles : get_all_text_files path_match w = Ok files)
    (Hsnap : snapshot w = Some s)
    (Hdata : s !! q = Some data)
    (Hgone : In q (deleted_files (load_json ∅ (hashes_json w)) (current_hashes_of E w files))) :
  let w' := update_gitnot path_match unified_diff readlines E w in
  deleted w' !! q = Some data
  /\ exists s', snapshot w' = Some s' /\ s' !! q = None.
Proof.
  cbv zeta. unfold update_gitnot, guarded.
  rewrite (update_is_record_changes path_match unified_diff readlines E w files Hdir Hfiles).
  set (old := load_json ∅ (hashes_json w)) in *.
  set (cur := current_hashes_of E w files) in *.
  assert (Hall : forall f, In f files -> is_Some (tree w !! f))
    by (intros f; now apply (scanned_in_tree path_match w files)).
  destruct (commit_steps unified_diff readlines E calm old cur files w q Hall)
    as (c1 & w2 & w3 & _ & H2 & K1 & K2 & _ & ->); [now right; right|].
  apply deleted_files_spec in Hgone as [Hold Hcur].
  unfold outside_logs in K1, K2.
  injection K1 as Kt1 Kd1 Kc1 Kh1 Kv1 Kp1 Ks1 Kx1.
  injection K2 as Kt2 Kd2 Kc2 Kh2 Kv2 Kp2 Ks2.
  cbn [snapshot set_version_txt set_gitnot_dir] in Ks1.
  destruct (second_loop_moves cur (Float.add (read_version w) Float.tenth) q data (keys old)
              Hcur c1 w2) as [Hd Hs].
  { now apply keys_spec. }
  { rewrite Ks1, Hsnap. exact Hdata. }
  rewrite H2 in Hd, Hs. cbn [snd] in Hd, Hs.
  assert (Hs3 : has_snapshot w3 = true).
  { rewrite Ks2. unfold has_snapshot. now rewrite Ks1, Hsnap. }
  unfold has_snapshot in Hs3. destruct (snapshot w3) as [s3|]; [|discriminate].
  cbn. split; [exact Hd|]. eexists. split; [reflexivity|].
  destruct (lookup_copied (tree w) files ∅ q Hall) as [_ Hout].
  rewrite Hout; [apply lookup_empty|].
  intros Hin. destruct (current_hashes_lookup w files q Hin) as [h Hh].
  fold cur in Hh. congruence.
Qed.

End Commands.

Lemma deleted_file_is_kept_witness :
  let w' := update_gitnot Ignore.posix_match (fun _ _ => []) (fun _ => [])
              (calm "2026-01-02 10:00") Scenarios.edited in
  deleted w' !! "src/b.py" = Some (Scenarios.text "x")
  /\ exists s', snapshot w' = Some s' /\ s' !! "src/b.py" = None.
Proof.
  refine (deleted_file_is_kept Ignore.posix_match (fun _ _ => []) (fun _ => [])
            (calm "2026-01-02 10:00") _ Scenarios.edited ["a.txt"; "n.md"] "src/b.py"
            {[ "a.txt" := Scenarios.text "hello"; "src/b.py" := Scenarios.text "x" ]}
            (Scenarios.text "x") _ _ _ _ _).
  - intros o. reflexivity.
  - reflexivity.
  - vm_compute. reflexivity.
  - reflexivity.
  - vm_compute. reflexivity.
  - vm_compute. left. reflexivity.
Defined.

Lemma missing_snapshot_keeps_the_bump_witness :
  let w := set_snapshot None Scenarios.edited in
  let w' := update_gitnot Ignore.posix_match (fun _ _ => []) (fun _ => [])
              (calm "2026-01-02 10:00") w in
  (exists out, stdout w' = stdout w ++ out ++ [SnapshotMissing])
  /\ hashes_json w' = hashes_json w
  /\ snapshot w' = None
  /\ version_txt w' = Some (Float.format_1f (Float.add (read_version w) Float.tenth)).
Proof.
  refine (missing_snapshot_keeps_the_bump Ignore.posix_match (fun _ _ => []) (fun _ => [])
            (calm "2026-01-02 10:00") _ (set_snapshot None Scenarios.edited)
            ["a.txt"; "n.md"] "n.md" _ _ _ _).
  - intros o. reflexivity.
  - reflexivity.
  - vm_compute. reflexivity.
  - reflexivity.
  - left. vm_compute. left. reflexivity.
Defined.


End EdgeFacts.

(** ** Initialisation *)

Module InitFacts.

Import OS Store Laws Effects MonadFacts DeltaFacts JournalFacts EffectFacts CommitFacts
  VersionFacts RollbackFacts.

Section Commands.

Variable path_match : Ignore.path -> string -> bool.
Variable unified_diff : list string -> list string -> list string.
Variable readlines : bytes -> list string.
Variable E : env.

Hypothesis calm : forall o, fails E o = false.

(** One round of the loop of [init_gitnot], for a file of the tree. *)
Lemma seed_calm (hashes : gmap string string) (f : string) (data : bytes) (w : world) :
  tree w !! f = Some data ->
  seed E hashes f w
  = (Ok (<[f := Hasher.hash_file E (tree w) f]> hashes),
     set_changelogs
       (<[f := "# " +:+ f +:+ " — original v0.1" +:+ Diff.nl]>
          (<[f := ""]> (changelogs w)))
       (set_snapshot (insert f data <$> snapshot w) w)).
Proof.
  intros Hf.
  cbv [seed mbind modify gets safe_makedirs try_os write_changelog print ret raise].
  rewrite !calm. rewrite Hf. rewrite ?calm. cbn. reflexivity.
Qed.

(** The loop of [init_gitnot] over files of the tree. *)
Lemma seed_all (files : list string) :
  forall (hashes : gmap string string) (w : world),
    (forall f, In f files -> is_Some (tree w !! f)) ->
    exists w',
      for_fold files hashes (seed E) w
      = (Ok (fold_left (fun h f => <[f := Hasher.hash_file E (tree w) f]> h) files hashes), w')
      /\ (tree w', gitnot_dir w', config_json w', deleted w', hashes_json w', version_txt w',
          temp w', stdout w', journal w')
         = (tree w, gitnot_dir w, config_json w, deleted w, hashes_json w, version_txt w,
            temp w, stdout w, journal w)
      /\ snapshot w' = copied (tree w) files <$> snapshot w
      /\ forall p,
           (In p files ->
            changelogs w' !! p = Some ("# " +:+ p +:+ " — original v0.1" +:+ Diff.nl))
           /\ (~ In p files -> changelogs w' !! p = changelogs w !! p).
Proof.
  induction files as [|f files IH]; intros hashes w Hall.
  - exists w. cbn [for_fold fold_left copied]. split; [reflexivity|].
    split; [reflexivity|]. split; [now destruct (snapshot w)|].
    intros p. split; [intros [] | reflexivity].
  - destruct (Hall f (or_introl eq_refl)) as [data Hf].
    cbn [for_fold fold_left copied]. unfold mbind. rewrite (seed_calm hashes f data w Hf).
    rewrite Hf.
    match goal with
    | |- context [for_fold files ?h (seed E) ?w1] =>
        destruct (IH h w1) as (w' & Hrun & Hsame & Hsnap & Hlogs)
    end.
    { intros g Hg. cbn. apply Hall. now right. }
    exists w'. cbn [tree set_changelogs set_snapshot] in Hrun. rewrite Hrun.
    split; [reflexivity|]. split; [exact Hsame|]. split.
    + rewrite Hsnap. cbn. now destruct (snapshot w).
    + intros p. destruct (Hlogs p) as [Hin Hout]. cbn [changelogs set_changelogs] in Hout.
      destruct (in_dec string_dec p files) as [Hp|Hp].
      * split; [intros _; now apply Hin|]. intros Hno. exfalso. apply Hno. now right.
      * split.
        -- intros [->|Hp']; [|contradiction]. rewrite (Hout Hp). apply lookup_insert_eq.
        -- intros Hno. rewrite (Hout Hp).
           assert (f <> p) by (intros ->; apply Hno; now left).
           now rewrite !lookup_insert_ne.
Qed.

(** The dictionary the loop builds is the one a commit computes. *)
Lemma seeded_hashes (work : gmap string bytes) (files : list string) :
  List.NoDup files ->
  forall hashes : gmap string string,
    (forall f, In f files -> hashes !! f = None) ->
    fold_left (fun h f => <[f := Hasher.hash_file E work f]> h) files hashes
    = list_to_map (List.map (fun f => (f, Hasher.hash_file E work f)) files) ∪ hashes.
Proof.
  induction 1 as [|f files Hf Hnd IH]; intros hashes Hfree; cbn [fold_left List.map list_to_map].
  - symmetry. apply (left_id_L ∅ (∪)).
  - rewrite IH.
    + cbn. rewrite <- insert_union_r.
      * now rewrite insert_union_l.
      * apply not_elem_of_list_to_map_1. intros Hin.
        apply list_elem_of_fmap in Hin as ([g h] & -> & Hin).
        apply list_elem_of_In, in_map_iff in Hin as (g' & [= <- _] & Hin). contradiction.
    + intros g Hg. rewrite lookup_insert_ne; [apply Hfree; now right|].
      intros ->. contradiction.
Qed.

Lemma format_tenth : Float.format_1f Float.tenth = "0.1".
Proof. vm_compute. reflexivity. Qed.

(** The world [init_gitnot] leaves when no system call fails. *)
Lemma init_calm (w : world) (files : list string) :
  get_all_text_files path_match (set_config_json (Holds DEFAULT_CONFIG) w) = Ok files ->
  let w' := init_gitnot path_match E w in
  (tree w', deleted w', temp w', journal w') = (tree w, deleted w, temp w, journal w)
  /\ gitnot_dir w' = true
  /\ config_json w' = Holds DEFAULT_CONFIG
  /\ version_txt w' = Some "0.1"
  /\ hashes_json w' = Holds (current_hashes_of E w files)
  /\ snapshot w' = Some (copied (tree w) files (default ∅ (snapshot w)))
  /\ (forall p,
        (In p files ->
         changelogs w' !! p = Some ("# " +:+ p +:+ " — original v0.1" +:+ Diff.nl))
        /\ (~ In p files -> changelogs w' !! p = changelogs w !! p))
  /\ stdout w' = stdout w ++ [Initialized; Tracking (length files)].
Proof.
  intros Hfiles. cbv zeta.
  assert (Hall : forall f, In f files -> is_Some (tree w !! f)).
  { intros f Hf. apply (scanned_in_tree path_match _ files f Hfiles Hf). }
  pose proof (scanned_NoDup path_match _ files Hfiles) as Hnd.
  unfold init_gitnot, guarded, init_body, save_config, save_hashes, write_version.
  rewrite !calm. cbn [orb]. rewrite format_tenth.
  cbv [mbind modify ret print].
  match goal with
  | |- context [get_all_text_files path_match ?w2] =>
      replace (get_all_text_files path_match w2) with (Ok files : result (list string))
  end.
  match goal with
  | |- context [for_fold files ∅ (seed E) ?w2] =>
      destruct (seed_all files ∅ w2) as (w3 & Hrun & Hsame & Hsnap & Hlogs);
        [exact Hall|rewrite Hrun]
  end.
  cbn [tree set_config_json set_gitnot_dir set_snapshot] in *.
  rewrite (seeded_hashes (tree w) files Hnd ∅) by (intros; apply lookup_empty).
  rewrite (right_id_L ∅ (∪)).
  injection Hsame as Ht Hg Hc Hd Hh Hv Htemp Hout Hj.
  cbn [tree deleted temp journal gitnot_dir config_json version_txt hashes_json snapshot
       changelogs stdout set_stdout set_version_txt set_gitnot_dir set_hashes_json
       set_config_json set_snapshot option_fmap option_map fmap] in *.
  rewrite Ht, Hd, Htemp, Hj, Hout, Hsnap.
  repeat apply conj; try reflexivity.
  - exact Hc.
  - exact Hlogs.
  - rewrite <- app_assoc. cbn [app]. do 4 f_equal.
    rewrite map_size_list_to_map; [apply length_map|].
    apply NoDup_ListNoDup.
    replace ((map (fun f => (f, Hasher.hash_file E (tree w) f)) files).*1) with files;
      [exact Hnd|].
    clear. induction files as [|f files IH]; [reflexivity|]. cbn. now rewrite <- IH.
Qed.

Lemma rolled_back_tenth : rolled_back "0.1" = "0.1".
Proof. vm_compute. reflexivity. Qed.

(** X10.  [init_gitnot], with no system call failing: the configuration is
    reset to the defaults, [version.txt] holds [0.1], the hash index
    holds the digest of every file the scan finds under the default
    configuration, the snapshot holds those files with their bytes (what
    else was in the snapshot folder stays), each of their changelogs
    holds the single original-version line (other changelogs are left
    alone), and the two closing lines are printed with the number of
    files. *)
Theorem init_records_tree (w : world) (files : list string)
    (Hfiles : get_all_text_files path_match (set_config_json (Holds DEFAULT_CONFIG) w)
              = Ok files) :
  let w' := init_gitnot path_match E w in
  gitnot_dir w' = true
  /\ config_json w' = Holds DEFAULT_CONFIG
  /\ version_txt w' = Some "0.1"
  /\ hashes_json w' = Holds (current_hashes_of E w files)
  /\ (exists s, snapshot w' = Some s
                /\ forall f, (In f files -> s !! f = tree w !! f)
                             /\ (~ In f files -> s !! f = default ∅ (snapshot w) !! f))
  /\ (forall f,
        (In f files ->
         changelogs w' !! f = Some ("# " +:+ f +:+ " — original v0.1" +:+ Diff.nl))
        /\ (~ In f files -> changelogs w' !! f = changelogs w !! f))
  /\ stdout w' = stdout w ++ [Initialized; Tracking (length files)].
Proof.
  destruct (init_calm w files Hfiles) as (_ & Hd & Hc & Hv & Hh & Hs & Hl & Ho).
  cbv zeta. repeat apply conj; try assumption.
  eexists. split; [exact Hs|]. intros f.
  apply lookup_copied. intros g Hg.
  apply (scanned_in_tree path_match _ files g Hfiles Hg).
Qed.

(** X11.  Nothing is pending after [init_gitnot]: the status query prints
    that there are no changes, and a commit changes nothing
    ([version.txt] still holds [0.1]) and prints the same. *)
Theorem nothing_pending_after_init (w : world) (files : list string)
    (Hfiles : get_all_text_files path_match (set_config_json (Holds DEFAULT_CONFIG) w)
              = Ok files) :
  let w' := init_gitnot path_match E w in
  show_status path_match E w' = set_stdout (stdout w' ++ [NoChanges]) w'
  /\ update_gitnot path_match unified_diff readlines E w'
     = set_stdout (stdout w' ++ [NoChanges]) w'.
Proof.
  destruct (init_calm w files Hfiles) as (Hsame & Hd & Hc & Hv & Hh & _).
  injection Hsame as Ht _ _ _.
  cbv zeta. set (w' := init_gitnot path_match E w) in *.
  assert (Hscan : get_all_text_files path_match w' = Ok files).
  { rewrite <- Hfiles. apply scan_same; [exact Ht | exact Hc]. }
  assert (Hcur : current_hashes_of E w' files = current_hashes_of E w files)
    by (unfold current_hashes_of; now rewrite Ht).
  destruct (delta_same (current_hashes_of E w files)) as (Dn & Dc & Dd).
  split.
  - rewrite (status_output path_match E w' files Hd Hscan), Hh, Hcur. cbn [load_json].
    now rewrite Dn, Dc, Dd.
  - rewrite (zero_change_commit path_match unified_diff readlines E w' files Hd Hscan).
    + unfold read_version. rewrite Hv.
      change (Float.format_1f _) with (rolled_back "0.1").
      rewrite rolled_back_tenth, <- Hv. now destruct w'.
    + rewrite Hh, Hcur. exact Dn.
    + rewrite Hh, Hcur. exact Dc.
    + rewrite Hh, Hcur. exact Dd.
    + intros text. apply calm.
Qed.

End Commands.

Lemma init_records_tree_witness :
  let w := Examples.fresh in
  let E := calm "2026-01-02 10:00" in
  let w' := init_gitnot Ignore.posix_match E w in
  version_txt w' = Some "0.1"
  /\ hashes_json w' = Holds (current_hashes_of E w ["src/b.py"; "a.txt"])
  /\ stdout w' = [Initialized; Tracking 2].
Proof.
  destruct (init_records_tree Ignore.posix_match (calm "2026-01-02 10:00")
              (fun o => eq_refl) Examples.fresh ["src/b.py"; "a.txt"])
    as (_ & _ & Hv & Hh & _ & _ & Ho).
  - vm_compute. reflexivity.
  - cbv zeta. repeat split; assumption.
Defined.

Lemma nothing_pending_after_init_witness :
  let E := calm "2026-01-02 10:00" in
  let w' := init_gitnot Ignore.posix_match E Examples.fresh in
  show_status Ignore.posix_match E w' = set_stdout (stdout w' ++ [NoChanges]) w'
  /\ update_gitnot Ignore.posix_match (fun _ _ => []) (fun _ => []) E w'
     = set_stdout (stdout w' ++ [NoChanges]) w'.
Proof.
  refine (nothing_pending_after_init Ignore.posix_match (fun _ _ => []) (fun _ => [])
            (calm "2026-01-02 10:00") (fun o => eq_refl) Examples.fresh
            ["src/b.py"; "a.txt"] _).
  vm_compute. reflexivity.
Defined.

End InitFacts.

(** ** Commands that only print, and the entry point *)

Module ReadOnlyFacts.

Import OS Store Laws Effects Cli MonadFacts EffectFacts.

Section Commands.

Variable path_match : Ignore.path -> string -> bool.
Variable unified_diff : list string -> list string -> list string.
Variable readlines : bytes -> list string.
Variable E : env.

(** X12.  The status query and the version query only print: whatever the
    environment lets fail, the world after them is the world before with
    lines added to the output. *)
Theorem status_only_prints (w : world) :
  only_prints w (show_status path_match E w)
  /\ only_prints w (show_version w).
Proof.
  split; [apply only_prints_show_status|].
  unfold show_version. apply only_prints_stdout.
Qed.

Lemma keeps_update_body :
  preserves (keeps (fun w => (tree w, config_json w)))
    (update_body path_match unified_diff readlines E).
Proof.
  set (f := fun w => (tree w, config_json w)).
  unfold update_body, record_changes.
  frame (keeps f) (keeps_refl f) (keeps_trans f) ltac:(reflexivity).
  - unfold new_or_modified.
    frame (keeps f) (keeps_refl f) (keeps_trans f) ltac:(reflexivity).
  - unfold gone.
    frame (keeps f) (keeps_refl f) (keeps_trans f) ltac:(reflexivity).
Qed.

Lemma keeps_init_body :
  preserves (keeps (fun w => (tree w, deleted w))) (init_body path_match E).
Proof.
  set (f := fun w => (tree w, deleted w)).
  unfold init_body.
  frame (keeps f) (keeps_refl f) (keeps_trans f) ltac:(reflexivity).
Qed.

(** X13.  Neither the commit nor [init_gitnot] writes a file of the work
    tree, under any pattern of failures; the commit does not write
    [config.json] and [init_gitnot] does not touch [.gitnot/deleted]. *)
Theorem commands_leave_work_tree (w : world) :
  let after_commit := update_gitnot path_match unified_diff readlines E w in
  let after_init := init_gitnot path_match E w in
  tree after_commit = tree w
  /\ config_json after_commit = config_json w
  /\ tree after_init = tree w
  /\ deleted after_init = deleted w.
Proof.
  cbv zeta.
  pose proof (preserves_guarded (keeps (fun w => (tree w, config_json w)))
                (keeps_trans _) _ keeps_update_body (fun w o => eq_refl) w) as Hu.
  pose proof (preserves_guarded (keeps (fun w => (tree w, deleted w)))
                (keeps_trans _) _ keeps_init_body (fun w o => eq_refl) w) as Hi.
  unfold keeps in Hu, Hi. injection Hu as Hut Huc. injection Hi as Hit Hid.
  repeat split; assumption.
Qed.

(** X14.  The entry point.  Arguments after the first are ignored, and
    every invocation other than [gitnot --init] and, in an initialised
    directory, the bare [gitnot], only prints. *)
Theorem other_invocations_only_print (argv : list string) (w : world)
    (Hargv : match argv with
             | [] => False
             | [_] => gitnot_dir w = false
             | _ :: arg :: _ => arg <> "--init"
             end) :
  exists w' said,
    main path_match unified_diff readlines E argv w = Ok (w', said)
    /\ only_prints w w'
    /\ main path_match unified_diff readlines E argv w
       = main path_match unified_diff readlines E (firstn 2 argv) w.
Proof.
  destruct argv as [|prog [|arg rest]]; [destruct Hargv| |].
  - eexists _, _. split; [reflexivity|]. split; [|reflexivity].
    unfold update_gitnot, guarded, update_body. rewrite JournalFacts.mbind_gets, Hargv.
    apply only_prints_stdout.
  - unfold main. cbn [firstn Str.index nth_error bind].
    apply String.eqb_neq in Hargv. rewrite Hargv.
    destruct (String.eqb arg "--show"); [|destruct (String.eqb arg "--status");
      [|destruct (existsb _ _)]].
    + eexists _, _. repeat split. unfold show_version. apply only_prints_stdout.
    + eexists _, _. repeat split. apply only_prints_show_status.
    + eexists _, _. repeat split. apply only_prints_refl.
    + eexists _, _. repeat split. apply only_prints_refl.
Qed.

End Commands.

Lemma other_invocations_only_print_witness :
  exists w' said,
    main Ignore.posix_match (fun _ _ => []) (fun _ => []) (calm "2026-01-02 10:00")
      ["gitnot"; "--status"; "--verbose"] Scenarios.edited = Ok (w', said)
    /\ only_prints Scenarios.edited w'
    /\ main Ignore.posix_match (fun _ _ => []) (fun _ => []) (calm "2026-01-02 10:00")
         ["gitnot"; "--status"; "--verbose"] Scenarios.edited
       = main Ignore.posix_match (fun _ _ => []) (fun _ => []) (calm "2026-01-02 10:00")
           (firstn 2 ["gitnot"; "--status"; "--verbose"]) Scenarios.edited.
Proof.
  apply (other_invocations_only_print Ignore.posix_match (fun _ _ => []) (fun _ => [])
           (calm "2026-01-02 10:00") ["gitnot"; "--status"; "--verbose"] Scenarios.edited).
  discriminate.
Defined.

End ReadOnlyFacts.

(** ** Files that cannot be read *)

Module SentinelFacts.

Import Str OS Hasher Store StrFacts HasherFacts DeltaFacts.

Lemma hex_digit_not_u (x : Z) : 0 <= x < 16 -> Sha1.hex_digit x <> "u"%char.
Proof.
  intros Hx.
  assert (H : x = 0 \/ x = 1 \/ x = 2 \/ x = 3 \/ x = 4 \/ x = 5 \/ x = 6 \/ x = 7
              \/ x = 8 \/ x = 9 \/ x = 10 \/ x = 11 \/ x = 12 \/ x = 13 \/ x = 14
              \/ x = 15) by lia.
  repeat (destruct H as [-> | H]; [discriminate|]). subst x. discriminate.
Qed.

(** A digest starts with a hexadecimal digit, the other text with
    [u]. *)
Lemma hexdigest_not_sentinel (msg : bytes) (name : string) :
  Sha1.hexdigest msg <> "unreadable-" +:+ name.
Proof.
  unfold Sha1.hexdigest. destruct (Sha1.digest msg) as [[[[h0 h1] h2] h3] h4].
  change (Sha1.hex 8 h0) with
    (String (Sha1.hex_digit (Z.shiftr h0 (4 * Z.of_nat 7) mod 16)) (Sha1.hex 7 h0)).
  rewrite !append_cons. intros [= Hc _].
  apply (hex_digit_not_u (Z.shiftr h0 (4 * Z.of_nat 7) mod 16)); [|exact Hc].
  apply Z.mod_pos_bound. lia.
Qed.

Lemma hash_file_readable (E : env) (tree : gmap string bytes) (p : string) (data : bytes) :
  tree !! p = Some data ->
  fails E (OpenForHash p) = false ->
  (forall k, fails E (ReadForHash p k) = false) ->
  hash_file E tree p = Sha1.hexdigest data.
Proof.
  intros Hp Ho Hr. unfold hash_file.
  rewrite Hp, Ho, feed_all by exact Hr. cbn [app]. now rewrite reads_concat.
Qed.

Lemma hash_file_unreadable (E : env) (tree : gmap string bytes) (p : string) :
  tree !! p = None \/ fails E (OpenForHash p) = true
  \/ (exists content k,
         tree !! p = Some content
         /\ (k <= length (reads content))%nat
         /\ fails E (ReadForHash p k) = true) ->
  hash_file E tree p = "unreadable-" +:+ basename p.
Proof.
  intros [Hnone | [Hfail | (content & k & Hp & Hk & Hfail)]]; unfold hash_file.
  - now rewrite Hnone.
  - destruct (tree !! p); now rewrite ?Hfail.
  - rewrite Hp. destruct (fails E (OpenForHash p)); [reflexivity|].
    rewrite (feed_fails E p (reads content) 0 k []); [reflexivity | lia | exact Hfail].
Qed.

(** X15.  The text [hash_file] returns for a file it cannot read is never a
    digest: a tracked file whose digest is in the index and which can no
    longer be read is listed as modified, not as new or deleted. *)
Theorem unreadable_file_counts_as_modified (E E' : env) (tree tree' : gmap string bytes)
    (p : string) (data : bytes) (old_hashes current_hashes : gmap string string)
    (Hfile : tree !! p = Some data)
    (Hopen : fails E (OpenForHash p) = false)
    (Hread : forall k, fails E (ReadForHash p k) = false)
    (Hbad : tree' !! p = None \/ fails E' (OpenForHash p) = true
            \/ (exists content k,
                   tree' !! p = Some content
                   /\ (k <= length (reads content))%nat
                   /\ fails E' (ReadForHash p k) = true))
    (Hold : old_hashes !! p = Some (hash_file E tree p))
    (Hcur : current_hashes !! p = Some (hash_file E' tree' p)) :
  hash_file E tree p <> hash_file E' tree' p
  /\ In p (changed_files old_hashes current_hashes)
  /\ ~ In p (new_files old_hashes current_hashes)
  /\ ~ In p (deleted_files old_hashes current_hashes).
Proof.
  assert (Hne : hash_file E tree p <> hash_file E' tree' p).
  { rewrite (hash_file_readable E tree p data Hfile Hopen Hread),
      (hash_file_unreadable E' tree' p Hbad).
    apply hexdigest_not_sentinel. }
  split; [exact Hne|]. split; [|split].
  - apply changed_files_spec. eauto.
  - rewrite new_files_spec. intros [_ H]. congruence.
  - rewrite deleted_files_spec. intros [_ H]. congruence.
Qed.

Lemma unreadable_file_counts_as_modified_witness :
  let E' := mkEnv (fun o => match o with OpenForHash _ => true | _ => false end)
              (fun _ => true) "" in
  let tree : gmap string bytes := {[ "a.txt" := Scenarios.text "hello" ]} in
  hash_file (calm "") tree "a.txt" <> hash_file E' tree "a.txt"
  /\ In "a.txt" (changed_files {[ "a.txt" := hash_file (calm "") tree "a.txt" ]}
                   {[ "a.txt" := hash_file E' tree "a.txt" ]}).
Proof.
  cbv zeta.
  destruct (unreadable_file_counts_as_modified (calm "")
              (mkEnv (fun o => match o with OpenForHash _ => true | _ => false end)
                 (fun _ => true) "")
              {[ "a.txt" := Scenarios.text "hello" ]} {[ "a.txt" := Scenarios.text "hello" ]}
              "a.txt" (Scenarios.text "hello")
              {[ "a.txt" := hash_file (calm "") {[ "a.txt" := Scenarios.text "hello" ]} "a.txt" ]}
              {[ "a.txt" := hash_file
                              (mkEnv (fun o => match o with OpenForHash _ => true | _ => false end)
                                 (fun _ => true) "")
                              {[ "a.txt" := Scenarios.text "hello" ]} "a.txt" ]})
    as (H1 & H2 & _).
  - reflexivity.
  - reflexivity.
  - intros k. reflexivity.
  - right. left. reflexivity.
  - reflexivity.
  - reflexivity.
  - split; assumption.
Defined.

End SentinelFacts.

(** ** Where the entries of a diff report come from *)

Module ReportFacts.

Import Str Diff Effects StrFacts DiffFacts.

Lemma triple_dash (line : string) :
  startswith "---" line = true ->
  startswith "-" line = true /\ startswith "+" line = false
  /\ startswith "@@" line = false /\ single_line line = advance_both.
Proof.
  intros H. destruct line as [|c line]; [discriminate|].
  cbn [startswith] in H. apply andb_true_iff in H as [Hc Hrest].
  apply Ascii.eqb_eq in Hc. subst c.
  assert (H3 : startswith "---" (String "-" line) = true)
    by (cbn [startswith]; now rewrite Hrest).
  repeat split; try reflexivity.
  unfold single_line. rewrite H3. reflexivity.
Qed.

Lemma triple_plus (line : string) :
  startswith "+++" line = true ->
  startswith "-" line = false /\ startswith "@@" line = false
  /\ single_line line = advance_both.
Proof.
  intros H. destruct line as [|c line]; [discriminate|].
  cbn [startswith] in H. apply andb_true_iff in H as [Hc Hrest].
  apply Ascii.eqb_eq in Hc. subst c.
  assert (H3 : startswith "+++" (String "+" line) = true)
    by (cbn [startswith]; now rewrite Hrest).
  repeat split; try reflexivity.
  unfold single_line. rewrite H3. reflexivity.
Qed.

Lemma hunk_counters_lists (line : string) (st : report) :
  add (hunk_counters line st) = add st /\ remove (hunk_counters line st) = remove st.
Proof.
  unfold hunk_counters. destruct (3 <=? length (split_ws line))%nat; [|split; reflexivity].
  destruct (parse_start (split_ws line) 1), (parse_start (split_ws line) 2); split; reflexivity.
Qed.

Lemma single_line_lists (line : string) (st : report) (e : string) :
  (In e (remove (single_line line st)) ->
   In e (remove st) \/ from_signed_line "-" "---" [line] e)
  /\ (In e (add (single_line line st)) ->
      In e (add st) \/ from_signed_line "+" "+++" [line] e).
Proof.
  unfold single_line.
  destruct (startswith "-" line && negb (startswith "---" line)) eqn:Hminus.
  - apply andb_true_iff in Hminus as [H1 H3]. apply negb_true_iff in H3.
    cbn [add remove]. split; [|now left].
    intros Hin. apply in_app_or in Hin as [Hin | [<- | []]]; [now left|].
    right. exists line, (old_ln st). repeat split; try assumption. now left.
  - destruct (startswith "+" line && negb (startswith "+++" line)) eqn:Hplus.
    + apply andb_true_iff in Hplus as [H1 H3]. apply negb_true_iff in H3.
      cbn [add remove]. split; [now left|].
      intros Hin. apply in_app_or in Hin as [Hin | [<- | []]]; [now left|].
      right. exists line, (new_ln st). repeat split; try assumption. now left.
    + destruct (negb (startswith "\" line)); split; now left.
Qed.

Lemma from_signed_line_more (sign triple : string) (some more : list string) (e : string) :
  (forall line, In line some -> In line more) ->
  from_signed_line sign triple some e -> from_signed_line sign triple more e.
Proof.
  intros Hsub (line & k & Hin & H). exists line, k. split; [now apply Hsub | exact H].
Qed.

Lemma walk_lists (n : nat) :
  forall (lines : list string) (st : report) (e : string),
    length lines = n ->
    (In e (remove (walk lines st)) ->
     In e (remove st) \/ from_signed_line "-" "---" lines e)
    /\ (In e (add (walk lines st)) ->
        In e (add st) \/ from_signed_line "+" "+++" lines e).
Proof.
  induction n as [n IH] using lt_wf_ind. intros lines st e Hn.
  destruct lines as [|line rest]; [split; now left|].
  assert (Hrest : forall st',
             (In e (remove st') -> In e (remove st) \/ from_signed_line "-" "---" [line] e) ->
             (In e (add st') -> In e (add st) \/ from_signed_line "+" "+++" [line] e) ->
             forall tail, (forall l, In l tail -> In l rest) -> (length tail < n)%nat ->
             (In e (remove (walk tail st')) ->
              In e (remove st) \/ from_signed_line "-" "---" (line :: rest) e)
             /\ (In e (add (walk tail st')) ->
                 In e (add st) \/ from_signed_line "+" "+++" (line :: rest) e)).
  { intros st' Hr Ha tail Hsub Hlen.
    destruct (IH (length tail) Hlen tail st' e eq_refl) as [Hr' Ha'].
    split; intros Hin.
    - destruct (Hr' Hin) as [H | H].
      + destruct (Hr H) as [H0 | H0]; [now left|]. right.
        apply (from_signed_line_more _ _ [line]); [|exact H0].
        intros l [<-|[]]. now left.
      + right. apply (from_signed_line_more _ _ tail); [|exact H].
        intros l Hl. right. now apply Hsub.
    - destruct (Ha' Hin) as [H | H].
      + destruct (Ha H) as [H0 | H0]; [now left|]. right.
        apply (from_signed_line_more _ _ [line]); [|exact H0].
        intros l [<-|[]]. now left.
      + right. apply (from_signed_line_more _ _ tail); [|exact H].
        intros l Hl. right. now apply Hsub. }
  cbn [length] in Hn. cbn [walk].
  destruct (startswith "@@" line).
  - destruct (hunk_counters_lists line st) as [Ha Hr].
    apply Hrest; [rewrite Hr; now left | rewrite Ha; now left | auto | lia].
  - destruct rest as [|next rest'].
    + apply Hrest; [apply single_line_lists | apply single_line_lists | auto | cbn; lia].
    + destruct (startswith "-" line && same_but_trailing_space line next).
      * apply Hrest; [now left | now left | intros l Hl; now right | cbn in *; lia].
      * apply Hrest; [apply single_line_lists | apply single_line_lists | auto | cbn in *; lia].
Qed.

(** X16.  Every entry of the Removed list is [L<k>: <text>] for a line of
    the diff that starts with [-] but not with [---], and every entry of
    the Added list comes from a line that starts with [+] but not with
    [+++]: a removed line whose text starts with [--], or an added one
    whose text starts with [++], is never reported. *)
Theorem entries_come_from_signed_lines (lines : list string) :
  exists st,
    run lines = Ok st
    /\ (forall e, In e (remove st) -> from_signed_line "-" "---" lines e)
    /\ (forall e, In e (add st) -> from_signed_line "+" "+++" lines e).
Proof.
  exists (walk lines start). split; [apply run_walk|].
  split; intros e Hin;
    destruct (walk_lists (length lines) lines start e eq_refl) as [Hr Ha].
  - destruct (Hr Hin) as [[] | H]. exact H.
  - destruct (Ha Hin) as [[] | H]. exact H.
Qed.

(** X17.  A removed line whose text starts with [--] (so that the diff line
    starts with [---]) and that is not the first half of a noise pair is
    taken for a context line: nothing is reported and both counters
    advance, the one of the new file included. *)
Theorem dashed_removal_shifts_both_counters (pre rest : list string) (line : string)
    (Hline : startswith "---" line = true)
    (Hnext : match rest with
             | next :: _ => same_but_trailing_space line next = false
             | [] => True
             end) :
  exists st,
    run pre = Ok st
    /\ run (pre ++ line :: rest) = loop (length rest) rest 0 (advance_both st).
Proof.
  exists (walk pre start). split; [apply run_walk|].
  rewrite run_walk, (loop_walk (length rest) [] rest) by lia. f_equal.
  destruct (triple_dash line Hline) as (Hminus & Hplus & Hat & Hsingle).
  rewrite (walk_app_not_plus line rest Hplus (length pre) pre start eq_refl).
  cbn [walk]. rewrite Hat, Hsingle.
  destruct rest as [|next rest']; [reflexivity|]. now rewrite Hnext, andb_false_r.
Qed.

Lemma entries_come_from_signed_lines_witness :
  exists st,
    run diff_x_y = Ok st
    /\ (forall e, In e (remove st) -> from_signed_line "-" "---" diff_x_y e)
    /\ (forall e, In e (add st) -> from_signed_line "+" "+++" diff_x_y e).
Proof. exact (entries_come_from_signed_lines diff_x_y). Defined.

Lemma dashed_removal_shifts_both_counters_witness :
  exists st,
    run ["@@ -3 +2,0 @@"] = Ok st
    /\ run (["@@ -3 +2,0 @@"] ++ ("----" +:+ nl) :: [])
       = loop (length (@nil string)) [] 0 (advance_both st).
Proof.
  apply (dashed_removal_shifts_both_counters ["@@ -3 +2,0 @@"] [] ("----" +:+ nl)).
  - reflexivity.
  - exact I.
Defined.

End ReportFacts.

(** ** Reading back the version written *)

Module ParseFacts.

Import Str Float StrFacts.

Lemma scan_digits_digits_of (fuel : nat) :
  forall (n : N) (rest : string),
    (n < 10 ^ N.of_nat (S fuel))%N ->
    exists k : Z,
      0 < k /\
      forall acc cnt : Z,
        scan_digits acc cnt (digits_of fuel n rest)
        = scan_digits (acc * 10 ^ k + Z.of_N n) (cnt + k) rest.
Proof.
  induction fuel as [|fuel IH]; intros n rest Hn.
  - exists 1. split; [lia|]. intros acc cnt. cbn [digits_of scan_digits].
    change (10 ^ N.of_nat 1)%N with 10%N in Hn.
    rewrite N.mod_small by exact Hn.
    destruct (digit_char n Hn) as [-> ->]. f_equal. lia.
  - cbn [digits_of].
    pose proof (N.mod_lt n 10%N ltac:(lia)) as Hd.
    pose proof (N.div_mod n 10%N ltac:(lia)) as Hdm.
    destruct (digit_char (n mod 10) Hd) as [Hdig Hval].
    destruct (N.eqb_spec (n / 10) 0%N) as [Hz|Hnz].
    + exists 1. split; [lia|]. intros acc cnt. cbn [scan_digits].
      rewrite Hdig, Hval. f_equal. lia.
    + destruct (IH (n / 10)%N (String (ascii_of_N (48 + n mod 10)) rest)) as (k & Hk & Hscan).
      { apply N.Div0.div_lt_upper_bound.
        replace (N.of_nat (S (S fuel))) with (N.succ (N.of_nat (S fuel))) in Hn by lia.
        rewrite N.pow_succ_r' in Hn. exact Hn. }
      exists (k + 1). split; [lia|]. intros acc cnt.
      rewrite Hscan. cbn [scan_digits]. rewrite Hdig, Hval. f_equal; [|lia].
      rewrite Z.pow_add_r by lia. lia.
Qed.

Lemma scan_of_N (n : N) (rest : string) :
  exists k : Z,
    0 < k /\
    forall acc cnt : Z,
      scan_digits acc cnt (of_N n +:+ rest)
      = scan_digits (acc * 10 ^ k + Z.of_N n) (cnt + k) rest.
Proof.
  unfold of_N. rewrite <- digits_of_append. apply scan_digits_digits_of, of_N_fuel.
Qed.

Lemma of_N_digit (d : N) : (d < 10)%N -> of_N d = String (ascii_of_N (48 + d)) "".
Proof.
  intros H.
  assert (Hd : (d = 0 \/ d = 1 \/ d = 2 \/ d = 3 \/ d = 4 \/ d = 5 \/ d = 6
                \/ d = 7 \/ d = 8 \/ d = 9)%N) by lia.
  repeat (destruct Hd as [-> | Hd]; [reflexivity | idtac]).
  subst d. reflexivity.
Qed.

(** The text [write_version] produces for [t] tenths. *)
Lemma one_decimal_parses (neg : bool) (t : Z) :
  0 <= t ->
  of_str ((if neg then "-" else "") +:+ of_Z (t / 10) +:+ "." +:+ of_Z (t mod 10))
  = Ok (of_decimal neg t (-1)).
Proof.
  intros Ht.
  assert (Hq : 0 <= t / 10) by (apply Z.div_pos; lia).
  pose proof (Z.mod_pos_bound t 10 ltac:(lia)) as Hr.
  unfold of_Z.
  destruct (Z.ltb_spec (t / 10) 0) as [|_]; [lia|].
  destruct (Z.ltb_spec (t mod 10) 0) as [|_]; [lia|].
  set (a := Z.to_N (t / 10)). set (b := Z.to_N (t mod 10)).
  assert (Hb : (b < 10)%N) by (unfold b; lia).
  rewrite (of_N_digit b Hb).
  destruct (digit_char b Hb) as [Hbd Hbv].
  set (body := of_N a +:+ "." +:+ String (ascii_of_N (48 + b)) "").
  assert (Hspace : all (fun c => negb (isspace c)) body = true).
  { unfold body. rewrite all_append, of_N_no_space, append_cons, append_nil. cbn [all].
    rewrite (proj1 (isdigit_plain _ Hbd)). reflexivity. }
  destruct (of_N_cons a) as (c & s & Ea & Hc).
  assert (Hbody : body = String c (s +:+ "." +:+ String (ascii_of_N (48 + b)) "")).
  { unfold body. rewrite Ea. reflexivity. }
  assert (Hlow : forall word, word = "inf" \/ word = "infinity" \/ word = "nan" ->
                   String.eqb (lowercase body) word = false).
  { intros word Hw. rewrite Hbody. cbn [lowercase].
    clear - Hc Hw. destruct Hw as [-> | [-> | ->]];
      destruct c as [[] [] [] [] [] [] [] []]; try discriminate Hc; reflexivity. }
  assert (Hsign : split_sign body = (false, body)).
  { rewrite Hbody. clear - Hc.
    destruct c as [[] [] [] [] [] [] [] []]; try discriminate Hc; reflexivity. }
  assert (Hscan : scan_digits 0 0 body
                  = (Z.of_N a, (scan_digits 0 0 body).1.2,
                     "." +:+ String (ascii_of_N (48 + b)) "")
                    /\ 0 < (scan_digits 0 0 body).1.2).
  { unfold body. destruct (scan_of_N a ("." +:+ String (ascii_of_N (48 + b)) "")) as (k & Hk & ->).
    rewrite append_cons, append_nil. cbn [scan_digits].
    change (isdigit ".") with false. change (Ascii.eqb "." "_") with false.
    cbn. split; [f_equal; f_equal; lia | lia]. }
  destruct Hscan as [Hscan Hni]. set (ni := (scan_digits 0 0 body).1.2) in *.
  assert (Hfrac : scan_digits (Z.of_N a) 0 (String (ascii_of_N (48 + b)) "")
                  = (t, 1, "")).
  { cbn [scan_digits]. rewrite Hbd, Hbv. do 2 f_equal.
    unfold a, b. rewrite !Z2N.id by lia. pose proof (Z.div_mod t 10 ltac:(lia)). lia. }
  assert (Hgo : forall neg0 : bool, of_str ((if neg0 then "-" else "") +:+ body)
                             = Ok (of_decimal neg0 t (-1))).
  { intros neg0. unfold of_str.
    assert (Hstrip : split_sign (strip ((if neg0 then "-" else "") +:+ body)) = (neg0, body)).
    { destruct neg0.
      - rewrite strip_no_space.
        + reflexivity.
        + rewrite append_cons, append_nil. cbn [all]. now rewrite Hspace.
      - rewrite append_nil, (strip_no_space _ Hspace). exact Hsign. }
    rewrite Hstrip.
    rewrite (Hlow "inf"), (Hlow "infinity"), (Hlow "nan") by auto. cbn [orb].
    rewrite Hscan. rewrite append_cons, append_nil. rewrite Hfrac.
    destruct (Z.eqb_spec (ni + 1) 0) as [|_]; [lia|]. reflexivity. }
  exact (Hgo neg).
Qed.

Lemma tenths_nonneg (m : positive) (e : Z) : 0 <= tenths m e.
Proof.
  unfold tenths. destruct (Z.leb_spec 0 e) as [He|He].
  { pose proof (Z.pow_nonneg 2 e ltac:(lia)). nia. }
  unfold div_half_even.
  assert (0 < 2 ^ (- e)) by (apply Z.pow_pos_nonneg; lia).
  assert (0 <= Z.pos m * 10 / 2 ^ (- e)) by (apply Z.div_pos; lia).
  destruct (_ <? _); [lia|]. destruct (_ <? _); [lia|]. destruct (Z.even _); lia.
Qed.

Lemma format_1f_no_space (v : float) :
  all (fun c => negb (isspace c)) (format_1f v) = true.
Proof.
  destruct v as [s|s| |s m e]; try (destruct s; reflexivity); [reflexivity|].
  unfold format_1f. cbv zeta. unfold of_Z.
  pose proof (tenths_nonneg m e) as Ht.
  assert (Hq : 0 <= tenths m e / 10) by (apply Z.div_pos; lia).
  pose proof (Z.mod_pos_bound (tenths m e) 10 ltac:(lia)) as Hr.
  destruct (Z.ltb_spec (tenths m e / 10) 0) as [|_]; [lia|].
  destruct (Z.ltb_spec (tenths m e mod 10) 0) as [|_]; [lia|].
  rewrite !all_append, !of_N_no_space. now destruct s.
Qed.

(** X18.  What [write_version] writes, [read_version] can read: for every
    float [v] the text [format_1f v] parses without error, to the float
    nearest to the printed decimal (to [v] itself for zeros, infinities
    and NaN). *)
Theorem written_version_reads_back (v : float) :
  of_str (format_1f v) = Ok (Effects.reread v)
  /\ Store.version_of_text (format_1f v) = Effects.reread v.
Proof.
  assert (H : of_str (format_1f v) = Ok (Effects.reread v)).
  { destruct v as [s|s| |s m e]; try (destruct s; reflexivity); [reflexivity|].
    apply one_decimal_parses, tenths_nonneg. }
  split; [exact H|].
  unfold Store.version_of_text. now rewrite (strip_no_space _ (format_1f_no_space v)), H.
Qed.

End ParseFacts.

(** ** The entries a commit writes to the changelogs *)

Module EntryFacts.

Import OS Store Laws Effects MonadFacts DeltaFacts JournalFacts EffectFacts CommitFacts StrFacts.

(** A loop none of whose rounds writes the changelog of [q] leaves it
    as it was. *)
Lemma touch_none {A B : Type} (body : B -> A -> M B) (q : string) (l : list A) :
  (forall acc y, returns (body acc y)) ->
  (forall y, In y l -> forall acc w, changelogs (body acc y w).2 !! q = changelogs w !! q) ->
  forall acc w, changelogs (for_fold l acc body w).2 !! q = changelogs w !! q.
Proof.
  intros Hret. induction l as [|y l IH]; intros Hsame acc w; [reflexivity|].
  cbn [for_fold]. unfold mbind. destruct (Hret acc y w) as [a Ha].
  pose proof (Hsame y (or_introl eq_refl) acc w) as Hy.
  destruct (body acc y w) as [r w1]. cbn in Ha, Hy. subst r.
  rewrite IH; [exact Hy|]. intros z Hz. apply Hsame. now right.
Qed.

(** A loop over items with distinct keys writes the changelog of [q]
    in the round of the item with that key, and in no other. *)
Lemma touch_once {A B : Type} (body : B -> A -> M B) (key : A -> string) (q : string)
    (I : world -> Prop) (F : option string -> option string) (x : A) (l : list A) :
  (forall acc y, returns (body acc y)) ->
  (forall acc y w, I w -> I (body acc y w).2) ->
  (forall acc y w, key y <> q -> changelogs (body acc y w).2 !! q = changelogs w !! q) ->
  (forall acc w, I w -> changelogs (body acc x w).2 !! q = F (changelogs w !! q)) ->
  key x = q ->
  List.NoDup (List.map key l) ->
  In x l ->
  forall acc w, I w -> changelogs (for_fold l acc body w).2 !! q = F (changelogs w !! q).
Proof.
  intros Hret Hinv Hother Hhit Hkey. induction l as [|y l IH]; intros Hnd Hin acc w Hw;
    [destruct Hin|].
  cbn [List.map] in Hnd. apply List.NoDup_cons_iff in Hnd as [Hy Hnd].
  cbn [for_fold]. unfold mbind. destruct (Hret acc y w) as [a Ha].
  pose proof (Hinv acc y w Hw) as Hw1.
  destruct Hin as [->|Hin].
  - pose proof (Hhit acc w Hw) as Hx.
    destruct (body acc x w) as [r w1]. cbn in Ha, Hx, Hw1. subst r.
    rewrite touch_none; [exact Hx | exact Hret |].
    intros z Hz acc0 w0. apply Hother. intros Hzq. apply Hy.
    rewrite Hkey, <- Hzq. now apply in_map.
  - assert (Hne : key y <> q).
    { intros Hyq. apply Hy. rewrite Hyq, <- Hkey. now apply in_map. }
    pose proof (Hother acc y w Hne) as Hsame.
    destruct (body acc y w) as [r w1]. cbn in Ha, Hsame, Hw1. subst r.
    rewrite (IH Hnd Hin a w1 Hw1). now rewrite Hsame.
Qed.

Section Commands.

Variable path_match : Ignore.path -> string -> bool.
Variable unified_diff : list string -> list string -> list string.
Variable readlines : bytes -> list string.
Variable E : env.

Hypothesis calm : forall o, fails E o = false.

Lemma first_loop_other (old : gmap string string) (v : Float.float) (acc : bool)
    (item : string * string) (q : string) (w : world) :
  item.1 <> q ->
  changelogs (new_or_modified unified_diff readlines E old v acc item w).2 !! q
  = changelogs w !! q.
Proof.
  intros Hne. destruct item as [p h]. cbn [fst] in Hne.
  set (f := fun w => changelogs w !! q).
  assert (H : preserves (keeps f) (new_or_modified unified_diff readlines E old v acc (p, h))).
  { unfold new_or_modified.
    frame (keeps f) (keeps_refl f) (keeps_trans f)
      ltac:(first [reflexivity
                  | unfold keeps, f; cbn [changelogs set_changelogs];
                    now rewrite lookup_insert_ne by exact Hne]). }
  exact (H w).
Qed.

Lemma second_loop_other (cur : gmap string string) (v : Float.float) (acc : bool)
    (p q : string) (w : world) :
  p <> q \/ is_Some (cur !! p) ->
  changelogs (gone E cur v acc p w).2 !! q = changelogs w !! q.
Proof.
  intros [Hne | [h Hh]].
  - set (f := fun w => changelogs w !! q).
    assert (H : preserves (keeps f) (gone E cur v acc p)).
    { unfold gone.
      frame (keeps f) (keeps_refl f) (keeps_trans f)
        ltac:(first [reflexivity
                    | unfold keeps, f; cbn [changelogs set_changelogs];
                      now rewrite lookup_insert_ne by exact Hne]). }
    exact (H w).
  - unfold gone. now rewrite Hh.
Qed.

Lemma first_loop_same (old : gmap string string) (v : Float.float) (acc : bool)
    (p h : string) (w : world) :
  old !! p = Some h ->
  (new_or_modified unified_diff readlines E old v acc (p, h) w).2 = w.
Proof. intros Hold. unfold new_or_modified. now rewrite Hold, String.eqb_refl. Qed.

Lemma first_loop_new (old : gmap string string) (v : Float.float) (acc : bool)
    (p h : string) (w : world) :
  old !! p = None ->
  changelogs (new_or_modified unified_diff readlines E old v acc (p, h) w).2 !! p
  = Some ((default "" (changelogs w !! p) +:+ header E v)
          +:+ "📄 New file added." +:+ Diff.nl).
Proof.
  intros Hold. unfold new_or_modified. rewrite Hold.
  cbv [mbind note modify gets safe_makedirs try_os append_entry append_text lift print ret
         raise].
  rewrite !calm. cbn [changelogs set_changelogs set_journal fst snd].
  now rewrite !lookup_insert_eq.
Qed.

Lemma second_loop_deleted (cur : gmap string string) (v : Float.float) (acc : bool)
    (p : string) (w : world) :
  cur !! p = None ->
  changelogs (gone E cur v acc p w).2 !! p
  = Some ((default "" (changelogs w !! p) +:+ header E v)
          +:+ "🔻 File was deleted." +:+ Diff.nl).
Proof.
  intros Hcur. unfold gone. rewrite Hcur.
  cbv [mbind note modify gets safe_makedirs try_os append_entry append_text lift print ret
         raise].
  rewrite !calm. cbn [snapshot set_journal].
  destruct (snapshot w ≫= _); rewrite ?calm;
    cbn [changelogs set_changelogs set_journal set_deleted set_snapshot fst snd];
    now rewrite !lookup_insert_eq.
Qed.

Lemma first_loop_unlogged (old : gmap string string) (v : Float.float) (acc : bool)
    (p h old_hash : string) (w : world) :
  old !! p = Some old_hash ->
  snapshot w ≫= (fun files => files !! p) = None ->
  changelogs (new_or_modified unified_diff readlines E old v acc (p, h) w).2 = changelogs w.
Proof.
  intros Hold Hsnap. unfold new_or_modified. rewrite Hold.
  destruct (negb (String.eqb old_hash h)); [|reflexivity].
  cbv [mbind note modify gets ret]. cbn [snapshot set_journal]. now rewrite Hsnap.
Qed.

Lemma first_loop_modified (old : gmap string string) (v : Float.float) (acc : bool)
    (p h old_hash : string) (old_data new_data : bytes) (w : world) :
  old !! p = Some old_hash ->
  old_hash <> h ->
  snapshot w ≫= (fun files => files !! p) = Some old_data ->
  tree w !! p = Some new_data ->
  exists body,
    match unified_diff (readlines old_data) (readlines new_data) with
    | [] => Ok ("📄 File changed (no readable diff)" +:+ Diff.nl)
    | diff => do text <- Diff.format_diff_as_markdown diff; Ok (text +:+ Diff.nl)
    end = Ok body
    /\ changelogs (new_or_modified unified_diff readlines E old v acc (p, h) w).2 !! p
       = Some ((default "" (changelogs w !! p) +:+ header E v) +:+ body).
Proof.
  intros Hold Hne Hsnap Hnew. unfold new_or_modified. rewrite Hold.
  apply String.eqb_neq in Hne. rewrite Hne. cbn [negb].
  unfold log_modified.
  cbv [mbind note modify gets safe_makedirs try_os append_entry append_text lift print ret
         raise].
  rewrite !calm. cbn [snapshot tree set_journal]. rewrite Hsnap. cbn [tree set_journal].
  rewrite Hnew.
  destruct (unified_diff (readlines old_data) (readlines new_data)) as [|d diff].
  - eexists. split; [reflexivity|]. rewrite ?calm.
    cbn [changelogs set_changelogs set_journal fst snd]. now rewrite !lookup_insert_eq.
  - rewrite format_total. cbn [bind]. eexists. split; [reflexivity|]. rewrite ?calm.
    cbn [changelogs set_changelogs set_journal fst snd]. now rewrite !lookup_insert_eq.
Qed.

Lemma keeps_new_or_modified (old : gmap string string) (v : Float.float) (acc : bool)
    (item : string * string) :
  preserves (keeps (fun w => (snapshot w, tree w)))
    (new_or_modified unified_diff readlines E old v acc item).
Proof.
  set (f := fun w => (snapshot w, tree w)). unfold new_or_modified.
  frame (keeps f) (keeps_refl f) (keeps_trans f) ltac:(reflexivity).
Qed.

(** X19.  What a commit appends to the changelogs, when no system call
    fails.  The changelog of a new file, and that of a deleted one, gets
    the version header and the line for its kind; the changelog of a
    modified file whose snapshot copy exists gets the header and the
    formatted diff of the two copies, or the no-readable-diff line when
    the diff is empty; a modified file without snapshot copy gets no
    entry; and no other changelog is written. *)
Theorem commit_logs_each_change (w : world) (files : list string) (p : string)
    (Hdir : gitnot_dir w = true)
    (Hfiles : get_all_text_files path_match w = Ok files)
    (Hchange :
       In p (new_files (load_json ∅ (hashes_json w)) (current_hashes_of E w files))
       \/ In p (changed_files (load_json ∅ (hashes_json w)) (current_hashes_of E w files))
       \/ In p (deleted_files (load_json ∅ (hashes_json w)) (current_hashes_of E w files))) :
  let old_hashes := load_json ∅ (hashes_json w) in
  let current_hashes := current_hashes_of E w files in
  let w' := update_gitnot path_match unified_diff readlines E w in
  let before := default "" (changelogs w !! p) in
  let head := header E (Float.add (read_version w) Float.tenth) in
  (In p (new_files old_hashes current_hashes) ->
   changelogs w' !! p = Some ((before +:+ head) +:+ "📄 New file added." +:+ Diff.nl))
  /\ (In p (deleted_files old_hashes current_hashes) ->
      changelogs w' !! p = Some ((before +:+ head) +:+ "🔻 File was deleted." +:+ Diff.nl))
  /\ (In p (changed_files old_hashes current_hashes) ->
      forall old_data new_data,
        snapshot w ≫= (fun snap => snap !! p) = Some old_data ->
        tree w !! p = Some new_data ->
        exists body,
          match unified_diff (readlines old_data) (readlines new_data) with
          | [] => Ok ("📄 File changed (no readable diff)" +:+ Diff.nl)
          | diff => do text <- Diff.format_diff_as_markdown diff; Ok (text +:+ Diff.nl)
          end = Ok body
          /\ changelogs w' !! p = Some ((before +:+ head) +:+ body))
  /\ (In p (changed_files old_hashes current_hashes) ->
      snapshot w ≫= (fun snap => snap !! p) = None ->
      changelogs w' !! p = changelogs w !! p)
  /\ (forall q,
        ~ In q (new_files old_hashes current_hashes) ->
        ~ In q (changed_files old_hashes current_hashes) ->
        ~ In q (deleted_files old_hashes current_hashes) ->
        changelogs w' !! q = changelogs w !! q).
Proof.
  cbv zeta. unfold update_gitnot, guarded.
  rewrite (update_is_record_changes path_match unified_diff readlines E w files Hdir Hfiles).
  set (old := load_json ∅ (hashes_json w)) in *.
  set (cur := current_hashes_of E w files) in *.
  set (v := Float.add (read_version w) Float.tenth).
  assert (Hall : forall f, In f files -> is_Some (tree w !! f))
    by (intros f; now apply (scanned_in_tree path_match w files)).
  destruct (commit_steps unified_diff readlines E calm old cur files w p Hall Hchange)
    as (c1 & w2 & w3 & H1 & H2 & _ & _ & _ & ->).
  fold v in H1, H2.
  set (w1 := set_version_txt (Some (Float.format_1f v)) (set_gitnot_dir true w)) in *.
  match goal with
  | |- context [changelogs ?x !! p] => set (wf := x)
  end.
  assert (Hend : forall q, changelogs wf !! q = changelogs w3 !! q)
    by (intros q; unfold wf; cbn [snd]; now destruct (snapshot w3)).
  assert (Hw2 : w2 = (for_fold (items cur) false
                        (new_or_modified unified_diff readlines E old v) w1).2)
    by now rewrite H1.
  assert (Hw3 : w3 = (for_fold (keys old) c1 (gone E cur v) w2).2) by now rewrite H2.
  pose proof (returns_new_or_modified unified_diff readlines E (makedirs_calm E calm) old v)
    as Hret1.
  pose proof (returns_gone E (makedirs_calm E calm) cur v) as Hret2.
  (* the first loop, for a path it has an item for *)
  assert (Hfirst : forall q h F,
             cur !! q = Some h ->
             (forall acc w0, snapshot w0 = snapshot w /\ tree w0 = tree w ->
                changelogs (new_or_modified unified_diff readlines E old v acc (q, h) w0).2 !! q
                = F (changelogs w0 !! q)) ->
             changelogs w2 !! q = F (changelogs w !! q)).
  { intros q h F Hq Hhit. rewrite Hw2.
    change (changelogs w !! q) with (changelogs w1 !! q).
    apply (touch_once _ fst q (fun w0 => snapshot w0 = snapshot w /\ tree w0 = tree w) F (q, h)).
    - exact Hret1.
    - intros acc y w0 [Hs Ht]. pose proof (keeps_new_or_modified old v acc y w0) as Hk.
      unfold keeps in Hk. injection Hk as Hs' Ht'. split; congruence.
    - intros acc y w0. apply first_loop_other.
    - exact Hhit.
    - reflexivity.
    - apply NoDup_ListNoDup, NoDup_fst_map_to_list.
    - now apply in_items.
    - split; reflexivity. }
  (* the first loop, for a path it has no item for *)
  assert (Hfirst_none : forall q, cur !! q = None -> changelogs w2 !! q = changelogs w !! q).
  { intros q Hq. rewrite Hw2. rewrite touch_none; [reflexivity | exact Hret1 |].
    intros [y h] Hy acc w0. apply first_loop_other. cbn. intros ->.
    apply in_items in Hy. congruence. }
  (* the second loop *)
  assert (Hsecond_none : forall q, (old !! q = None \/ is_Some (cur !! q)) ->
                           changelogs w3 !! q = changelogs w2 !! q).
  { intros q Hq. rewrite Hw3. apply touch_none; [exact Hret2|].
    intros y Hy acc w0. apply second_loop_other.
    destruct (decide (y = q)) as [->|Hne]; [|now left].
    right. destruct Hq as [Hq|Hq]; [|exact Hq].
    apply keys_spec in Hy. rewrite Hq in Hy. now destruct Hy. }
  repeat apply conj.
  - intros Hn. apply new_files_spec in Hn as [[h Hq] Hold].
    rewrite Hend, Hsecond_none by now left.
    apply (Hfirst p h (fun o => Some ((default "" o +:+ header E v)
                                      +:+ "📄 New file added." +:+ Diff.nl)) Hq).
    intros acc w0 _. now apply first_loop_new.
  - intros Hd. apply deleted_files_spec in Hd as [Hold Hq].
    rewrite Hend, Hw3.
    rewrite (touch_once _ id p (fun _ => True)
               (fun o => Some ((default "" o +:+ header E v)
                               +:+ "🔻 File was deleted." +:+ Diff.nl)) p (keys old)).
    + now rewrite (Hfirst_none p Hq).
    + exact Hret2.
    + auto.
    + intros acc y w0 Hne. apply second_loop_other. now left.
    + intros acc w0 _. now apply second_loop_deleted.
    + reflexivity.
    + rewrite map_id. apply keys_NoDup.
    + now apply keys_spec.
    + exact I.
  - intros Hc old_data new_data Hsnap Hnew.
    apply changed_files_spec in Hc as (oh & h & Hold & Hq & Hne).
    destruct (first_loop_modified old v false p h oh old_data new_data w Hold Hne Hsnap Hnew)
      as (body & Hbody & _).
    exists body. split; [exact Hbody|].
    rewrite Hend, Hsecond_none by (right; eauto).
    apply (Hfirst p h (fun o => Some ((default "" o +:+ header E v) +:+ body)) Hq).
    intros acc w0 [Hs Ht].
    destruct (first_loop_modified old v acc p h oh old_data new_data w0 Hold Hne)
      as (body' & Hbody' & Hlog); [now rewrite Hs | now rewrite Ht |].
    rewrite Hlog. congruence.
  - intros Hc Hsnap.
    apply changed_files_spec in Hc as (oh & h & Hold & Hq & Hne).
    rewrite Hend, Hsecond_none by (right; eauto).
    apply (Hfirst p h (fun o => o) Hq).
    intros acc w0 [Hs Ht].
    rewrite (first_loop_unlogged old v acc p h oh w0 Hold); [reflexivity|].
    now rewrite Hs.
  - intros q Hn Hc Hd.
    rewrite new_files_spec in Hn. rewrite changed_files_spec in Hc.
    rewrite deleted_files_spec in Hd. rewrite Hend.
    destruct (cur !! q) as [h|] eqn:Hq.
    + rewrite Hsecond_none by (right; eauto).
      destruct (old !! q) as [oh|] eqn:Hold; [|exfalso; apply Hn; eauto].
      destruct (decide (oh = h)) as [->|Hne]; [|exfalso; apply Hc; eauto].
      apply (Hfirst q h (fun o => o) Hq).
      intros acc w0 _. now rewrite first_loop_same.
    + rewrite Hsecond_none.
      * now apply Hfirst_none.
      * destruct (old !! q) eqn:Hold; [|now left]. exfalso. apply Hd. eauto.
Qed.

End Commands.

Lemma commit_logs_each_change_witness :
  let E := calm "2026-01-02 10:00" in
  let w := Scenarios.edited in
  let w' := update_gitnot Ignore.posix_match (fun _ _ => []) (fun _ => []) E w in
  changelogs w' !! "n.md"
  = Some ((default "" (changelogs w !! "n.md")
           +:+ header E (Float.add (read_version w) Float.tenth))
          +:+ "📄 New file added." +:+ Diff.nl).
Proof.
  refine (proj1 (commit_logs_each_change Ignore.posix_match (fun _ _ => []) (fun _ => [])
                   (calm "2026-01-02 10:00") (fun o => eq_refl) Scenarios.edited
                   ["a.txt"; "n.md"] "n.md" _ _ _) _).
  - reflexivity.
  - vm_compute. reflexivity.
  - left. vm_compute. left. reflexivity.
  - vm_compute. left. reflexivity.
Defined.

End EntryFacts.

(** ** The file scan *)

Module ScanFacts.

Import Str OS Store DeltaFacts.

Lemma lower_lower (c : ascii) : lower (lower c) = lower c.
Proof. destruct c as [[] [] [] [] [] [] [] []]; reflexivity. Qed.

Lemma lowercase_lowercase (s : string) : lowercase (lowercase s) = lowercase s.
Proof.
  induction s as [|c s IH]; [reflexivity|]. cbn [lowercase]. now rewrite lower_lower, IH.
Qed.

Section Commands.

Variable path_match : Ignore.path -> string -> bool.

(** X20.  The file scan lists no path twice, and every path it lists is a
    file of the tree that no ignore pattern excludes, that does not
    start with the text [.gitnot] (whether or not it lies in that
    folder), and whose lower-cased suffix is an entry of the configured
    extensions: an entry with an upper-case letter matches no file. *)
Theorem scan_is_sound (w : world) (files : list string) (f : string)
    (Hfiles : get_all_text_files path_match w = Ok files)
    (Hin : In f files) :
  List.NoDup files
  /\ is_Some (tree w !! f)
  /\ startswith ".gitnot" f = false
  /\ Ignore.should_ignore_file path_match (Ignore.of_str f)
       (default [] (ignore_patterns (load_config w))) = false
  /\ exists text_extensions extension,
       extensions (load_config w) = Some text_extensions
       /\ In extension text_extensions
       /\ extension = lowercase (suffix (Ignore.name (Ignore.of_str f)))
       /\ lowercase extension = extension.
Proof.
  unfold get_all_text_files in Hfiles.
  destruct (extensions (load_config w)) as [text_extensions|] eqn:Hext; [|discriminate].
  injection Hfiles as <-. split; [apply List.NoDup_filter, keys_NoDup|].
  apply filter_In in Hin as [Hkey Hcond].
  apply andb_true_iff in Hcond as [Hcond Hignore].
  apply andb_true_iff in Hcond as [Hsuffix Hprefix].
  apply negb_true_iff in Hignore, Hprefix.
  split; [now apply keys_spec|]. split; [exact Hprefix|]. split; [exact Hignore|].
  apply existsb_exists in Hsuffix as (extension & Hext_in & Heq).
  apply String.eqb_eq in Heq.
  exists text_extensions, extension. repeat split; try assumption.
  - now symmetry.
  - rewrite <- Heq. apply lowercase_lowercase.
Qed.

End Commands.

Lemma scan_is_sound_witness :
  get_all_text_files Ignore.posix_match Examples.mixed_names = Ok ["NOTES.TXT"]
  /\ startswith ".gitnot" "NOTES.TXT" = false
  /\ exists text_extensions extension,
       extensions (load_config Examples.mixed_names) = Some text_extensions
       /\ In extension text_extensions
       /\ extension = lowercase (suffix (Ignore.name (Ignore.of_str "NOTES.TXT")))
       /\ lowercase extension = extension.
Proof.
  assert (Hscan : get_all_text_files Ignore.posix_match Examples.mixed_names
                  = Ok ["NOTES.TXT"]) by (vm_compute; reflexivity).
  destruct (scan_is_sound Ignore.posix_match Examples.mixed_names ["NOTES.TXT"] "NOTES.TXT"
              Hscan (or_introl eq_refl)) as (_ & _ & Hprefix & _ & Hext).
  split; [exact Hscan|]. split; [exact Hprefix | exact Hext].
Defined.

End ScanFacts.
